(* ===== verification/_CoqProject ===== *)
-Q . S2P
Prelude.v
JsString.v
FileFilter.v
ObjectUrl.v
Upload.v
Gateway.v
ChatView.v
Widgets.v
Home.v
Session.v
