(* ===== verification/Prelude.v ===== *)
(** * ChatbotFrontend: a verification development for the persona chat /
    document portal (React front end, [src/src])

    ** The program

    The repository is a browser front end made of one page and four
    components, plus a thin HTTP client:

    - [src/src/components/UploadButton.jsx]: [humanFileSize] (byte counts as
      text), [matchesAccept] (the accept-specification filter) and the
      [UploadButton] component, whose [handleFiles] validates a selection,
      creates blob preview URLs with [URL.createObjectURL], revokes the
      previous ones with [URL.revokeObjectURL] and calls [onUpload];
    - [src/src/services/api.js]: [sendMessage], [uploadFile], [listFiles],
      each one request wrapped in a try/catch that turns a failure into a
      value;
    - [src/src/pages/Home.js]: the page.  It owns the chat log, the input
      box, the role, the document list, the preview modal
      ([previewFile], [previewText], [processing]) and the notification with
      its three-second timer; its handlers are asynchronous and interleave
      with the replies of the remote service;
    - [src/src/components/ChatWindow.jsx]: [linkify], [isNearBottom] and the
      message keys; [SearchBar.jsx] and [PersonaSelector.jsx]: two small
      controlled widgets.

    ** The development, file by file

    - [Prelude] (this file): the type [jsstr] of strings, the scope
      [js_scope], the development's tactics and hint databases, and the
      lemmas on truthiness and lists that several components share.
    - [JsString]: the ECMAScript built-ins the sources call
      ([startsWith], [endsWith], [toLowerCase], [trim], [split], [replace],
      [slice], [encodeURIComponent], [toFixed], decimal printing), each as
      an executable function with its characterisation.  They are language
      primitives, not code of the repository: the manifest marks them as
      modelled from their specification.
    - [FileFilter]: [humanFileSize] and [matchesAccept] of
      [UploadButton.jsx].  The index [humanFileSize] computes with
      [Math.log] is an operation of the host ([FloatLog], with the laws
      [FloatLogLaws]); [exactLog] and [roundingLog] are two hosts.
    - [ObjectUrl]: the browser's blob-URL registry as an interface
      ([UrlRegistry], a class of operations, and [UrlRegistryLaws], what a
      client may assume) and one implementation of it, [Browser].
    - [Upload]: the [UploadButton] component: its props and state as
      records, one definition per handler, [dispatch] for the wiring of
      the markup, [offered] for the events the markup delivers,
      [handleEvent] for one event, [reachable] for the states of a mounted
      component, the
      ownership invariants on preview URLs ([owned], [faithful],
      [leak_free]), the staging contract of the specification ([stage]) and
      the refinement between [handleFiles] and it.  Every theorem is proved
      against the interface of [ObjectUrl] and for every host [FloatLog].
    - [Gateway]: the three wrappers of [api.js]: the request each builds
      and the value each returns for every outcome of the request ([Http]);
      the outcome type of the requests the page makes with [fetch].
    - [ChatView]: [ChatWindow.jsx]: the regular expression of [linkify] as
      a matcher ([urlAt], [search], [exec]), the [while] loop of [linkify]
      with fuel, [isNearBottom], the message key and the rendered messages.
    - [Widgets]: [SearchBar.jsx] and [PersonaSelector.jsx], one module each.
    - [Home]: [Home.js]: the record [Page] of the [useState] cells with one
      setter per cell; each asynchronous handler cut at its [await] into
      the part that runs at once, which names the request it waits for (a
      [Task], carrying what the closure captured), and the continuation
      ([fetchDocumentsDone], [handleSendDone], [handleUploadDone],
      [handlePreviewText], [handlePreviewPdf]); the view [renderPage].
    - [Session]: the page at work.  A [World] is the page with the state
      of the upload button it renders, the URL registry, the requests in
      flight, the log of requests, the timer of the notification and the
      clock.  [react] wires an event of the markup to its handler, [commit]
      is the render with the two effects ([fetchEffect],
      [notificationEffect]), [step] is one event, [visits] the reachable
      worlds.  Requests end in any order ([Settle i o]).  The relation
      [act] is the protocol the steps follow, seen from the cells and the
      requests in flight alone.

    ** What the theorems show

    - [FileFilter]: [matchesAccept] accepts exactly the files one pattern
      matches; the extension match ignores case; the wild card ignores the
      slash (a finding); on every host [humanFileSize] prints the right
      unit below 1024^5 bytes, up to the margin in which the rounding of
      [Math.log] decides, and the word [undefined] from 1024^5 on (a
      finding); inside the margin the unit depends on the host: 2^50 - 1
      bytes are 1024.00 TB with an exact logarithm and 1.00 undefined with
      53 bits (a finding).
    - [Upload]: the preview URLs of the selection are always registered,
      distinct and resolve to their files; with [multiple] nothing leaks,
      without it the URLs of the files after the first leak for good (a
      finding); a new selection revokes the previous URLs exactly once;
      [handleFiles] partitions its input and refines [stage].
    - [Home]: what each handler does on each of its branches, failures
      included; the viewer of the modal is chosen by the extension of the
      file name, which [encodeURIComponent] preserves.
    - [ChatView]: [linkify] is a partition of the message into plain
      stretches and well-formed links, it misses no link, and its loop
      terminates.
    - [Session]: every step refines the protocol [act]; over all reachable
      worlds: at most one chat request is in flight, the transcript
      alternates between user and bot and only grows, its keys are
      distinct, a notice implies a request in flight, the timer is set
      exactly while a notification is shown, and the requests in flight
      can always end, after which no notice is left.  The findings on the page are theorems too: the
      modal cannot be closed while processing, a late extraction opens it
      again, a late listing overwrites the documents of another role, a
      failed upload is announced as a success, an error page is previewed
      as text, a repeated notification does not restart the timer.

    ** Modelling conventions

    - A JavaScript string is a [list ascii] ([jsstr]): the development
      reads it as a sequence of bytes.  Case conversion and white space are
      the ASCII ones; text outside ASCII passes through the operations
      unchanged.  [js "..."] turns a literal into a [jsstr].
    - File sizes are natural numbers ([N]); the [maxSize] prop is a count
      of bytes or the default [Infinity] ([option N], [None] for
      [Infinity]): a negative or fractional limit is outside the model.
    - [humanFileSize] has two floating-point steps.  The index
      [Math.floor (Math.log b / Math.log 1024)] depends on how the host
      rounds [Math.log]; it is the operation [log1024] of the class
      [FloatLog], of which the theorems assume the two laws of
      [FloatLogLaws] and nothing else: the index of a size is at least the
      exact one, and it is at most [k] when the size and a 2^40th of it
      stay under 1024^(k+1).  The division by a power of 1024 is exact in
      double precision for the sizes a [File] can have, and [toFixed(2)]
      is rounding half up of that quotient.
    - [null], [undefined] and absent values are [None] where the code
      reads them through [??], [?.], [||] or [!], which do not tell them
      apart; the text of a message, which is printed with [String], keeps
      them apart ([TextValue]).  A handler that returns early returns its
      input state.
    - What a handler assumes of the markup is kept apart from what it
      tests: [Upload.offered] and [Session.enabled] say which events the
      rendered markup delivers (a disabled input reports no change, a
      button that is not rendered is not clicked).
    - State is passed explicitly.  A handler takes the component's props,
      its state and (where it calls the browser) the URL registry, and
      returns the new state, the new registry and the callback it invoked.
    - An [await] ends a definition: the handler's first part returns the
      tasks it started and the continuation is a definition of its own that
      takes the outcome of the request.  A step of [Session] runs one of
      them to completion, as the event loop does.
    - React effects run in the step of the render that changed their
      dependencies.  A setter called with the current value changes nothing
      and triggers nothing, as in React.
    - Time is a clock in milliseconds that the event [Elapse] advances; the
      timer of the notification is its deadline, and [Timeout] is the
      callback, which runs only once the deadline has passed.

    ** Fuel

    The only loop that is not structural is the [while] of [linkify].
    [linkifyLoop] takes the number of iterations allowed; [linkify] gives it
    the length of the text plus one.  Every iteration but the last consumes
    a match, which has eight characters or more, so that the fuel is never
    exhausted: [linkifyLoop_fuel] shows that more fuel gives the same
    result, and [linkify_text] that the result is complete.

    ** What is not modelled

    The JSX that lays out markup and styles, the DOM ([scrollIntoView],
    focus, [document.body.style]), [axios], [fetch] and the server (only
    the outcome of a request is visible), React's scheduler beyond the
    order handler, render, effects, replies that are not strings and text
    outside ASCII, and the unmounting of a component. *)

From Stdlib Require Export Ascii String NArith ZArith Lia.
From stdpp Require Export base tactics option list numbers strings.

(** ** Strings *)

(** A JavaScript string, read as a sequence of bytes. *)
Abbreviation jsstr := (list ascii) (only parsing).

Declare Scope js_scope.
Delimit Scope js_scope with js.

(** [js "abc"] is the [jsstr] of a literal. *)
Definition js (s : string) : jsstr := list_ascii_of_string s.
Global Arguments js _ : simpl never.

(** JavaScript truthiness of a string: the empty string is falsy. *)
Definition truthy (s : jsstr) : bool := bool_decide (s ≠ []).

Infix "+++" := (@app ascii) (at level 60, right associativity) : js_scope.

(** ** Hint databases

    [js] holds the facts that [auto] may use about the models; the rewrite
    database [js_bool] turns boolean tests of the code into propositions and
    [js_simpl] holds the simplification equations of the models. *)

Create HintDb js discriminated.
Create Rewrite HintDb js_bool.
Create Rewrite HintDb js_simpl.

#[export] Hint Rewrite andb_true_iff orb_true_iff negb_true_iff negb_false_iff
  andb_false_iff orb_false_iff : js_bool.
#[export] Hint Rewrite @bool_decide_eq_true @bool_decide_eq_false : js_bool.
#[export] Hint Rewrite N.ltb_lt N.leb_le N.eqb_eq N.ltb_ge N.leb_gt : js_bool.

(** ** Tactics *)

(** Turn the boolean tests in the goal and the hypotheses into propositions. *)
Ltac bool_to_prop :=
  repeat first
    [ progress autorewrite with js_bool in *
    | match goal with
      | H : Is_true _ |- _ => apply Is_true_true in H
      | |- Is_true _ => apply Is_true_true
      end ].

(** Linear and non-linear arithmetic with [/] and [mod]: the quotient and
    the remainder are replaced by their defining equations first. *)
Ltac lia_div := zify; Z.to_euclidean_division_equations; lia.
Ltac nia_div := zify; Z.to_euclidean_division_equations; nia.

(** Case analysis on the test of the first [if] of the goal, keeping the
    equation. *)
Ltac case_if :=
  match goal with
  | |- context [if ?b then _ else _] =>
      let E := fresh "E" in destruct b eqn:E
  end.

(** The same on a hypothesis. *)
Ltac case_if_in H :=
  match type of H with
  | context [if ?b then _ else _] =>
      let E := fresh "E" in destruct b eqn:E
  end.

(** Split the pairs bound by a [let '(x, y) := e in _] of the goal. *)
Ltac case_pair :=
  match goal with
  | |- context [let '(_, _) := ?e in _] =>
      let E := fresh "E" in destruct e eqn:E
  end.

(** ** Truthiness *)

Lemma truthy_true s : truthy s = true ↔ s ≠ [].
Proof. apply bool_decide_eq_true. Qed.

Lemma truthy_false s : truthy s = false ↔ s = [].
Proof.
  unfold truthy. rewrite bool_decide_eq_false. destruct s; [|split]; naive_solver.
Qed.

Lemma truthy_cons c s : truthy (c :: s) = true.
Proof. done. Qed.

Lemma truthy_app_r s k : truthy k = true → truthy (s ++ k) = true.
Proof. rewrite !truthy_true. by intros ? [_ ?]%app_eq_nil. Qed.

#[export] Hint Rewrite truthy_cons : js_simpl.

(** ** Lists *)

Section lists.
Context {A : Type}.
Implicit Types (l k : list A) (x : A).

(** A loop that pushes the elements passing a test onto an array computes a
    filter. *)
Lemma foldl_push_filter (P : A → bool) l k :
  foldl (λ acc x, if P x then acc ++ [x] else acc) k l
  = k ++ filter (λ x, Is_true (P x)) l.
Proof.
  revert k. induction l as [|x l IH]; intros k; simpl.
  - by rewrite app_nil_r.
  - rewrite IH. destruct (P x) eqn:E.
    + rewrite filter_cons_True by (by rewrite E). by rewrite <-app_assoc.
    + rewrite filter_cons_False by (rewrite E; intros []). done.
Qed.

(** [slice(0, 1)] keeps at most one element. *)
Lemma length_take_1 l : length (take 1 l) ≤ 1.
Proof. rewrite length_take. lia. Qed.

Lemma take_1_cons x l : take 1 (x :: l) = [x].
Proof. done. Qed.

Lemma elem_of_take_1 x l : x ∈ take 1 l → head l = Some x.
Proof. destruct l as [|y l]; simpl; [by intros ?%elem_of_nil|]. by intros ->%list_elem_of_singleton. Qed.

(** The elements a partial function rejects and the results it gives for
    the others add up to the whole list. *)
Lemma length_filter_omap {B} (f : A → option B)
    `{!∀ x, Decision (f x = None)} l :
  length (filter (λ x, f x = None) l) + length (omap f l) = length l.
Proof.
  induction l as [|x l IH]; [done|]. csimpl.
  destruct (f x) eqn:E.
  - rewrite filter_cons_False by congruence. simpl. lia.
  - rewrite filter_cons_True by done. simpl. lia.
Qed.

End lists.

#[export] Hint Resolve length_take_1 : js.
