(* ===== verification/JsString.v ===== *)
(** * JsString: the ECMAScript string and number built-ins the sources call

    Each built-in is an executable function on [jsstr] together with the
    lemmas that characterise it.  The functions follow the ECMAScript
    definitions restricted to ASCII text; they model the language, not code
    of the repository. *)

From Stdlib Require Import DecimalString DecimalN.
From S2P Require Import Prelude.

#[local] Open Scope char_scope.

(** ** [startsWith], [endsWith] *)

(** [s.startsWith(p)] *)
Definition startsWith (s p : jsstr) : bool := bool_decide (p `prefix_of` s).

(** [s.endsWith(p)] *)
Definition endsWith (s p : jsstr) : bool := bool_decide (p `suffix_of` s).

(** ** Case conversion *)

(** One character of [toLowerCase]: the letters A to Z move to a to z. *)
Definition lowerChar (c : ascii) : ascii :=
  let n := N_of_ascii c in
  if (65 <=? n)%N && (n <=? 90)%N then ascii_of_N (n + 32) else c.

(** One character of [toUpperCase]. *)
Definition upperChar (c : ascii) : ascii :=
  let n := N_of_ascii c in
  if (97 <=? n)%N && (n <=? 122)%N then ascii_of_N (n - 32) else c.

(** [s.toLowerCase()] *)
Definition toLowerCase (s : jsstr) : jsstr := lowerChar <$> s.

(** [s.toUpperCase()] *)
Definition toUpperCase (s : jsstr) : jsstr := upperChar <$> s.

(** ** [trim] *)

(** [s.trimStart()]: drop the leading white space. *)
Fixpoint trimStart (s : jsstr) : jsstr :=
  match s with
  | [] => []
  | c :: s' => if Ascii.is_space c then trimStart s' else s
  end.

(** [s.trimEnd()] *)
Definition trimEnd (s : jsstr) : jsstr := reverse (trimStart (reverse s)).

(** [s.trim()] *)
Definition trim (s : jsstr) : jsstr := trimEnd (trimStart s).

(** A string made of white space only. *)
Definition blank (s : jsstr) : Prop := Forall (λ c, Ascii.is_space c = true) s.

(** ** [split] and [join] on a one-character separator *)

(** [s.split(sep)] for a separator of one character: the segments between
    the separators, the empty ones included; [""] splits into [[""]]. *)
Fixpoint splitOn (sep : ascii) (s : jsstr) : list jsstr :=
  match s with
  | [] => [[]]
  | c :: s' =>
      if decide (c = sep) then [] :: splitOn sep s'
      else match splitOn sep s' with
           | seg :: segs => (c :: seg) :: segs
           | [] => [[c]]
           end
  end.

(** [segs.join(sep)] *)
Fixpoint joinWith (sep : ascii) (segs : list jsstr) : jsstr :=
  match segs with
  | [] => []
  | [seg] => seg
  | seg :: segs' => seg ++ sep :: joinWith sep segs'
  end.

(** ** [replace] with a string pattern *)

(** [s.replace(pat, rep)] for a string [pat]: the first occurrence of [pat]
    only.  (The [$] patterns of the replacement text are not modelled; the
    sources replace by the empty string.) *)
Fixpoint replaceFirst (pat rep s : jsstr) {struct s} : jsstr :=
  if startsWith s pat then rep ++ drop (length pat) s
  else match s with
       | [] => []
       | c :: s' => c :: replaceFirst pat rep s'
       end.

(** [pat] occurs in [s] at offset [i]. *)
Definition occurs_at (pat s : jsstr) (i : nat) : Prop :=
  startsWith (drop i s) pat = true.

(** ** [charAt] *)

(** [s.charAt(i)]: the character at [i] as a string, [""] out of range. *)
Definition charAt (s : jsstr) (i : nat) : jsstr :=
  match s !! i with
  | Some c => [c]
  | None => []
  end.

(** ** Numbers as text *)

(** The decimal digits of a natural number, as [String(n)] prints an
    integer below 10^21. *)
Definition digits (n : N) : jsstr :=
  list_ascii_of_string (NilEmpty.string_of_uint (N.to_uint n)).

(** The integer nearest to [100 * num / den], the larger one on a tie: the
    number of hundredths [toFixed(2)] prints. *)
Definition roundHundredths (num den : N) : N :=
  ((200 * num + den) / (2 * den))%N.

(** A number of hundredths as text: its digits, padded with zeros on the
    left to three, with a point before the last two. *)
Definition printHundredths (n : N) : jsstr :=
  let m := digits n in
  let m := if decide (length m ≤ 2) then replicate (3 - length m) "0" ++ m else m in
  take (length m - 2) m ++ "." :: drop (length m - 2) m.

(** [(num / den).toFixed(2)] for a non-negative quotient below 10^21. *)
Definition toFixed2 (num den : N) : jsstr :=
  printHundredths (roundHundredths num den).

(** ** [slice] *)

(** [s.slice(from, to)] for indices within the string. *)
Definition slice (s : jsstr) (from to : nat) : jsstr :=
  take (to - from) (drop from s).

(** ** [encodeURIComponent] *)

(** The characters [encodeURIComponent] leaves alone: letters, digits and
    [- _ . ! ~ * ' ( )]. *)
Definition unreserved (c : ascii) : bool :=
  let n := N_of_ascii c in
  ((65 <=? n)%N && (n <=? 90)%N) || ((97 <=? n)%N && (n <=? 122)%N)
  || ((48 <=? n)%N && (n <=? 57)%N)
  || bool_decide (c ∈ ["-"; "_"; "."; "!"; "~"; "*"; "'"; "("; ")"]).

(** A hexadecimal digit, in upper case. *)
Definition hexDigit (n : N) : ascii :=
  if (n <? 10)%N then ascii_of_N (48 + n) else ascii_of_N (55 + n).

(** The escape of one byte: [%XY]. *)
Definition escapeChar (c : ascii) : jsstr :=
  let n := N_of_ascii c in
  ["%"; hexDigit (n / 16); hexDigit (n mod 16)].

(** One byte of [encodeURIComponent]. *)
Definition encodeChar (c : ascii) : jsstr :=
  if unreserved c then [c] else escapeChar c.

(** [encodeURIComponent(s)], the string read as its UTF-8 bytes. *)
Definition encodeURIComponent (s : jsstr) : jsstr := s ≫= encodeChar.

(** A character of a file extension in lower case: the point, a small
    letter or a digit. *)
Definition extChar (x : ascii) : bool :=
  let n := N_of_ascii x in
  bool_decide (x = ".") || ((97 <=? n)%N && (n <=? 122)%N)
  || ((48 <=? n)%N && (n <=? 57)%N).

(** An extension: a point, then small letters and digits. *)
Definition extension (ext : jsstr) : Prop :=
  ∃ rest, ext = "." :: rest ∧ Forall (λ x, extChar x = true) rest.

(** ** Characterisations *)

Section prefix_suffix.
Implicit Types (s p k : jsstr).

Lemma startsWith_true s p : startsWith s p = true ↔ ∃ k, s = p ++ k.
Proof. unfold startsWith. by rewrite bool_decide_eq_true. Qed.

Lemma startsWith_false s p : startsWith s p = false ↔ ∀ k, s ≠ p ++ k.
Proof.
  unfold startsWith. rewrite bool_decide_eq_false. split.
  - intros Hn k ->. apply Hn. by exists k.
  - intros Hn [k ->]. by apply (Hn k).
Qed.

Lemma endsWith_true s p : endsWith s p = true ↔ ∃ k, s = k ++ p.
Proof. unfold endsWith. by rewrite bool_decide_eq_true. Qed.

Lemma startsWith_nil s : startsWith s [] = true.
Proof. apply startsWith_true. by exists s. Qed.

Lemma endsWith_nil s : endsWith s [] = true.
Proof. apply endsWith_true. exists s. by rewrite app_nil_r. Qed.

Lemma startsWith_app p k : startsWith (p ++ k) p = true.
Proof. apply startsWith_true. by exists k. Qed.

Lemma endsWith_app k p : endsWith (k ++ p) p = true.
Proof. apply endsWith_true. by exists k. Qed.

(** A suffix that does not hold the last character of [k] lies in what
    follows [k]. *)
Lemma endsWith_app_sep k s p x :
  last k = Some x → x ∉ p → endsWith (k ++ s) p = endsWith s p.
Proof.
  intros Hlast Hx. apply bool_decide_ext. split; [|apply suffix_app_r].
  intros [h Hh]. apply app_eq_app in Hh as [l [[-> ->]|[-> ->]]].
  - destruct l as [|y l _] using rev_ind; [done|].
    rewrite app_assoc, last_snoc in Hlast. simplify_eq.
    destruct Hx. apply elem_of_app. left. apply elem_of_app. right.
    by apply list_elem_of_singleton.
  - by apply suffix_app_r.
Qed.

Lemma startsWith_length s p : startsWith s p = true → length p ≤ length s.
Proof. intros [k ->]%startsWith_true. rewrite length_app. lia. Qed.

Lemma endsWith_length s p : endsWith s p = true → length p ≤ length s.
Proof. intros [k ->]%endsWith_true. rewrite length_app. lia. Qed.

(** A prefix of a prefix is a prefix. *)
Lemma startsWith_trans s p q :
  startsWith s p = true → startsWith p q = true → startsWith s q = true.
Proof.
  intros [k ->]%startsWith_true [k' ->]%startsWith_true.
  apply startsWith_true. exists (k' ++ k). by rewrite app_assoc.
Qed.

(** [startsWith] as comparison with the first characters. *)
Lemma startsWith_take s p : startsWith s p = bool_decide (take (length p) s = p).
Proof.
  apply bool_decide_ext. split.
  - intros [k ->]. by rewrite take_app_length.
  - intros <-. apply prefix_take.
Qed.

(** [endsWith] as comparison with the last characters. *)
Lemma endsWith_drop s p :
  endsWith s p = bool_decide (length p ≤ length s ∧ drop (length s - length p) s = p).
Proof.
  apply bool_decide_ext. split.
  - intros [k ->]. rewrite length_app. split; [lia|].
    replace (length k + length p - length p) with (length k) by lia.
    by rewrite drop_app_length.
  - intros [_ <-]. apply suffix_drop.
Qed.

End prefix_suffix.

#[export] Hint Resolve startsWith_nil endsWith_nil startsWith_app endsWith_app : js.

Section case_conversion.
Implicit Types (s p : jsstr) (c : ascii).

Lemma lowerChar_idemp c : lowerChar (lowerChar c) = lowerChar c.
Proof. by destruct c as [[] [] [] [] [] [] [] []]. Qed.

Lemma upperChar_idemp c : upperChar (upperChar c) = upperChar c.
Proof. by destruct c as [[] [] [] [] [] [] [] []]. Qed.

(** Lower case ignores an earlier conversion to upper case. *)
Lemma lowerChar_upperChar c : lowerChar (upperChar c) = lowerChar c.
Proof. by destruct c as [[] [] [] [] [] [] [] []]. Qed.

Lemma toLowerCase_length s : length (toLowerCase s) = length s.
Proof. apply length_fmap. Qed.

Lemma toLowerCase_app s p : toLowerCase (s ++ p) = toLowerCase s ++ toLowerCase p.
Proof. apply fmap_app. Qed.

Lemma toLowerCase_idemp s : toLowerCase (toLowerCase s) = toLowerCase s.
Proof.
  unfold toLowerCase. rewrite <-list_fmap_compose.
  apply list_fmap_ext. intros _ c _. apply lowerChar_idemp.
Qed.

(** A name that ends with an extension, in whatever case, passes the test
    [name.toLowerCase().endsWith(ext.toLowerCase())]. *)
Lemma endsWith_toLowerCase s p :
  endsWith s p = true → endsWith (toLowerCase s) (toLowerCase p) = true.
Proof.
  intros [k ->]%endsWith_true. rewrite toLowerCase_app. apply endsWith_app.
Qed.

End case_conversion.

#[export] Hint Rewrite toLowerCase_length toLowerCase_idemp : js_simpl.

Section trimming.
Implicit Types (s l r : jsstr) (c : ascii).

Lemma trimStart_split s : ∃ l, s = l ++ trimStart s ∧ blank l.
Proof.
  induction s as [|c s (l & Hs & Hl)]; simpl.
  - exists []. by split; [|constructor].
  - destruct (Ascii.is_space c) eqn:E.
    + exists (c :: l). split; [by rewrite <-app_comm_cons, <-Hs|by constructor].
    + exists []. by split; [|constructor].
Qed.

Lemma trimStart_head s c : head (trimStart s) = Some c → Ascii.is_space c = false.
Proof.
  induction s as [|c' s IH]; simpl; [done|].
  destruct (Ascii.is_space c') eqn:E; [done|]. simpl. by intros [= <-].
Qed.

(** A string that does not start with white space is left alone. *)
Lemma trimStart_id s :
  (∀ c, head s = Some c → Ascii.is_space c = false) → trimStart s = s.
Proof. destruct s as [|c s]; simpl; [done|]. intros H. by rewrite (H c). Qed.

Lemma trimStart_idemp s : trimStart (trimStart s) = trimStart s.
Proof. apply trimStart_id, trimStart_head. Qed.

Lemma trimStart_blank s : blank s → trimStart s = [].
Proof. induction 1 as [|c s Hc _ IH]; simpl; [done|]. by rewrite Hc. Qed.

Lemma trimEnd_split s : ∃ r, s = trimEnd s ++ r ∧ blank r.
Proof.
  unfold trimEnd. destruct (trimStart_split (reverse s)) as (l & Hs & Hl).
  exists (reverse l). split.
  - rewrite <-reverse_app, <-Hs. by rewrite reverse_involutive.
  - by apply Forall_reverse.
Qed.

Lemma trimEnd_last s c : last (trimEnd s) = Some c → Ascii.is_space c = false.
Proof. unfold trimEnd. rewrite last_reverse. apply trimStart_head. Qed.

Lemma trimEnd_id s :
  (∀ c, last s = Some c → Ascii.is_space c = false) → trimEnd s = s.
Proof.
  intros H. unfold trimEnd. rewrite trimStart_id, reverse_involutive; [done|].
  intros c. rewrite head_reverse. apply H.
Qed.

(** Trailing white space does not reach the head of a string that has
    none in front. *)
Lemma trimEnd_head s c :
  (∀ c, head s = Some c → Ascii.is_space c = false) →
  head (trimEnd s) = Some c → Ascii.is_space c = false.
Proof.
  intros Hs. destruct (trimEnd_split s) as (r & Heq & Hr).
  destruct (trimEnd s) as [|c' t]; simpl; [done|]. intros [= ->].
  apply Hs. by rewrite Heq.
Qed.

(** [trim] removes white space on both sides and nothing else. *)
Lemma trim_split s : ∃ l r, s = l ++ trim s ++ r ∧ blank l ∧ blank r.
Proof.
  destruct (trimStart_split s) as (l & Hs & Hl).
  destruct (trimEnd_split (trimStart s)) as (r & Ht & Hr).
  exists l, r. unfold trim. by rewrite <-Ht.
Qed.

Lemma trim_head s c : head (trim s) = Some c → Ascii.is_space c = false.
Proof. apply trimEnd_head. intros c'. apply trimStart_head. Qed.

Lemma trim_last s c : last (trim s) = Some c → Ascii.is_space c = false.
Proof. apply trimEnd_last. Qed.

Lemma trim_id s :
  (∀ c, head s = Some c → Ascii.is_space c = false) →
  (∀ c, last s = Some c → Ascii.is_space c = false) → trim s = s.
Proof. intros Hh Hl. unfold trim. rewrite trimStart_id by done. by apply trimEnd_id. Qed.

Lemma trim_idemp s : trim (trim s) = trim s.
Proof. apply trim_id; [apply trim_head|apply trim_last]. Qed.

Lemma trim_blank s : blank s → trim s = [].
Proof. intros H. unfold trim. by rewrite trimStart_blank. Qed.

End trimming.

#[export] Hint Rewrite trim_idemp trimStart_idemp : js_simpl.

Section splitting.
Implicit Types (s seg : jsstr) (sep c : ascii) (segs : list jsstr).

Lemma splitOn_nonempty sep s : splitOn sep s ≠ [].
Proof.
  destruct s as [|c s]; simpl; [done|].
  destruct (decide (c = sep)); [done|]. by destruct (splitOn sep s).
Qed.

(** Joining the segments with the separator gives the string back. *)
Lemma joinWith_splitOn sep s : joinWith sep (splitOn sep s) = s.
Proof.
  induction s as [|c s IH]; simpl; [done|].
  pose proof (splitOn_nonempty sep s) as Hne.
  destruct (decide (c = sep)) as [->|].
  - simpl. destruct (splitOn sep s) as [|seg segs]; [done|]. by rewrite IH.
  - destruct (splitOn sep s) as [|seg [|seg' segs]]; [done|..]; simpl in *; by rewrite IH.
Qed.

(** No segment holds the separator. *)
Lemma splitOn_no_sep sep s : Forall (λ seg, sep ∉ seg) (splitOn sep s).
Proof.
  induction s as [|c s IH]; simpl.
  - repeat constructor. apply not_elem_of_nil.
  - destruct (decide (c = sep)) as [->|Hc].
    + constructor; [apply not_elem_of_nil|done].
    + destruct (splitOn sep s) as [|seg segs]; simpl.
      * repeat constructor. by intros ->%list_elem_of_singleton.
      * inversion_clear IH. constructor; [|done].
        rewrite elem_of_cons. intros [->|]; done.
Qed.

(** A string without the separator is one segment. *)
Lemma splitOn_one sep s : sep ∉ s → splitOn sep s = [s].
Proof.
  induction s as [|c s IH]; simpl; [done|].
  rewrite not_elem_of_cons. intros [Hc Hs].
  rewrite decide_False by done. by rewrite IH.
Qed.

(** Splitting distributes over a separator that follows a segment. *)
Lemma splitOn_app sep seg s :
  sep ∉ seg → splitOn sep (seg ++ sep :: s) = seg :: splitOn sep s.
Proof.
  induction seg as [|c seg IH]; simpl.
  - intros _. by rewrite decide_True.
  - rewrite not_elem_of_cons. intros [Hc Hs].
    rewrite decide_False by done. by rewrite IH.
Qed.

End splitting.

Section replacing.
Implicit Types (s pat rep l r : jsstr).

(** The pattern at the very start is the first occurrence. *)
Lemma replaceFirst_here pat rep s :
  startsWith s pat = true → replaceFirst pat rep s = rep ++ drop (length pat) s.
Proof. intros H. destruct s; simpl; by rewrite H. Qed.

Lemma replaceFirst_skip pat rep c s :
  startsWith (c :: s) pat = false →
  replaceFirst pat rep (c :: s) = c :: replaceFirst pat rep s.
Proof. intros H. simpl. by rewrite H. Qed.

(** The general form: with the first occurrence of [pat] at offset
    [length l], the result is the text around it with [rep] in between. *)
Lemma replaceFirst_first pat rep l r :
  (∀ i, i < length l → ¬ occurs_at pat (l ++ pat ++ r) i) →
  replaceFirst pat rep (l ++ pat ++ r) = l ++ rep ++ r.
Proof.
  induction l as [|c l IH]; intros Hfirst.
  - simpl app. rewrite replaceFirst_here by apply startsWith_app.
    by rewrite drop_app_length.
  - rewrite <-!app_comm_cons. rewrite replaceFirst_skip.
    + f_equal. apply IH. intros i Hi. apply (Hfirst (S i)). simpl. lia.
    + apply not_true_is_false. apply (Hfirst 0). simpl. lia.
Qed.

(** Without an occurrence the string is unchanged. *)
Lemma replaceFirst_none pat rep s :
  (∀ i, i ≤ length s → ¬ occurs_at pat s i) → replaceFirst pat rep s = s.
Proof.
  induction s as [|c s IH]; intros Hnone.
  - simpl. specialize (Hnone 0). unfold occurs_at in Hnone. simpl in Hnone.
    by destruct (startsWith [] pat); [destruct Hnone; [lia|]|].
  - rewrite replaceFirst_skip.
    + f_equal. apply IH. intros i Hi. apply (Hnone (S i)). simpl. lia.
    + apply not_true_is_false. apply (Hnone 0). simpl. lia.
Qed.

End replacing.

Section numbers.
Implicit Types (n m : N).

(** Different numbers print differently. *)
Lemma digits_inj n m : digits n = digits m → n = m.
Proof.
  unfold digits. intros H.
  apply (f_equal string_of_list_ascii) in H.
  rewrite !string_of_list_ascii_of_string in H.
  apply (f_equal NilEmpty.uint_of_string) in H.
  rewrite !NilEmpty.usu in H. injection H as H.
  by apply DecimalN.Unsigned.to_uint_inj.
Qed.

(** [roundHundredths] rounds to the nearest hundredth, half up:
    [n - 1/2 <= 100 * num / den < n + 1/2]. *)
Lemma roundHundredths_spec num den :
  (0 < den)%N →
  let n := roundHundredths num den in
  (2 * den * n ≤ 200 * num + den < 2 * den * (n + 1))%N.
Proof.
  intros Hden n. unfold n, roundHundredths.
  nia_div.
Qed.

(** The text of a number of hundredths has a point before its last two
    characters. *)
Lemma printHundredths_point n :
  ∃ a b, printHundredths n = a ++ "." :: b ∧ length b = 2 ∧ a ≠ [].
Proof.
  unfold printHundredths.
  set (m := if decide (length (digits n) ≤ 2) then _ else _).
  assert (3 ≤ length m) as Hm.
  { unfold m. case_decide; [|lia]. rewrite length_app, length_replicate. lia. }
  exists (take (length m - 2) m), (drop (length m - 2) m).
  split; [done|]. rewrite length_drop. split; [lia|].
  intros Hnil%(f_equal length). rewrite length_take in Hnil. simpl in Hnil. lia.
Qed.

End numbers.

(** ** [encodeURIComponent] and extensions *)

Section encode.
Implicit Types (s p q : jsstr) (c x : ascii).

Lemma encodeURIComponent_app s p :
  encodeURIComponent (s ++ p) = encodeURIComponent s ++ encodeURIComponent p.
Proof. apply bind_app. Qed.

Lemma encodeURIComponent_unreserved s :
  Forall (λ c, unreserved c = true) s → encodeURIComponent s = s.
Proof.
  induction 1 as [|c s Hc _ IH]; [done|].
  unfold encodeURIComponent in *. cbn. unfold encodeChar at 1.
  by rewrite Hc, IH.
Qed.

Lemma extChar_unreserved c : extChar (lowerChar c) = true → unreserved c = true.
Proof. by destruct c as [[] [] [] [] [] [] [] []]; vm_compute. Qed.

Lemma extChar_percent : extChar "%" = false.
Proof. done. Qed.

Lemma escapeChar_lower c :
  ∃ h l, toLowerCase (escapeChar c) = ["%"; h; l] ∧ h ≠ "." ∧ l ≠ ".".
Proof.
  destruct c as [[] [] [] [] [] [] [] []];
    do 2 eexists; (split; [vm_compute; reflexivity|]); by split.
Qed.

Lemma encodeChar_reserved c :
  unreserved c = false → encodeChar c = escapeChar c.
Proof. unfold encodeChar. by intros ->. Qed.

(** The reversed text, which the proofs on suffixes go through. *)
Lemma endsWith_reverse s p : endsWith s p = startsWith (reverse s) (reverse p).
Proof. apply bool_decide_ext, suffix_prefix_reverse. Qed.

Lemma encode_snoc s c :
  reverse (toLowerCase (encodeURIComponent (s ++ [c])))
  = reverse (toLowerCase (encodeChar c))
    ++ reverse (toLowerCase (encodeURIComponent s)).
Proof.
  rewrite encodeURIComponent_app, toLowerCase_app, reverse_app.
  do 3 f_equal. unfold encodeURIComponent; cbn. apply app_nil_r.
Qed.

(** No extension ends inside an escape. *)
Lemma escape_no_extension c q t :
  Forall (λ x, extChar x = true) q → last q = Some "." →
  ¬ q `prefix_of` reverse (toLowerCase (escapeChar c)) ++ t.
Proof.
  destruct (escapeChar_lower c) as (h & l & -> & Hh & Hl).
  intros Hq Hlast Hpre. cbn in Hpre.
  destruct q as [|a [|b [|x q]]]; simplify_eq/=.
  - apply prefix_cons_inv_1 in Hpre. congruence.
  - apply prefix_cons_inv_2, prefix_cons_inv_1 in Hpre. congruence.
  - do 2 apply prefix_cons_inv_2 in Hpre. apply prefix_cons_inv_1 in Hpre.
    apply Forall_cons in Hq as [_ Hq]. apply Forall_cons in Hq as [_ Hq].
    apply Forall_cons in Hq as [Hx _]. by subst x.
Qed.

Lemma extension_reverse q s :
  Forall (λ x, extChar x = true) q → (q = [] ∨ last q = Some ".") →
  q `prefix_of` reverse (toLowerCase (encodeURIComponent s))
  ↔ q `prefix_of` reverse (toLowerCase s).
Proof.
  revert s. induction q as [|x q IH]; intros s Hq Hlast.
  { split; intros _; apply prefix_nil. }
  destruct Hlast as [|Hlast]; [done|].
  apply Forall_cons in Hq as [Hx Hq].
  destruct s as [|c s _] using rev_ind.
  { done. }
  rewrite encode_snoc, toLowerCase_app, reverse_app. cbn [toLowerCase fmap list_fmap reverse rev_append app].
  destruct (unreserved c) eqn:Hc.
  - unfold encodeChar. rewrite Hc. cbn.
    assert (q = [] ∨ last q = Some ".") as Hq'.
    { destruct q; [by left|by right]. }
    split; intros Hpre.
    + pose proof (prefix_cons_inv_1 _ _ _ _ Hpre) as ->.
      apply prefix_cons, IH, (prefix_cons_inv_2 _ _ _ _ Hpre); done.
    + pose proof (prefix_cons_inv_1 _ _ _ _ Hpre) as ->.
      apply prefix_cons, IH, (prefix_cons_inv_2 _ _ _ _ Hpre); done.
  - rewrite encodeChar_reserved by done. split; intros Hpre.
    + exfalso. eapply (escape_no_extension c (x :: q)); [by constructor|done|done].
    + pose proof (prefix_cons_inv_1 _ _ _ _ Hpre) as ->.
      apply extChar_unreserved in Hx. congruence.
Qed.

(** Encoding a file name keeps its extension. *)
Lemma endsWith_encodeURIComponent ext s :
  extension ext →
  endsWith (toLowerCase (encodeURIComponent s)) ext
  = endsWith (toLowerCase s) ext.
Proof.
  intros (rest & -> & Hrest). rewrite !endsWith_reverse.
  apply bool_decide_ext, extension_reverse.
  - rewrite reverse_cons. apply Forall_app. split; [by apply Forall_reverse|by repeat constructor].
  - right. rewrite reverse_cons. apply last_snoc.
Qed.
End encode.
