(* ===== verification/FileFilter.v ===== *)
(** * FileFilter: [humanFileSize] and [matchesAccept]

    The two pure helpers at the top of
    [src/src/components/UploadButton.jsx]: the printer of byte counts used
    in the "too large" message and in the preview list, and the filter that
    decides whether a file matches the [accept] prop.  The printer calls
    [Math.log], whose rounding is the host's: the index it computes is the
    operation of a class, [FloatLog], and the properties of the printer
    hold for every host that obeys [FloatLogLaws]. *)

From S2P Require Import Prelude JsString.

#[local] Open Scope char_scope.

(** ** Files *)

(** The fields of a browser [File] that the component reads. *)
Record File := mkFile {
  name : jsstr;
  type : jsstr;
  size : N;
}.

#[export] Instance File_eq_dec : EqDecision File.
Proof. solve_decision. Defined.

(** What the component hands to its [onUpload] callback, and the callback
    to the gateway: one file, or the array of the valid files when
    [multiple] is set. *)
Inductive UploadArg :=
  | OneFile (f : File)
  | ManyFiles (fs : list File).

#[export] Instance UploadArg_eq_dec : EqDecision UploadArg.
Proof. solve_decision. Defined.

(** ** The logarithm of the host

    [humanFileSize] finds its unit with
    [Math.floor(Math.log(bytes) / Math.log(1024))], in double precision.
    What [Math.log] returns is left to the host, so the index is an
    operation of the host, [log1024], and the printer is verified against
    two laws.  With a logarithm that is off by at most one unit in the last
    place, the quotient is off by less than 2^-50 of itself; the logarithm
    of a double is below 710, so the quotient of a size is on the same side
    of an integer [k] as the exact one when the size is further from 1024^k
    than a 2^40th of itself.

    - [log1024_upper]: a size that stays under 1024^(k+1) together with a
      2^40th of itself has an index of at most [k].  Under 2^40 bytes the
      margin is nothing.
    - [log1024_lower]: a size of 1024^k or more has an index of at least
      [k].  Above the margin this is the same bound; at the powers of 1024
      and just above them it says that the host computes the logarithm of
      a power of two well enough for the quotient not to fall under [k],
      which is the case of the logarithm of V8 (fdlibm) and of glibc at
      each of the 103 powers of 1024 a double holds.

    Inside the margin under a power of 1024 the index depends on the host:
    for 2^50 - 1 bytes [Math.log] returns the double it returns for 2^50,
    and the index is 5 where the exact logarithm has 4. *)
Class FloatLog := {
  (** [Math.floor(Math.log(bytes) / Math.log(1024))], for [bytes >= 1] *)
  log1024 : N → N;
}.

Class FloatLogLaws {math : FloatLog} : Prop := {
  log1024_lower bytes k : (1024 ^ k ≤ bytes)%N → (k ≤ log1024 bytes)%N;
  log1024_upper bytes k :
    (bytes + bytes / 2 ^ 40 < 1024 ^ (k + 1))%N → (log1024 bytes ≤ k)%N;
}.

(** The exact index: the floor of the logarithm in base 1024, from the
    position of the leading bit. *)
Definition floorLog1024 (bytes : N) : N := (N.log2 bytes / 10)%N.

(** A host that computes the logarithm without error. *)
Definition exactLog : FloatLog := {| log1024 := floorLog1024 |}.

(** A host with 53 bits: a size that differs from the next power of 1024
    by less than 2^-48 of itself has the logarithm of that power, as
    2^50 - 1 has in double precision. *)
Definition roundingLog : FloatLog := {|
  log1024 bytes :=
    let i := floorLog1024 bytes in
    if (bytes + bytes / 2 ^ 48 <? 1024 ^ (i + 1))%N then i else (i + 1)%N
|}.

(** ** [humanFileSize] *)

(** [const units = ["B", "KB", "MB", "GB", "TB"]] *)
Definition units : list jsstr := [js "B"; js "KB"; js "MB"; js "GB"; js "TB"].

(** [units[i]] inside a template literal: an index past the array prints
    as ["undefined"]. *)
Definition unitAt (i : N) : jsstr := default (js "undefined") (units !! N.to_nat i).

(** [humanFileSize(bytes)] *)
Definition humanFileSize {math : FloatLog} (bytes : N) : jsstr :=
  if (bytes =? 0)%N then js "0 B"
  else
    let i := log1024 bytes in
    toFixed2 bytes (1024 ^ i) ++ js " " ++ unitAt i.

(** ** [matchesAccept] *)

(** [accept.split(",").map((s) => s.trim()).filter(Boolean)] *)
Definition acceptList (accept : jsstr) : list jsstr :=
  filter (λ a, Is_true (truthy a)) (trim <$> splitOn "," accept).

(** One turn of the loop over [acceptList]: whether pattern [a] makes the
    function return [true]. *)
Definition matchesPattern (file : File) (a : jsstr) : bool :=
  if startsWith a (js ".") then
    endsWith (toLowerCase (name file)) (toLowerCase a)
  else if endsWith a (js "/*") then
    let prefix := replaceFirst (js "/*") [] a in
    startsWith (type file) prefix
  else bool_decide (type file = a).

(** The loop [for (const a of acceptList)], which returns at the first
    pattern that matches and [false] after the last. *)
Fixpoint matchesAny (file : File) (patterns : list jsstr) : bool :=
  match patterns with
  | [] => false
  | a :: rest => if matchesPattern file a then true else matchesAny file rest
  end.

(** [matchesAccept(file, accept)] *)
Definition matchesAccept (file : File) (accept : jsstr) : bool :=
  if negb (truthy accept) then true
  else matchesAny file (acceptList accept).

(** ** The exact index *)

Section floor_log.
Implicit Types (bytes i k : N).

Lemma pow1024_pos i : (0 < 1024 ^ i)%N.
Proof. apply N.neq_0_lt_0, N.pow_nonzero. lia. Qed.

(** [floorLog1024] is the floor of the logarithm in base 1024. *)
Lemma floorLog1024_spec bytes :
  (0 < bytes)%N →
  (1024 ^ floorLog1024 bytes ≤ bytes < 1024 ^ (floorLog1024 bytes + 1))%N.
Proof.
  intros Hpos. unfold floorLog1024.
  destruct (N.log2_spec bytes Hpos) as [Hlo Hhi].
  assert (10 * (N.log2 bytes / 10) ≤ N.log2 bytes
          ∧ N.succ (N.log2 bytes) ≤ 10 * (N.log2 bytes / 10 + 1))%N as [H1 H2].
  { lia_div. }
  change 1024%N with (2 ^ 10)%N. rewrite <-!N.pow_mul_r. split.
  - etrans; [|exact Hlo]. by apply N.pow_le_mono_r.
  - eapply N.lt_le_trans; [exact Hhi|]. by apply N.pow_le_mono_r.
Qed.

(** Powers of 1024 compare as their exponents do. *)
Lemma pow1024_lt_inv i k : (1024 ^ i < 1024 ^ (k + 1))%N → (i ≤ k)%N.
Proof.
  intros Hlt. apply N.lt_succ_r, N.nle_gt. intros Hle.
  assert (1024 ^ (k + 1) ≤ 1024 ^ i)%N by (apply N.pow_le_mono_r; lia). lia.
Qed.

(** The exact index is determined by the magnitude. *)
Lemma floorLog1024_unique bytes i :
  (1024 ^ i ≤ bytes < 1024 ^ (i + 1))%N → floorLog1024 bytes = i.
Proof.
  intros [Hlo Hhi].
  assert (0 < bytes)%N as Hpos.
  { eapply N.lt_le_trans; [|exact Hlo]. apply pow1024_pos. }
  destruct (floorLog1024_spec bytes Hpos) as [Hlo' Hhi'].
  apply N.le_antisymm; apply pow1024_lt_inv; lia.
Qed.

(** The margin of the second law is nothing under 2^40 bytes. *)
Lemma margin_small bytes : (bytes < 1024 ^ 4)%N → (bytes / 2 ^ 40 = 0)%N.
Proof. intros H. apply N.div_small. exact H. Qed.

End floor_log.

(** ** The two hosts obey the laws *)

Lemma exactLog_laws : @FloatLogLaws exactLog.
Proof.
  split; simpl; intros bytes k H.
  - assert (0 < bytes)%N as Hpos by (pose proof (pow1024_pos k); lia).
    destruct (floorLog1024_spec bytes Hpos). apply pow1024_lt_inv. lia.
  - destruct (N.eq_dec bytes 0%N) as [->|Hne]; [apply N.le_0_l|].
    destruct (floorLog1024_spec bytes) as [Hlo _]; [lia|].
    apply pow1024_lt_inv. revert H. generalize (bytes / 2 ^ 40)%N. lia.
Qed.

Lemma roundingLog_laws : @FloatLogLaws roundingLog.
Proof.
  split; simpl; intros bytes k H.
  - pose proof (log1024_lower (FloatLogLaws := exactLog_laws) bytes k H) as Hk.
    simpl in Hk. case_match; lia.
  - pose proof (log1024_upper (FloatLogLaws := exactLog_laws) bytes k H) as Hk.
    simpl in Hk. case_match eqn:E; [done|]. apply N.ltb_ge in E.
    destruct (N.eq_dec (floorLog1024 bytes) k) as [Heq|Hne]; [|lia].
    rewrite Heq in E.
    assert (bytes / 2 ^ 48 ≤ bytes / 2 ^ 40)%N; [|lia].
    apply N.div_le_compat_l. split; [done|]. by apply N.pow_le_mono_r.
Qed.

(** ** The size printer, on every host *)

Section human_file_size.
Context {math : FloatLog} {laws : FloatLogLaws}.
Implicit Types (bytes i k : N).

(** The index of the host is the exact one, or the next. *)
Lemma log1024_bounds bytes :
  (0 < bytes)%N →
  (floorLog1024 bytes ≤ log1024 bytes ≤ floorLog1024 bytes + 1)%N.
Proof.
  intros Hpos. destruct (floorLog1024_spec bytes Hpos) as [Hlo Hhi]. split.
  - by apply log1024_lower.
  - apply log1024_upper.
    rewrite (N.pow_add_r _ (_ + 1) 1), N.pow_1_r.
    pose proof (N.Div0.div_le_upper_bound bytes (2 ^ 40) bytes) as Hdiv.
    assert (bytes / 2 ^ 40 ≤ bytes)%N by (apply Hdiv; lia). lia.
Qed.

(** Away from the next power of 1024 the index is the exact one. *)
Lemma log1024_exact bytes :
  (0 < bytes)%N →
  (bytes + bytes / 2 ^ 40 < 1024 ^ (floorLog1024 bytes + 1))%N →
  log1024 bytes = floorLog1024 bytes.
Proof.
  intros Hpos Hfar. apply N.le_antisymm.
  - by apply log1024_upper.
  - by apply log1024_bounds.
Qed.

(** Under 2^40 bytes every host agrees. *)
Lemma log1024_small bytes :
  (0 < bytes < 1024 ^ 4)%N → log1024 bytes = floorLog1024 bytes.
Proof.
  intros [Hpos Hlt]. apply log1024_exact; [done|].
  rewrite margin_small by done.
  destruct (floorLog1024_spec bytes Hpos). lia.
Qed.

(** Under 1024^5 bytes, with the margin, the index is the exact one and
    stays inside the array of units. *)
Lemma log1024_unit bytes :
  (0 < bytes)%N → (bytes + bytes / 2 ^ 40 < 1024 ^ 5)%N →
  log1024 bytes = floorLog1024 bytes ∧ (floorLog1024 bytes < 5)%N.
Proof.
  intros Hpos Hfar. destruct (floorLog1024_spec bytes Hpos) as [Hlo Hhi].
  assert (floorLog1024 bytes ≤ 4)%N as Hi.
  { apply pow1024_lt_inv. change (4 + 1)%N with 5%N.
    revert Hfar. generalize (bytes / 2 ^ 40)%N. lia. }
  split; [|lia]. apply log1024_exact; [done|].
  destruct (N.eq_dec (floorLog1024 bytes) 4%N) as [->|Hne]; [done|].
  rewrite margin_small; [lia|].
  eapply N.lt_le_trans; [exact Hhi|]. apply N.pow_le_mono_r; lia.
Qed.

Lemma humanFileSize_zero : humanFileSize 0 = js "0 B".
Proof. done. Qed.

Lemma humanFileSize_pos bytes :
  (0 < bytes)%N →
  humanFileSize bytes
  = toFixed2 bytes (1024 ^ log1024 bytes) ++ js " " ++ unitAt (log1024 bytes).
Proof. intros Hpos. unfold humanFileSize. by rewrite (proj2 (N.eqb_neq _ _)) by lia. Qed.

(** The text is the one of the exact index, or, inside the margin under
    the next power of 1024, the one of the next index. *)
Lemma humanFileSize_cases bytes :
  (0 < bytes)%N →
  let i := floorLog1024 bytes in
  humanFileSize bytes = toFixed2 bytes (1024 ^ i) ++ js " " ++ unitAt i
  ∨ (1024 ^ (i + 1) ≤ bytes + bytes / 2 ^ 40)%N
    ∧ humanFileSize bytes
      = toFixed2 bytes (1024 ^ (i + 1)) ++ js " " ++ unitAt (i + 1).
Proof.
  intros Hpos i. rewrite humanFileSize_pos by done.
  destruct (log1024_bounds bytes Hpos) as [Hlo Hhi]. fold i in Hlo, Hhi.
  destruct (N.eq_dec (log1024 bytes) i) as [->|Hne]; [by left|right].
  assert (log1024 bytes = i + 1)%N as Hi by lia. rewrite Hi. split; [|done].
  apply N.le_ngt. intros Hfar. apply (log1024_upper bytes i) in Hfar. lia.
Qed.

(** The divisor is not far above the size, and more than a 1024th of it. *)
Lemma log1024_divisor bytes :
  (0 < bytes)%N →
  (1024 ^ log1024 bytes ≤ bytes + bytes / 2 ^ 40
   ∧ bytes < 1024 * 1024 ^ log1024 bytes)%N.
Proof.
  intros Hpos. split.
  - destruct (N.eq_dec (log1024 bytes) 0%N) as [->|Hne].
    { rewrite N.pow_0_r. generalize (bytes / 2 ^ 40)%N. lia. }
    apply N.le_ngt. intros Hlt.
    pose proof (log1024_upper bytes (log1024 bytes - 1)) as Hup.
    rewrite N.sub_add in Hup by lia. specialize (Hup Hlt). lia.
  - apply N.lt_nge. intros Hge.
    pose proof (log1024_lower bytes (log1024 bytes + 1)) as Hlow.
    rewrite N.pow_add_r, N.pow_1_r in Hlow. lia.
Qed.

(** The number printed before the unit lies between 1.00 and 1024.00, on
    the sizes within the margin too. *)
Lemma humanFileSize_mantissa bytes :
  (0 < bytes)%N →
  (100 ≤ roundHundredths bytes (1024 ^ log1024 bytes) ≤ 102400)%N.
Proof.
  intros Hpos. destruct (log1024_divisor bytes Hpos) as [Hlo Hhi].
  pose proof (pow1024_pos (log1024 bytes)) as Hd.
  pose proof (roundHundredths_spec bytes _ Hd) as [H1 H2]. simpl in *.
  assert (2 ^ 40 * (bytes / 2 ^ 40) ≤ bytes)%N as Hm by (apply N.Div0.mul_div_le).
  revert Hlo Hhi Hd H1 H2 Hm.
  generalize (roundHundredths bytes (1024 ^ log1024 bytes)) (1024 ^ log1024 bytes)%N
    (bytes / 2 ^ 40)%N.
  intros n d m ??????. change (2 ^ 40)%N with 1099511627776%N in *. split; nia.
Qed.

End human_file_size.

(** ** The accept filter *)

Section matches_accept.
Implicit Types (file : File) (a p accept : jsstr) (patterns : list jsstr).

(** The loop returns [true] exactly when some pattern of the list matches:
    the patterns are alternatives. *)
Lemma matchesAny_true file patterns :
  matchesAny file patterns = true
  ↔ ∃ a, a ∈ patterns ∧ matchesPattern file a = true.
Proof.
  induction patterns as [|a rest IH]; simpl.
  - split; [done|]. by intros (a & ?%elem_of_nil & _).
  - destruct (matchesPattern file a) eqn:E.
    + split; [|done]. intros _. exists a. split; [left|done].
    + rewrite IH. split.
      * intros (b & Hb & Hm). exists b. split; [by right|done].
      * intros (b & [->|Hb]%elem_of_cons & Hm); [congruence|by exists b].
Qed.

Lemma matchesAny_false file patterns :
  matchesAny file patterns = false
  ↔ ∀ a, a ∈ patterns → matchesPattern file a = false.
Proof.
  rewrite <-not_true_iff_false, matchesAny_true. split.
  - intros Hn a Ha. apply not_true_iff_false. intros Hm. apply Hn. by exists a.
  - intros Hall (a & Ha & Hm). rewrite (Hall a Ha) in Hm. done.
Qed.

(** The order of the patterns and their repetitions do not matter. *)
#[export] Instance matchesAny_proper file :
  Proper ((≡ₚ) ==> (=)) (matchesAny file).
Proof.
  intros l1 l2 Hperm.
  destruct (matchesAny file l2) eqn:E2.
  - apply matchesAny_true. apply matchesAny_true in E2 as (a & Ha & Hm).
    exists a. by rewrite Hperm.
  - apply matchesAny_false. intros a Ha.
    apply (proj1 (matchesAny_false _ _) E2). by rewrite <-Hperm.
Qed.

(** More patterns accept more files. *)
Lemma matchesAny_mono file patterns patterns' :
  patterns ⊆ patterns' →
  matchesAny file patterns = true → matchesAny file patterns' = true.
Proof.
  rewrite !matchesAny_true. intros Hsub (a & Ha & Hm). exists a. split; [|done].
  by apply Hsub.
Qed.

(** The patterns of an accept specification: the comma-separated pieces,
    trimmed, the empty ones dropped. *)
Lemma elem_of_acceptList a accept :
  a ∈ acceptList accept
  ↔ a ≠ [] ∧ ∃ seg, seg ∈ splitOn "," accept ∧ a = trim seg.
Proof.
  unfold acceptList, truthy. rewrite list_elem_of_filter, list_elem_of_fmap.
  rewrite bool_decide_spec. split.
  - intros [Hne (seg & -> & Hseg)]. split; [done|]. by exists seg.
  - intros [Hne (seg & Hseg & ->)]. split; [done|]. by exists seg.
Qed.

(** A pattern that starts with a dot is compared with the end of the file
    name, in lower case on both sides. *)
Lemma matchesPattern_extension file a :
  startsWith a (js ".") = true →
  matchesPattern file a = endsWith (toLowerCase (name file)) (toLowerCase a).
Proof. intros H. unfold matchesPattern. by rewrite H. Qed.

(** A slash followed by a star does not occur inside text without a
    slash. *)
Lemma wildcard_first p :
  "/" ∉ p → ∀ i, i < length p → ¬ occurs_at (js "/*") (p ++ js "/*") i.
Proof.
  intros Hp i Hi [k Hk]%startsWith_true.
  apply Hp. apply list_elem_of_lookup. exists i.
  rewrite <-(lookup_app_l p (js "/*")) by done.
  rewrite <-(Nat.add_0_r i), <-lookup_drop, Hk. done.
Qed.

(** A pattern [p/*], with [p] free of slashes, accepts the types that
    start with [p]. *)
Lemma matchesPattern_wildcard file p :
  "/" ∉ p → startsWith p (js ".") = false →
  matchesPattern file (p ++ js "/*") = startsWith (type file) p.
Proof.
  intros Hp Hdot. unfold matchesPattern.
  assert (startsWith (p ++ js "/*") (js ".") = false) as ->.
  { destruct p as [|c p]; [done|].
    rewrite startsWith_take in *. simpl in *. done. }
  rewrite endsWith_app.
  pose proof (replaceFirst_first (js "/*") [] p [] (wildcard_first p Hp)) as Hr.
  rewrite !app_nil_r in Hr. by rewrite Hr.
Qed.

(** Any other pattern is compared with the type as a whole. *)
Lemma matchesPattern_exact file a :
  startsWith a (js ".") = false → endsWith a (js "/*") = false →
  matchesPattern file a = bool_decide (type file = a).
Proof. intros H1 H2. unfold matchesPattern. by rewrite H1, H2. Qed.

Lemma matchesAccept_empty file : matchesAccept file [] = true.
Proof. done. Qed.

Lemma matchesAccept_nonempty file accept :
  accept ≠ [] → matchesAccept file accept = matchesAny file (acceptList accept).
Proof. intros H. unfold matchesAccept, truthy. by rewrite bool_decide_true. Qed.

(** The empty specification accepts; any other accepts by one of its
    patterns. *)
Lemma matchesAccept_patterns file accept :
  matchesAccept file accept = true
  ↔ accept = [] ∨ ∃ a, a ∈ acceptList accept ∧ matchesPattern file a = true.
Proof.
  destruct accept as [|c accept].
  - split; [by left|done].
  - rewrite matchesAccept_nonempty, matchesAny_true by done. split; [by right|].
    by intros [?|?].
Qed.

End matches_accept.

(** ** Properties *)

(** C13: [matchesAccept] accepts a file exactly when the accept
    specification is the empty string or at least one of its patterns
    matches the file, the patterns being the pieces between the commas,
    trimmed, the empty ones dropped; when no pattern matches, the file is
    rejected. *)
Theorem matchesAccept_spec (file : File) (accept : jsstr) :
  matchesAccept file accept = true
  ↔ accept = []
    ∨ ∃ seg, seg ∈ splitOn "," accept ∧ trim seg ≠ []
             ∧ matchesPattern file (trim seg) = true.
Proof.
  rewrite matchesAccept_patterns. split; (intros [?|H]; [by left|right]).
  - destruct H as (a & (Hne & seg & Hseg & ->)%elem_of_acceptList & Hm).
    by exists seg.
  - destruct H as (seg & Hseg & Hne & Hm). exists (trim seg).
    split; [|done]. apply elem_of_acceptList. split; [done|]. by exists seg.
Qed.

(** C36: an extension pattern is compared without regard to case: when a
    pattern of the accept specification starts with a dot and the file name
    ends with it once both are in lower case, the file is accepted. *)
Theorem matchesAccept_extension (file : File) (accept ext : jsstr) :
  ext ∈ acceptList accept →
  startsWith ext (js ".") = true →
  endsWith (toLowerCase (name file)) (toLowerCase ext) = true →
  matchesAccept file accept = true.
Proof.
  intros Hin Hdot Hends. apply matchesAccept_patterns. right. exists ext.
  split; [done|]. by rewrite matchesPattern_extension.
Qed.

(** The example of the specification: [doc.PDF] against [.pdf,.txt]. *)
Lemma matchesAccept_extension_witness :
  matchesAccept (mkFile (js "doc.PDF") (js "application/pdf") 2048)
                (js ".pdf,.txt") = true.
Proof.
  apply (matchesAccept_extension _ _ (js ".pdf")); [compute_done|done|done].
Defined.

(** C37: a wildcard pattern is compared with the start of the type and the
    slash is not part of the comparison: [image/*] accepts every type that
    starts with the letters [image], whatever follows them. *)
Theorem matchesAccept_wildcard_ignores_slash (n rest : jsstr) (sz : N) :
  matchesAccept (mkFile n (js "image" ++ rest) sz) (js "image/*") = true.
Proof.
  apply matchesAccept_patterns. right. exists (js "image/*"). split; [compute_done|].
  change (js "image/*") with (js "image" ++ js "/*").
  rewrite matchesPattern_wildcard by (done || compute_done).
  apply startsWith_app.
Qed.

(** An accept specification that holds no pattern, such as a blank
    string or a lone comma, is not empty and rejects every file. *)
Theorem matchesAccept_no_pattern (file : File) (accept : jsstr) :
  accept ≠ [] → acceptList accept = [] → matchesAccept file accept = false.
Proof. intros Hne Hnil. by rewrite matchesAccept_nonempty, Hnil. Qed.

Lemma matchesAccept_no_pattern_witness :
  matchesAccept (mkFile (js "a.png") (js "image/png") 500) (js " , ") = false.
Proof. apply matchesAccept_no_pattern; done. Defined.

Section size_properties.
Context {math : FloatLog} {laws : FloatLogLaws}.

(** C38: below 1024^5 bytes, with the margin inside which the rounding of
    [Math.log] decides (a 2^40th of the size, nothing under 2^40 bytes),
    the unit printed by [humanFileSize] is one of B, KB, MB, GB, TB, the one
    whose power of 1024 is the largest that does not exceed the size, on
    every host. *)
Theorem humanFileSize_unit (bytes : N) :
  (0 < bytes)%N → (bytes + bytes / 2 ^ 40 < 1024 ^ 5)%N →
  ∃ i u, units !! i = Some u
         ∧ (1024 ^ N.of_nat i ≤ bytes < 1024 ^ (N.of_nat i + 1))%N
         ∧ humanFileSize bytes = toFixed2 bytes (1024 ^ N.of_nat i) ++ js " " ++ u.
Proof.
  intros Hpos Hfar. destruct (log1024_unit bytes Hpos Hfar) as [Hi Hlt].
  rewrite humanFileSize_pos, Hi by done. unfold unitAt.
  destruct (lookup_lt_is_Some_2 units (N.to_nat (floorLog1024 bytes))) as [u Hu].
  { simpl. lia. }
  exists (N.to_nat (floorLog1024 bytes)), u. rewrite N2Nat.id, Hu.
  split_and!; [done|by apply floorLog1024_spec..|done].
Qed.

(** C39: from 1024^5 bytes on, the index runs past the array of units and
    the text ends with the word [undefined] where the unit should be. *)
Theorem humanFileSize_unit_undefined (bytes : N) :
  (1024 ^ 5 ≤ bytes)%N →
  humanFileSize bytes
  = toFixed2 bytes (1024 ^ log1024 bytes) ++ js " undefined".
Proof.
  intros Hge.
  assert (0 < bytes)%N as Hpos by (pose proof (pow1024_pos 5); lia).
  pose proof (log1024_lower bytes 5 Hge) as Hi.
  rewrite humanFileSize_pos by done. unfold unitAt.
  rewrite lookup_ge_None_2; [done|]. simpl. lia.
Qed.

(** The number [humanFileSize] prints before the unit is the size
    divided by the unit, rounded to the nearest hundredth, and lies between
    1.00 and 1024.00. *)
Theorem humanFileSize_mantissa_bounds (bytes : N) :
  (0 < bytes)%N →
  let d := (1024 ^ log1024 bytes)%N in
  let n := roundHundredths bytes d in
  (2 * d * n ≤ 200 * bytes + d < 2 * d * (n + 1))%N ∧ (100 ≤ n ≤ 102400)%N.
Proof.
  intros Hpos d n. split.
  - apply roundHundredths_spec, pow1024_pos.
  - by apply humanFileSize_mantissa.
Qed.

(** Under 2^40 bytes the text does not depend on the host. *)
Lemma humanFileSize_small (bytes : N) :
  (bytes < 1024 ^ 4)%N → humanFileSize bytes = humanFileSize (math := exactLog) bytes.
Proof.
  intros Hlt. destruct (N.eq_dec bytes 0%N) as [->|Hne]; [done|].
  rewrite !humanFileSize_pos by lia. simpl. by rewrite log1024_small by lia.
Qed.

End size_properties.

(** C40: on every host the text [humanFileSize] prints is the one of the
    exact logarithm, or, for a size within a 2^40th of itself under the
    next power of 1024, the one of the next index; which of the two is not
    determined by what a host guarantees of [Math.log]: for 2^50 - 1 bytes a
    host without rounding prints 1024.00 TB, and a host of 53 bits, for
    which the logarithm of that size is the logarithm of 2^50, prints the
    word [undefined] as the unit; both hosts obey the laws. *)
Theorem humanFileSize_rounding :
  (∀ (math : FloatLog), FloatLogLaws → ∀ bytes : N, (0 < bytes)%N →
     let i := floorLog1024 bytes in
     humanFileSize bytes = toFixed2 bytes (1024 ^ i) ++ js " " ++ unitAt i
     ∨ (1024 ^ (i + 1) ≤ bytes + bytes / 2 ^ 40)%N
       ∧ humanFileSize bytes
         = toFixed2 bytes (1024 ^ (i + 1)) ++ js " " ++ unitAt (i + 1))
  ∧ @FloatLogLaws exactLog ∧ @FloatLogLaws roundingLog
  ∧ humanFileSize (math := exactLog) (2 ^ 50 - 1) = js "1024.00 TB"
  ∧ humanFileSize (math := roundingLog) (2 ^ 50 - 1) = js "1.00 undefined".
Proof.
  split_and!; [|exact exactLog_laws|exact roundingLog_laws|by vm_compute..].
  intros math laws bytes Hpos. by apply humanFileSize_cases.
Qed.

(** The largest size the theorem speaks of, on the host that rounds. *)
Lemma humanFileSize_unit_witness :
  ∃ i u, units !! i = Some u
         ∧ (1024 ^ N.of_nat i ≤ 2 ^ 50 - 1025 < 1024 ^ (N.of_nat i + 1))%N
         ∧ humanFileSize (math := roundingLog) (2 ^ 50 - 1025)
           = toFixed2 (2 ^ 50 - 1025) (1024 ^ N.of_nat i) ++ js " " ++ u.
Proof.
  apply (humanFileSize_unit (laws := roundingLog_laws) (2 ^ 50 - 1025));
    by vm_compute.
Defined.

Lemma humanFileSize_unit_undefined_witness :
  humanFileSize (math := exactLog) (1024 ^ 5) = js "1.00 undefined".
Proof.
  rewrite (humanFileSize_unit_undefined (laws := exactLog_laws) (1024 ^ 5));
    done.
Defined.

Lemma humanFileSize_mantissa_bounds_witness :
  let d := (1024 ^ log1024 (FloatLog := roundingLog) (2 ^ 50 - 1))%N in
  let n := roundHundredths (2 ^ 50 - 1) d in
  (2 * d * n ≤ 200 * (2 ^ 50 - 1) + d < 2 * d * (n + 1))%N ∧ (100 ≤ n ≤ 102400)%N.
Proof.
  apply (humanFileSize_mantissa_bounds (laws := roundingLog_laws) (2 ^ 50 - 1)).
  done.
Defined.

(** Concrete sizes, evaluated; under 2^40 bytes they are the same on every
    host. *)
Example humanFileSize_examples {math : FloatLog} {laws : FloatLogLaws} :
  humanFileSize 500 = js "500.00 B"
  ∧ humanFileSize 1536 = js "1.50 KB"
  ∧ humanFileSize 1048576 = js "1.00 MB"
  ∧ humanFileSize 1048575 = js "1024.00 KB"
  ∧ humanFileSize 5 = js "5.00 B".
Proof. rewrite !(humanFileSize_small (math := math)) by done. by vm_compute. Qed.
