(* ===== verification/ObjectUrl.v ===== *)
(** * ObjectUrl: the browser's registry of blob URLs

    [URL.createObjectURL] and [URL.revokeObjectURL] are the only browser
    calls of the sources that own a resource: a URL stays registered, and
    keeps its blob alive, until it is revoked.  The component that calls
    them is verified against the interface of this file, not against one
    browser: [UrlRegistry] names the operations, [UrlRegistryLaws] states
    what a client may assume of them, and [Browser] is an implementation
    that computes, so that concrete runs can be evaluated. *)

From stdpp Require Import gmap.
From S2P Require Import Prelude.

(** A blob URL, as an opaque handle. *)
Abbreviation blobUrl := nat (only parsing).

(** The operations of a registry [R] of URLs for blobs of type [B]. *)
Class UrlRegistry (B R : Type) := {
  (** the blob a URL resolves to, [None] for a URL that is not registered *)
  resolveUrl : blobUrl → R → option B;
  (** the URLs that are registered *)
  liveUrls : R → gset blobUrl;
  (** the arguments of every call of [revokeObjectURL] so far, in order *)
  revocations : R → list blobUrl;
  (** [URL.createObjectURL(blob)] *)
  createObjectURL : B → R → blobUrl * R;
  (** [URL.revokeObjectURL(url)] *)
  revokeObjectURL : blobUrl → R → R;
}.

(** What a client may assume: a created URL is new and resolves to its
    blob, revoking unregisters one URL, and neither touches another URL. *)
Class UrlRegistryLaws (B R : Type) `{UrlRegistry B R} : Prop := {
  live_resolve u r : u ∈ liveUrls r ↔ is_Some (resolveUrl u r);
  create_fresh b r : (createObjectURL b r).1 ∉ liveUrls r;
  create_resolve b r u :
    resolveUrl u (createObjectURL b r).2
    = if decide (u = (createObjectURL b r).1) then Some b else resolveUrl u r;
  create_revocations b r :
    revocations (createObjectURL b r).2 = revocations r;
  revoke_resolve v r u :
    resolveUrl u (revokeObjectURL v r)
    = if decide (u = v) then None else resolveUrl u r;
  revoke_revocations v r :
    revocations (revokeObjectURL v r) = revocations r ++ [v];
}.

(** ** An implementation *)

(** A registry as a finite map from URLs to blobs and the log of
    revocations.  A new URL is the least number that is neither registered
    nor was ever revoked. *)
Record Browser (B : Type) := mkBrowser {
  blobs : gmap nat B;
  revoked : list nat;
}.
Arguments mkBrowser {B} _ _.
Arguments blobs {B} _.
Arguments revoked {B} _.

Definition browser_empty {B} : Browser B := mkBrowser ∅ [].

Definition browser_next {B} (r : Browser B) : nat :=
  fresh (dom (blobs r) ∪ list_to_set (revoked r) : gset nat).

#[export] Instance browser_registry B : UrlRegistry B (Browser B) := {
  resolveUrl u r := blobs r !! u;
  liveUrls r := dom (blobs r);
  revocations r := revoked r;
  createObjectURL b r :=
    let u := browser_next r in (u, mkBrowser (<[u := b]> (blobs r)) (revoked r));
  revokeObjectURL u r := mkBrowser (delete u (blobs r)) (revoked r ++ [u]);
}.

(** ** Consequences of the laws *)

Section laws.
Context {B R : Type} {registry : UrlRegistry B R} {laws : UrlRegistryLaws B R}.
Implicit Types (r : R) (b : B) (u v : blobUrl).

Lemma create_live b r :
  liveUrls (createObjectURL b r).2 = {[ (createObjectURL b r).1 ]} ∪ liveUrls r.
Proof.
  apply set_eq. intros u.
  rewrite elem_of_union, elem_of_singleton, !live_resolve, create_resolve.
  case_decide as Hu; split.
  - by left.
  - by eexists.
  - by right.
  - by intros [?|?].
Qed.

Lemma revoke_live v r : liveUrls (revokeObjectURL v r) = liveUrls r ∖ {[ v ]}.
Proof.
  apply set_eq. intros u.
  rewrite elem_of_difference, elem_of_singleton, !live_resolve, revoke_resolve.
  case_decide as Hu; split.
  - by intros [].
  - by intros [_ []].
  - done.
  - by intros [? _].
Qed.

(** The new URL resolves to the blob it was created for. *)
Lemma create_resolve_new b r :
  resolveUrl (createObjectURL b r).1 (createObjectURL b r).2 = Some b.
Proof. rewrite create_resolve. by rewrite decide_True. Qed.

(** The URLs registered before still resolve as they did. *)
Lemma create_resolve_old b r u :
  u ∈ liveUrls r → resolveUrl u (createObjectURL b r).2 = resolveUrl u r.
Proof.
  intros Hu. rewrite create_resolve. rewrite decide_False; [done|].
  intros ->. by apply (create_fresh b r).
Qed.

End laws.

(** The implementation satisfies the laws. *)
#[export] Instance browser_laws B : UrlRegistryLaws B (Browser B).
Proof.
  split; simpl.
  - intros u r. apply elem_of_dom.
  - intros b r. unfold browser_next.
    pose proof (is_fresh (dom (blobs r) ∪ list_to_set (revoked r) : gset nat)).
    set_solver.
  - intros b r u. case_decide as Hu.
    + rewrite Hu. apply lookup_insert_eq.
    + by rewrite lookup_insert_ne.
  - done.
  - intros v r u. case_decide as Hu.
    + rewrite Hu. apply lookup_delete_eq.
    + by rewrite lookup_delete_ne.
  - done.
Qed.
