(* ===== verification/Upload.v ===== *)
(** * Upload: the [UploadButton] component

    [src/src/components/UploadButton.jsx], lines 29 to 214.  The props and
    the [useState] cells are records, every handler is a function from the
    state (and the URL registry, for the handlers that create or revoke
    preview URLs) to the new state and the effects it had on the outside:
    the call of [onUpload] and the click on the hidden input.

    The file holds, in this order: the data, the handlers, the view, the
    ownership invariant and the staging contract of the specification; then
    the lemmas on each handler, the invariants over every run of the
    component, and the refinement of the contract. *)

From stdpp Require Import gmap.
From S2P Require Import Prelude JsString FileFilter ObjectUrl.

#[local] Open Scope char_scope.

(** ** Data *)

(** An element of the [selected] array: [{ file, previewUrl }], with
    [previewUrl] either a blob URL or [null]. *)
Record Selected := mkSelected {
  file : File;
  previewUrl : option blobUrl;
}.

#[export] Instance Selected_eq_dec : EqDecision Selected.
Proof. solve_decision. Defined.

(** The props the handlers read.  [maxSize] is a count of bytes, [None]
    for the default [Infinity]; [onUpload] says whether the callback prop is
    there (it is required, and every call of it is guarded by
    [onUpload &&]). *)
Record Props := mkProps {
  onUpload : bool;
  multiple : bool;
  accept : jsstr;
  maxSize : option N;
  showPreviews : bool;
  disabled : bool;
}.

(** The defaults of the parameter list, with [onUpload] given. *)
Definition defaultProps : Props := mkProps true false [] None true false.

(** The state cells: [dragActive], [selected], [errors], and the value of
    the hidden input behind [inputRef] ([None] while the ref is [null]). *)
Record State := mkState {
  dragActive : bool;
  selected : list Selected;
  errors : list jsstr;
  inputValue : option jsstr;
}.

(** The state after the first render. *)
Definition initialState : State := mkState false [] [] (Some []).

(** What a handler does to the outside. *)
Inductive Effect :=
  | CallOnUpload (arg : UploadArg)
  | ClickInput.

(** ** Validation: the [forEach] of [handleFiles] *)

Section checks.
Context {math : FloatLog}.

Definition unsupportedMessage (f : File) : jsstr :=
  name f ++ js ": unsupported file type".

Definition tooLargeMessage (f : File) (limit : N) : jsstr :=
  name f ++ js ": too large (" ++ humanFileSize (size f) ++ js " > "
         ++ humanFileSize limit ++ js ")".

(** The body of [filesArray.forEach]: one file is pushed onto [errs], with
    its message, or onto [validFiles]. *)
Definition checkFile (p : Props) (acc : list File * list jsstr) (f : File)
    : list File * list jsstr :=
  let '(validFiles, errs) := acc in
  if negb (matchesAccept f (accept p)) then
    (validFiles, errs ++ [unsupportedMessage f])
  else
    match maxSize p with
    | Some limit =>
        if (limit <? size f)%N then (validFiles, errs ++ [tooLargeMessage f limit])
        else (validFiles ++ [f], errs)
    | None => (validFiles ++ [f], errs)
    end.

(** The loop, from the two empty arrays. *)
Definition checkFiles (p : Props) (filesArray : list File)
    : list File * list jsstr :=
  foldl (checkFile p) ([], []) filesArray.

(** The reference for the loop: what is wrong with one file, if anything. *)
Definition verdict (p : Props) (f : File) : option jsstr :=
  if negb (matchesAccept f (accept p)) then Some (unsupportedMessage f)
  else
    match maxSize p with
    | Some limit =>
        if (limit <? size f)%N then Some (tooLargeMessage f limit) else None
    | None => None
    end.

(** The files without a verdict, and the verdicts, in the order of the
    input. *)
Definition validFiles (p : Props) (files : list File) : list File :=
  filter (λ f, verdict p f = None) files.

Definition rejections (p : Props) (files : list File) : list jsstr :=
  omap (verdict p) files.

End checks.

(** The preview URLs of a selection, in order. *)
Definition previewUrls (sel : list Selected) : list blobUrl :=
  omap previewUrl sel.

(** [onUpload && onUpload(...)] under [validFiles.length > 0]. *)
Definition notify (p : Props) (validFiles : list File) : list Effect :=
  match validFiles with
  | [] => []
  | f :: _ =>
      if onUpload p then
        [CallOnUpload (if multiple p then ManyFiles validFiles else OneFile f)]
      else []
  end.

(** ** The handlers that use the URL registry *)

Section handlers.
Context {math : FloatLog} {R : Type} {registry : UrlRegistry File R}.

(** [if (s.previewUrl) URL.revokeObjectURL(s.previewUrl)] *)
Definition revokePreview (r : R) (s : Selected) : R :=
  match previewUrl s with
  | Some u => revokeObjectURL u r
  | None => r
  end.

(** [selected.forEach(...)]: revoke the preview URLs of a selection. *)
Definition revokePreviews (sel : list Selected) (r : R) : R :=
  foldl revokePreview r sel.

(** [clearSelection] *)
Definition clearSelection (st : State) (r : R) : State * R :=
  let r' := revokePreviews (selected st) r in
  (mkState (dragActive st) [] [] (const [] <$> inputValue st), r').

(** The body of [validFiles.map]: one preview item, with a new URL when
    previews are shown and the file is an image. *)
Definition makePreview (show : bool) (f : File) (r : R) : Selected * R :=
  if show && startsWith (type f) (js "image/") then
    let '(u, r') := createObjectURL f r in (mkSelected f (Some u), r')
  else (mkSelected f None, r).

(** [validFiles.map(...)], the registry threaded from left to right. *)
Fixpoint makePreviews (show : bool) (fs : list File) (r : R)
    : list Selected * R :=
  match fs with
  | [] => ([], r)
  | f :: fs' =>
      let '(s, r1) := makePreview show f r in
      let '(ss, r2) := makePreviews show fs' r1 in
      (s :: ss, r2)
  end.

(** [handleFiles(fileList)] *)
Definition handleFiles (p : Props) (fileList : option (list File))
    (st : State) (r : R) : State * R * list Effect :=
  match fileList with
  | None | Some [] => (st, r, [])
  | Some filesArray =>
      let '(validFiles, errs) := checkFiles p filesArray in
      let '(previewItems, r1) := makePreviews (showPreviews p) validFiles r in
      let finalSelection :=
        if multiple p then previewItems else take 1 previewItems in
      let r2 := revokePreviews (selected st) r1 in
      (mkState (dragActive st) finalSelection errs (inputValue st), r2,
       notify p validFiles)
  end.

(** [onInputChange]: [handleFiles(e.target.files)] *)
Definition onInputChange (p : Props) (files : option (list File))
    (st : State) (r : R) : State * R * list Effect :=
  handleFiles p files st r.

(** [onDrop]: the drag highlight goes, and unless the component is
    disabled the dropped files are handled. *)
Definition onDrop (p : Props) (files : option (list File))
    (st : State) (r : R) : State * R * list Effect :=
  let st1 := mkState false (selected st) (errors st) (inputValue st) in
  if disabled p then (st1, r, [])
  else handleFiles p files st1 r.

End handlers.

(** ** The handlers that do not *)

(** [onDragOver], also bound to [onDragEnter] *)
Definition onDragOver (p : Props) (st : State) : State :=
  if disabled p then st
  else mkState true (selected st) (errors st) (inputValue st).

(** [onDragLeave] *)
Definition onDragLeave (st : State) : State :=
  mkState false (selected st) (errors st) (inputValue st).

(** [openFilePicker]: [inputRef.current?.click()] unless disabled. *)
Definition openFilePicker (p : Props) (st : State) : list Effect :=
  if disabled p then []
  else match inputValue st with
       | Some _ => [ClickInput]
       | None => []
       end.

(** The [onKeyDown] of the drop zone: Enter and the space bar open the
    picker. *)
Definition onKeyDown (p : Props) (key : jsstr) (st : State) : list Effect :=
  if bool_decide (key = js "Enter") || bool_decide (key = js " ")
  then openFilePicker p st
  else [].

(** ** The component as a machine *)

(** The events the rendered markup delivers. *)
Inductive Event :=
  | InputChange (files : option (list File))
  | Drop (files : option (list File))
  | DragOver
  | DragEnter
  | DragLeave
  | ZoneClick
  | ButtonClick
  | KeyDown (key : jsstr)
  | ClearClick.

(** Whether the markup delivers the event.  This is what the handlers
    assume of the browser and of React, not something they test: the hidden
    input carries the [disabled] attribute and a disabled input reports no
    change; the Clear button is rendered only while something is
    selected. *)
Definition offered (p : Props) (st : State) (e : Event) : bool :=
  match e with
  | InputChange _ => negb (disabled p)
  | ClearClick => bool_decide (selected st ≠ [])
  | _ => true
  end.

Section machine.
Context {math : FloatLog} {R : Type} {registry : UrlRegistry File R}.

(** The handler the markup wires to each event: [onChange] of the hidden
    input, the [on...] attributes of the drop zone, the [onClick] of the
    two buttons. *)
Definition dispatch (p : Props) (e : Event) (st : State) (r : R)
    : State * R * list Effect :=
  match e with
  | InputChange files => onInputChange p files st r
  | Drop files => onDrop p files st r
  | DragOver | DragEnter => (onDragOver p st, r, [])
  | DragLeave => (onDragLeave st, r, [])
  | ZoneClick | ButtonClick => (st, r, openFilePicker p st)
  | KeyDown key => (st, r, onKeyDown p key st)
  | ClearClick => let '(st', r') := clearSelection st r in (st', r', [])
  end.

(** One event on the mounted component: the handler runs when the markup
    delivers the event. *)
Definition handleEvent (p : Props) (e : Event) (st : State) (r : R)
    : State * R * list Effect :=
  if offered p st e then dispatch p e st r else (st, r, []).

(** A run: the events handled one after the other. *)
Definition run (p : Props) (es : list Event) (st : State) (r : R) : State * R :=
  foldl (λ '(st, r) e, (handleEvent p e st r).1) (st, r) es.

(** The states a mounted component can be in, with the registry it left. *)
Inductive reachable (p : Props) (r0 : R) : State → R → Prop :=
  | reachable_init : reachable p r0 initialState r0
  | reachable_step e st r :
      reachable p r0 st r →
      reachable p r0 (handleEvent p e st r).1.1 (handleEvent p e st r).1.2.

(** A property of the selection and the registry, whatever the other
    state cells hold. *)
Definition on_selection (I : State → R → Prop) : Prop :=
  ∀ st st' r, selected st = selected st' → I st r → I st' r.

(** ** Ownership of preview URLs *)

(** Every preview URL of the selection is registered, and no URL is in the
    selection twice: nothing displayed points to a revoked URL. *)
Definition owned (st : State) (r : R) : Prop :=
  NoDup (previewUrls (selected st))
  ∧ ∀ u, u ∈ previewUrls (selected st) → u ∈ liveUrls r.

(** Every preview URL resolves to the file it is shown for. *)
Definition faithful (st : State) (r : R) : Prop :=
  ∀ s u, s ∈ selected st → previewUrl s = Some u →
         resolveUrl u r = Some (file s).

(** A URL that is registered and that the selection does not hold: the
    component has lost track of it. *)
Definition stray (u : blobUrl) (st : State) (r : R) : Prop :=
  u ∈ liveUrls r ∧ u ∉ previewUrls (selected st).

(** The component, mounted with the registry [r0], has left the URLs of
    [r0] alone and holds every URL registered since: it leaks nothing. *)
Definition leak_free (r0 : R) (st : State) (r : R) : Prop :=
  liveUrls r0 ⊆ liveUrls r
  ∧ liveUrls r ∖ liveUrls r0 = list_to_set (previewUrls (selected st)).

End machine.

(** ** The view *)

(** One item of the preview list: the image, or the name and size. *)
Inductive PreviewView :=
  | ImageView (src : blobUrl) (alt : jsstr)
  | MetaView (fileName fileSize : jsstr).

#[export] Instance PreviewView_eq_dec : EqDecision PreviewView.
Proof. solve_decision. Defined.

(** The [key] of a preview item: name, size and index. *)
Definition previewKey (s : Selected) (idx : nat) : jsstr :=
  name (file s) ++ js "-" ++ digits (size (file s)) ++ js "-"
    ++ digits (N.of_nat idx).

Section view.
Context {math : FloatLog}.

Definition renderPreview (s : Selected) : PreviewView :=
  match previewUrl s with
  | Some u => ImageView u (name (file s))
  | None => MetaView (name (file s)) (humanFileSize (size (file s)))
  end.

(** What the component shows: the classes of the drop zone, the preview
    block (with its Clear button) when something is selected, the error
    block when there are errors. *)
Record View := mkView {
  zoneDragActive : bool;
  zoneDisabled : bool;
  previewBlock : option (list (jsstr * PreviewView));
  errorBlock : option (list jsstr);
}.

Definition render (p : Props) (st : State) : View :=
  mkView (dragActive st) (disabled p)
    (match selected st with
     | [] => None
     | sel => Some (imap (λ idx s, (previewKey s idx, renderPreview s)) sel)
     end)
    (match errors st with
     | [] => None
     | errs => Some errs
     end).

End view.

(** ** The staging contract of the specification

    "Partition the files with the filter and the size check; keep the first
    accepted file unless several are allowed; create a preview handle for
    each accepted image; release the handles of the previous result before
    the new one is installed." *)

Record StageResult := mkStageResult {
  stageAccepted : list Selected;
  stageRejected : list jsstr;
}.

Section contract.
Context {math : FloatLog} {R : Type} {registry : UrlRegistry File R}.

Definition stage (p : Props) (files : list File) (previous : list Selected)
    (r : R) : StageResult * R :=
  let accepted := validFiles p files in
  let rejected := rejections p files in
  let kept := if multiple p then accepted else take 1 accepted in
  let '(candidates, r1) := makePreviews (showPreviews p) kept r in
  (mkStageResult candidates rejected, revokePreviews previous r1).

End contract.

(** ** Sample data for the concrete runs *)

Definition photo : File := mkFile (js "a.png") (js "image/png") 500.
Definition scan : File := mkFile (js "b.jpg") (js "image/jpeg") 900.
Definition report : File := mkFile (js "report.pdf") (js "application/pdf") 4096.
Definition movie : File := mkFile (js "clip.mp4") (js "video/mp4") 5000000.

(** Images only, at most 1000 bytes, one file. *)
Definition imageProps : Props := mkProps true false (js "image/*") (Some 1000%N) true false.

(** The same, several files. *)
Definition galleryProps : Props := mkProps true true (js "image/*") (Some 1000%N) true false.

(** ** Concrete runs, on the registry [Browser] and the host [exactLog] *)

Section samples.
#[local] Existing Instance exactLog.

(** Two images dropped on the single-file component. *)
Definition dropTwo : State * Browser File * list Effect :=
  handleFiles imageProps (Some [photo; scan]) initialState browser_empty.

(** Two images and a document dropped on the gallery. *)
Definition dropGallery : State * Browser File * list Effect :=
  handleFiles galleryProps (Some [photo; report; scan]) initialState browser_empty.

(** A session on the single-file component. *)
Definition session : list Event :=
  [DragOver; Drop (Some [photo; scan]); ClearClick; InputChange (Some [scan])].

End samples.

(** ** Validation *)

Section validation.
Context {math : FloatLog}.
Implicit Types (p : Props) (f : File) (files valid : list File) (errs : list jsstr).

(** One turn of the loop pushes the file, or its message, at the end. *)
Lemma checkFile_verdict p valid errs f :
  checkFile p (valid, errs) f
  = match verdict p f with
    | None => (valid ++ [f], errs)
    | Some msg => (valid, errs ++ [msg])
    end.
Proof.
  unfold checkFile, verdict.
  destruct (negb _); [done|]. destruct (maxSize p) as [limit|]; [|done].
  by destruct (limit <? size f)%N.
Qed.

Lemma foldl_checkFile p files valid errs :
  foldl (checkFile p) (valid, errs) files
  = (valid ++ filter (λ f, verdict p f = None) files,
     errs ++ omap (verdict p) files).
Proof.
  revert valid errs. induction files as [|f files IH]; intros valid errs; cbn [foldl].
  - by rewrite !app_nil_r.
  - rewrite checkFile_verdict. destruct (verdict p f) as [msg|] eqn:E.
    + rewrite IH, filter_cons_False by congruence.
      csimpl. by rewrite E, <-app_assoc.
    + rewrite IH, filter_cons_True by done.
      csimpl. by rewrite E, <-app_assoc.
Qed.

(** The loop computes a partition: the valid files are the files without a
    verdict, the errors are the verdicts, both in the order of the input. *)
Lemma checkFiles_partition p files :
  checkFiles p files = (validFiles p files, rejections p files).
Proof. apply foldl_checkFile. Qed.

(** A file is valid when it matches the accept specification and is not
    above the limit. *)
Lemma verdict_None p f :
  verdict p f = None
  ↔ matchesAccept f (accept p) = true
    ∧ ∀ limit, maxSize p = Some limit → (size f ≤ limit)%N.
Proof.
  unfold verdict. destruct (matchesAccept f (accept p)); simpl.
  - destruct (maxSize p) as [limit|].
    + destruct (N.ltb_spec limit (size f)); split; try done.
      * intros [_ Hle]. specialize (Hle limit eq_refl). lia.
      * intros _. split; [done|]. intros ? [= <-]. lia.
    + split; [|done]. intros _. split; [done|]. by intros ? [=].
  - split; [done|]. by intros [[=] _].
Qed.

Lemma verdict_unsupported p f :
  matchesAccept f (accept p) = false → verdict p f = Some (unsupportedMessage f).
Proof. intros H. unfold verdict. by rewrite H. Qed.

Lemma verdict_too_large p f limit :
  matchesAccept f (accept p) = true → maxSize p = Some limit →
  (limit < size f)%N → verdict p f = Some (tooLargeMessage f limit).
Proof.
  intros Hm Hl Hs. unfold verdict. rewrite Hm, Hl. simpl.
  by rewrite (proj2 (N.ltb_lt _ _) Hs).
Qed.

(** Every file ends on exactly one side. *)
Lemma checkFiles_length p files :
  length (checkFiles p files).1 + length (checkFiles p files).2 = length files.
Proof.
  rewrite checkFiles_partition. apply length_filter_omap.
Qed.

Lemma elem_of_validFiles p f files :
  f ∈ validFiles p files ↔ f ∈ files ∧ verdict p f = None.
Proof. unfold validFiles. rewrite list_elem_of_filter. tauto. Qed.

Lemma elem_of_rejections p msg files :
  msg ∈ rejections p files ↔ ∃ f, f ∈ files ∧ verdict p f = Some msg.
Proof. unfold rejections. by rewrite list_elem_of_omap. Qed.

Lemma notify_nil p : notify p [] = [].
Proof. done. Qed.

End validation.

(** ** The registry under the handlers *)

Section registry.
Context {math : FloatLog} {R : Type} {registry : UrlRegistry File R} {laws : UrlRegistryLaws File R}.
Implicit Types (r : R) (f : File) (fs : list File) (s : Selected)
  (sel : list Selected) (u : blobUrl) (show : bool).

Lemma previewUrls_cons s sel :
  previewUrls (s :: sel) = from_option (λ u, [u]) [] (previewUrl s) ++ previewUrls sel.
Proof. unfold previewUrls. csimpl. by destruct (previewUrl s). Qed.

Lemma elem_of_previewUrls u sel :
  u ∈ previewUrls sel ↔ ∃ s, s ∈ sel ∧ previewUrl s = Some u.
Proof. unfold previewUrls. by rewrite list_elem_of_omap. Qed.

Lemma previewUrls_take_1 sel u : u ∈ previewUrls (take 1 sel) → u ∈ previewUrls sel.
Proof.
  rewrite !elem_of_previewUrls. intros (s & Hs & Hu). exists s. split; [|done].
  by eapply subseteq_take.
Qed.

(** *** Revoking a selection *)

Lemma revokePreviews_cons s sel r :
  revokePreviews (s :: sel) r = revokePreviews sel (revokePreview r s).
Proof. done. Qed.

(** Revoking unregisters the URLs of the selection and no other. *)
Lemma revokePreviews_live sel r :
  liveUrls (revokePreviews sel r) = liveUrls r ∖ list_to_set (previewUrls sel).
Proof.
  revert r. induction sel as [|s sel IH]; intros r.
  - simpl. set_solver.
  - rewrite revokePreviews_cons, IH, previewUrls_cons. unfold revokePreview.
    destruct (previewUrl s) as [u|]; simpl; [rewrite revoke_live|]; set_solver.
Qed.

(** Each URL of the selection is revoked once, in order. *)
Lemma revokePreviews_revocations sel r :
  revocations (revokePreviews sel r) = revocations r ++ previewUrls sel.
Proof.
  revert r. induction sel as [|s sel IH]; intros r.
  - simpl. by rewrite app_nil_r.
  - rewrite revokePreviews_cons, IH, previewUrls_cons. unfold revokePreview.
    destruct (previewUrl s) as [u|]; simpl; [|done].
    by rewrite revoke_revocations, <-app_assoc.
Qed.

(** The other URLs resolve as before. *)
Lemma revokePreviews_resolve sel r u :
  u ∉ previewUrls sel → resolveUrl u (revokePreviews sel r) = resolveUrl u r.
Proof.
  revert r. induction sel as [|s sel IH]; intros r; [done|].
  rewrite revokePreviews_cons, previewUrls_cons, not_elem_of_app.
  intros [Hs Hsel]. rewrite IH by done. unfold revokePreview.
  destruct (previewUrl s) as [v|]; [|done].
  rewrite revoke_resolve, decide_False; [done|].
  intros ->. apply Hs. simpl. left.
Qed.

(** *** Creating previews *)

Lemma makePreview_image show f r :
  show && startsWith (type f) (js "image/") = true →
  makePreview show f r
  = (mkSelected f (Some (createObjectURL f r).1), (createObjectURL f r).2).
Proof. intros H. unfold makePreview. rewrite H. by destruct (createObjectURL f r). Qed.

Lemma makePreview_other show f r :
  show && startsWith (type f) (js "image/") = false →
  makePreview show f r = (mkSelected f None, r).
Proof. intros H. unfold makePreview. by rewrite H. Qed.

Lemma makePreviews_cons show f fs r :
  makePreviews show (f :: fs) r
  = ((makePreview show f r).1 :: (makePreviews show fs (makePreview show f r).2).1,
     (makePreviews show fs (makePreview show f r).2).2).
Proof.
  cbn [makePreviews]. destruct (makePreview show f r) as [s r1]. cbn [fst snd].
  by destruct (makePreviews show fs r1).
Qed.

Lemma makePreview_file show f r : file (makePreview show f r).1 = f.
Proof.
  destruct (show && startsWith (type f) (js "image/")) eqn:E.
  - by rewrite makePreview_image.
  - by rewrite makePreview_other.
Qed.

(** A file gets a preview URL exactly when previews are shown and its type
    starts with [image/]. *)
Lemma makePreview_previewUrl show f r :
  is_Some (previewUrl (makePreview show f r).1)
  ↔ show = true ∧ startsWith (type f) (js "image/") = true.
Proof.
  destruct (show && startsWith (type f) (js "image/")) eqn:E.
  - rewrite makePreview_image by done. simpl.
    apply andb_true_iff in E. split; [done|by eexists].
  - rewrite makePreview_other by done. simpl.
    apply andb_false_iff in E. split; [by intros [? [=]]|].
    intros [??]. destruct E; congruence.
Qed.

Lemma makePreview_live show f r :
  liveUrls (makePreview show f r).2
  = list_to_set (previewUrls [(makePreview show f r).1]) ∪ liveUrls r.
Proof.
  destruct (show && startsWith (type f) (js "image/")) eqn:E.
  - rewrite makePreview_image by done. simpl. rewrite create_live. set_solver.
  - rewrite makePreview_other by done. simpl. set_solver.
Qed.

Lemma makePreview_fresh show f r u :
  previewUrl (makePreview show f r).1 = Some u → u ∉ liveUrls r.
Proof.
  destruct (show && startsWith (type f) (js "image/")) eqn:E.
  - rewrite makePreview_image by done. simpl. intros [= <-]. apply create_fresh.
  - by rewrite makePreview_other.
Qed.

Lemma makePreview_resolve_new show f r u :
  previewUrl (makePreview show f r).1 = Some u →
  resolveUrl u (makePreview show f r).2 = Some f.
Proof.
  destruct (show && startsWith (type f) (js "image/")) eqn:E.
  - rewrite makePreview_image by done. simpl. intros [= <-].
    apply create_resolve_new.
  - by rewrite makePreview_other.
Qed.

Lemma makePreview_resolve_old show f r u :
  u ∈ liveUrls r → resolveUrl u (makePreview show f r).2 = resolveUrl u r.
Proof.
  destruct (show && startsWith (type f) (js "image/")) eqn:E.
  - rewrite makePreview_image by done. simpl. apply create_resolve_old.
  - by rewrite makePreview_other.
Qed.

Lemma makePreview_revocations show f r :
  revocations (makePreview show f r).2 = revocations r.
Proof.
  destruct (show && startsWith (type f) (js "image/")) eqn:E.
  - rewrite makePreview_image by done. apply create_revocations.
  - by rewrite makePreview_other.
Qed.

End registry.

Section previews.
Context {math : FloatLog} {R : Type} {registry : UrlRegistry File R} {laws : UrlRegistryLaws File R}.
Implicit Types (r : R) (f : File) (fs : list File) (s : Selected)
  (sel : list Selected) (u : blobUrl) (show : bool).

(** The preview items are the valid files, in order. *)
Lemma makePreviews_files show fs r : file <$> (makePreviews show fs r).1 = fs.
Proof.
  revert r. induction fs as [|f fs IH]; intros r; [done|].
  rewrite makePreviews_cons. csimpl. by rewrite makePreview_file, IH.
Qed.

Lemma makePreviews_length show fs r : length (makePreviews show fs r).1 = length fs.
Proof. by rewrite <-(makePreviews_files show fs r) at 2; rewrite length_fmap. Qed.

(** The preview item of the first file does not depend on the files after
    it. *)
Lemma makePreviews_take_1 show fs r :
  (makePreviews show (take 1 fs) r).1 = take 1 (makePreviews show fs r).1.
Proof. destruct fs as [|f fs]; [done|]. by rewrite take_1_cons, !makePreviews_cons. Qed.

(** The URLs registered after the loop: the ones before, and one per
    preview item that has a URL. *)
Lemma makePreviews_live show fs r :
  liveUrls (makePreviews show fs r).2
  = list_to_set (previewUrls (makePreviews show fs r).1) ∪ liveUrls r.
Proof.
  revert r. induction fs as [|f fs IH]; intros r.
  - simpl. set_solver.
  - rewrite makePreviews_cons. cbn [fst snd].
    rewrite IH, makePreview_live, previewUrls_cons.
    unfold previewUrls at 2. csimpl.
    destruct (previewUrl (makePreview show f r).1); simpl; set_solver.
Qed.

(** The new URLs were not registered before, and are pairwise distinct. *)
Lemma makePreviews_fresh show fs r :
  NoDup (previewUrls (makePreviews show fs r).1)
  ∧ ∀ u, u ∈ previewUrls (makePreviews show fs r).1 → u ∉ liveUrls r.
Proof.
  revert r. induction fs as [|f fs IH]; intros r.
  - split; [constructor|]. by intros u ?%elem_of_nil.
  - rewrite makePreviews_cons. cbn [fst snd]. rewrite previewUrls_cons.
    destruct (IH (makePreview show f r).2) as [Hnd Hnew].
    pose proof (makePreview_live show f r) as Hlive.
    destruct (previewUrl (makePreview show f r).1) as [v|] eqn:Ev; simpl.
    + unfold previewUrls in Hlive at 1. csimpl in Hlive. rewrite Ev in Hlive.
      split.
      * constructor; [|done]. intros Hv%Hnew. set_solver.
      * intros u [->|Hu]%elem_of_cons; [by eapply makePreview_fresh|].
        apply Hnew in Hu. set_solver.
    + split; [done|]. intros u Hu%Hnew. set_solver.
Qed.

Lemma makePreviews_revocations show fs r :
  revocations (makePreviews show fs r).2 = revocations r.
Proof.
  revert r. induction fs as [|f fs IH]; intros r; [done|].
  rewrite makePreviews_cons. cbn [snd]. by rewrite IH, makePreview_revocations.
Qed.

(** What was registered before resolves as before. *)
Lemma makePreviews_resolve_old show fs r u :
  u ∈ liveUrls r → resolveUrl u (makePreviews show fs r).2 = resolveUrl u r.
Proof.
  revert r. induction fs as [|f fs IH]; intros r Hu; [done|].
  rewrite makePreviews_cons. cbn [snd]. rewrite IH.
  - by apply makePreview_resolve_old.
  - rewrite makePreview_live. set_solver.
Qed.

(** Each new URL resolves to the file of its preview item. *)
Lemma makePreviews_resolve_new show fs r s u :
  s ∈ (makePreviews show fs r).1 → previewUrl s = Some u →
  resolveUrl u (makePreviews show fs r).2 = Some (file s).
Proof.
  revert r. induction fs as [|f fs IH]; intros r.
  - by intros ?%elem_of_nil.
  - rewrite makePreviews_cons. cbn [fst snd].
    intros [->|Hs]%elem_of_cons Hu; [|by apply IH].
    rewrite makePreviews_resolve_old.
    + rewrite makePreview_file. by apply makePreview_resolve_new.
    + rewrite makePreview_live, previewUrls_cons, Hu. set_solver.
Qed.

(** An item has a URL exactly when previews are shown and its file is an
    image. *)
Lemma makePreviews_previewUrl show fs r s :
  s ∈ (makePreviews show fs r).1 →
  is_Some (previewUrl s)
  ↔ show = true ∧ startsWith (type (file s)) (js "image/") = true.
Proof.
  revert r. induction fs as [|f fs IH]; intros r.
  - by intros ?%elem_of_nil.
  - rewrite makePreviews_cons. cbn [fst].
    intros [->|Hs]%elem_of_cons; [|by eapply IH].
    rewrite makePreview_file. apply makePreview_previewUrl.
Qed.

End previews.

(** ** [handleFiles] *)

Section handle_files.
Context {math : FloatLog} {R : Type} {registry : UrlRegistry File R} {laws : UrlRegistryLaws File R}.
Implicit Types (p : Props) (st : State) (r : R) (f : File)
  (files : list File) (u : blobUrl).

(** Nothing selected: the handler returns at once, and the previous
    selection, its errors and its URLs stay as they are. *)
Lemma handleFiles_none p st r : handleFiles p None st r = (st, r, []).
Proof. done. Qed.

Lemma handleFiles_nil p st r : handleFiles p (Some []) st r = (st, r, []).
Proof. done. Qed.

(** The handler in closed form. *)
Lemma handleFiles_some p files st r :
  files ≠ [] →
  handleFiles p (Some files) st r
  = let items := makePreviews (showPreviews p) (validFiles p files) r in
    (mkState (dragActive st)
       (if multiple p then items.1 else take 1 items.1)
       (rejections p files) (inputValue st),
     revokePreviews (selected st) items.2,
     notify p (validFiles p files)).
Proof.
  intros Hne. destruct files as [|f files]; [done|].
  unfold handleFiles. rewrite checkFiles_partition.
  by destruct (makePreviews _ _ _).
Qed.

(** The state cells the handler does not write. *)
Lemma handleFiles_frame p fileList st r :
  dragActive (handleFiles p fileList st r).1.1 = dragActive st
  ∧ inputValue (handleFiles p fileList st r).1.1 = inputValue st.
Proof.
  destruct fileList as [[|f files]|]; [done| |done].
  by rewrite handleFiles_some.
Qed.

(** The selection holds preview items of the handler's own making, or is
    the one before. *)
Lemma handleFiles_selected_sub p files st r u :
  files ≠ [] →
  u ∈ previewUrls (selected (handleFiles p (Some files) st r).1.1) →
  u ∈ previewUrls (makePreviews (showPreviews p) (validFiles p files) r).1.
Proof.
  intros Hne. rewrite handleFiles_some by done. cbn [selected fst snd].
  destruct (multiple p); [done|]. apply previewUrls_take_1.
Qed.

Lemma handleFiles_live p files st r :
  files ≠ [] →
  liveUrls (handleFiles p (Some files) st r).1.2
  = (list_to_set (previewUrls (makePreviews (showPreviews p) (validFiles p files) r).1)
     ∪ liveUrls r) ∖ list_to_set (previewUrls (selected st)).
Proof.
  intros Hne. rewrite handleFiles_some by done. cbn [selected fst snd].
  by rewrite revokePreviews_live, makePreviews_live.
Qed.

(** The two sides of the partition, as [handleFiles] installs them. *)
Lemma handleFiles_sides p files st r :
  files ≠ [] →
  file <$> selected (handleFiles p (Some files) st r).1.1
  = (if multiple p then validFiles p files else take 1 (validFiles p files))
  ∧ errors (handleFiles p (Some files) st r).1.1 = rejections p files.
Proof.
  intros Hne. rewrite handleFiles_some by done. cbn [selected errors fst].
  split; [|done]. destruct (multiple p).
  - apply makePreviews_files.
  - by rewrite fmap_take, makePreviews_files.
Qed.

End handle_files.

(** ** Ownership under [handleFiles] and [clearSelection] *)

Section ownership.
Context {math : FloatLog} {R : Type} {registry : UrlRegistry File R} {laws : UrlRegistryLaws File R}.
Implicit Types (p : Props) (st : State) (r : R) (f : File)
  (files : list File) (sel : list Selected) (u : blobUrl).

Lemma previewUrls_app sel1 sel2 :
  previewUrls (sel1 ++ sel2) = previewUrls sel1 ++ previewUrls sel2.
Proof. apply omap_app. Qed.

Lemma previewUrls_take_drop sel n :
  previewUrls sel = previewUrls (take n sel) ++ previewUrls (drop n sel).
Proof. by rewrite <-previewUrls_app, take_drop. Qed.

(** The URLs the final selection keeps are among the new ones, without
    repetition. *)
Lemma finalSelection_NoDup (multi : bool) sel :
  NoDup (previewUrls sel) →
  NoDup (previewUrls (if multi then sel else take 1 sel)).
Proof.
  destruct multi; [done|]. rewrite (previewUrls_take_drop sel 1).
  by intros [? _]%NoDup_app.
Qed.

Lemma finalSelection_sub (multi : bool) sel u :
  u ∈ previewUrls (if multi then sel else take 1 sel) → u ∈ previewUrls sel.
Proof. destruct multi; [done|]. apply previewUrls_take_1. Qed.

(** A URL of the new selection is not one of the previous selection, when
    the previous ones were registered: it is not revoked on the way. *)
Lemma handleFiles_new_not_old p files st r u :
  files ≠ [] → owned st r →
  u ∈ previewUrls (selected (handleFiles p (Some files) st r).1.1) →
  u ∉ previewUrls (selected st).
Proof.
  intros Hne [_ Hlive] Hu Hold.
  apply handleFiles_selected_sub in Hu; [|done].
  by apply (proj2 (makePreviews_fresh _ _ r) u Hu), Hlive.
Qed.

(** [handleFiles] keeps the selection's URLs registered and distinct. *)
Lemma handleFiles_owned p fileList st r :
  owned st r →
  owned (handleFiles p fileList st r).1.1 (handleFiles p fileList st r).1.2.
Proof.
  intros Hown. destruct fileList as [files|]; [|done].
  destruct (decide (files = [])) as [->|Hne]; [done|].
  pose proof (handleFiles_new_not_old p files st r) as Hnew.
  unfold owned. rewrite handleFiles_live by done.
  rewrite handleFiles_some in * by done.
  cbn [selected fst snd] in *. destruct (makePreviews_fresh (showPreviews p) (validFiles p files) r)
    as [Hnd Hfresh].
  split; [by apply finalSelection_NoDup|].
  intros u Hu. specialize (Hnew u Hne Hown Hu).
  apply finalSelection_sub in Hu. set_solver.
Qed.

(** [handleFiles] keeps every preview URL pointing to its file. *)
Lemma handleFiles_faithful p fileList st r :
  owned st r → faithful st r →
  faithful (handleFiles p fileList st r).1.1 (handleFiles p fileList st r).1.2.
Proof.
  intros Hown Hfaith. destruct fileList as [files|]; [|done].
  destruct (decide (files = [])) as [->|Hne]; [done|].
  pose proof (handleFiles_new_not_old p files st r) as Hnew.
  unfold faithful. rewrite handleFiles_some in * by done. cbn [selected fst snd] in *.
  intros s u Hs Hu. rewrite revokePreviews_resolve.
  - apply makePreviews_resolve_new; [|done].
    destruct (multiple p); [done|]. by eapply subseteq_take.
  - apply Hnew; [done..|]. apply elem_of_previewUrls. by exists s.
Qed.

(** A URL the component does not hold is not touched by [handleFiles]. *)
Lemma handleFiles_stray p fileList st r u :
  stray u st r →
  stray u (handleFiles p fileList st r).1.1 (handleFiles p fileList st r).1.2.
Proof.
  intros [Hlive Hout]. destruct fileList as [files|]; [|done].
  destruct (decide (files = [])) as [->|Hne]; [done|].
  pose proof (handleFiles_selected_sub p files st r u Hne) as Hsub.
  destruct (makePreviews_fresh (showPreviews p) (validFiles p files) r) as [_ Hfresh].
  unfold stray. rewrite handleFiles_live by done. split.
  - set_solver.
  - intros Hu%Hsub. by apply (Hfresh u).
Qed.

(** With [multiple], or when at most the first valid file got a URL,
    [handleFiles] leaks nothing. *)
Lemma handleFiles_leak_free p files st (r0 : R) r :
  files ≠ [] →
  multiple p = true
  ∨ previewUrls (drop 1 (makePreviews (showPreviews p) (validFiles p files) r).1) = [] →
  leak_free r0 st r →
  leak_free r0 (handleFiles p (Some files) st r).1.1
               (handleFiles p (Some files) st r).1.2.
Proof.
  intros Hne Hall [Hsub Hfree]. unfold leak_free.
  rewrite handleFiles_live by done. rewrite handleFiles_some by done. cbn [selected fst snd].
  destruct (makePreviews_fresh (showPreviews p) (validFiles p files) r) as [_ Hfresh].
  set (items := (makePreviews (showPreviews p) (validFiles p files) r).1) in *.
  assert (previewUrls (if multiple p then items else take 1 items) = previewUrls items)
    as ->.
  { destruct Hall as [->|Hnil]; [done|]. destruct (multiple p); [done|].
    by rewrite (previewUrls_take_drop items 1), Hnil, app_nil_r. }
  set_solver.
Qed.

(** In single mode, the URLs created for the valid files after the first
    stay registered and are not in the selection. *)
Lemma handleFiles_leak p files st r u :
  files ≠ [] → multiple p = false → owned st r →
  u ∈ previewUrls (drop 1 (makePreviews (showPreviews p) (validFiles p files) r).1) →
  stray u (handleFiles p (Some files) st r).1.1 (handleFiles p (Some files) st r).1.2.
Proof.
  intros Hne Hsingle [_ Hlive] Hu. unfold stray.
  rewrite handleFiles_live by done. rewrite handleFiles_some by done. cbn [selected fst snd].
  rewrite Hsingle.
  destruct (makePreviews_fresh (showPreviews p) (validFiles p files) r)
    as [Hnd Hfresh].
  set (items := (makePreviews (showPreviews p) (validFiles p files) r).1) in *.
  rewrite (previewUrls_take_drop items 1) in Hnd, Hfresh |- *.
  apply NoDup_app in Hnd as (_ & Hdisj & _). split.
  - rewrite list_to_set_app_L. set_solver.
  - intros Hin. by apply (Hdisj u).
Qed.

(** *** [clearSelection] *)

Lemma clearSelection_owned st r :
  owned (clearSelection st r).1 (clearSelection st r).2.
Proof. split; [constructor|]. by intros u ?%elem_of_nil. Qed.

Lemma clearSelection_faithful st r :
  faithful (clearSelection st r).1 (clearSelection st r).2.
Proof. by intros s u ?%elem_of_nil. Qed.

Lemma clearSelection_live st r :
  liveUrls (clearSelection st r).2
  = liveUrls r ∖ list_to_set (previewUrls (selected st)).
Proof. apply revokePreviews_live. Qed.

Lemma clearSelection_stray st r u :
  stray u st r → stray u (clearSelection st r).1 (clearSelection st r).2.
Proof.
  intros [Hlive Hout]. unfold stray. rewrite clearSelection_live.
  split; [set_solver|by intros ?%elem_of_nil].
Qed.

Lemma clearSelection_leak_free st (r0 : R) r :
  leak_free r0 st r → leak_free r0 (clearSelection st r).1 (clearSelection st r).2.
Proof.
  intros [Hsub Hfree]. unfold leak_free. rewrite clearSelection_live. simpl.
  set_solver.
Qed.

End ownership.

(** ** Invariants of the machine *)

Section invariants.
Context {math : FloatLog} {R : Type} {registry : UrlRegistry File R} {laws : UrlRegistryLaws File R}.
Implicit Types (p : Props) (st : State) (r : R) (e : Event) (u : blobUrl)
  (I : State → R → Prop).

(** The two handlers that write the selection or the registry decide
    whether a property of them is kept by every handler, whether or not the
    markup delivers the event. *)
Lemma dispatch_invariant I p :
  on_selection I →
  (∀ fl st r, I st r → I (handleFiles p fl st r).1.1 (handleFiles p fl st r).1.2) →
  (∀ st r, I st r → I (clearSelection st r).1 (clearSelection st r).2) →
  ∀ e st r, I st r → I (dispatch p e st r).1.1 (dispatch p e st r).1.2.
Proof.
  intros Hsel Hfiles Hclear e st r HI.
  destruct e as [fl|fl| | | | | |key|]; cbn [dispatch fst snd]; try done.
  - by apply Hfiles.
  - unfold onDrop. destruct (disabled p); cbn [fst snd].
    + by apply (Hsel st).
    + apply Hfiles. by apply (Hsel st).
  - unfold onDragOver. destruct (disabled p); [done|]. by apply (Hsel st).
  - unfold onDragOver. destruct (disabled p); [done|]. by apply (Hsel st).
  - by apply (Hsel st).
  - specialize (Hclear st r HI). by destruct (clearSelection st r).
Qed.

Lemma handleEvent_invariant I p :
  on_selection I →
  (∀ fl st r, I st r → I (handleFiles p fl st r).1.1 (handleFiles p fl st r).1.2) →
  (∀ st r, I st r → I (clearSelection st r).1 (clearSelection st r).2) →
  ∀ e st r, I st r → I (handleEvent p e st r).1.1 (handleEvent p e st r).1.2.
Proof.
  intros Hsel Hfiles Hclear e st r HI. unfold handleEvent.
  destruct (offered p st e); [by apply dispatch_invariant|done].
Qed.

(** Such a property holds in every reachable state if it holds at the
    start. *)
Lemma reachable_invariant I p (r0 : R) :
  on_selection I →
  (∀ fl st r, I st r → I (handleFiles p fl st r).1.1 (handleFiles p fl st r).1.2) →
  (∀ st r, I st r → I (clearSelection st r).1 (clearSelection st r).2) →
  I initialState r0 →
  ∀ st r, reachable p r0 st r → I st r.
Proof.
  intros Hsel Hfiles Hclear Hinit st r Hreach.
  induction Hreach as [|e st r _ IH]; [done|]. by apply handleEvent_invariant.
Qed.

Lemma owned_on_selection : on_selection (λ st r, owned st r ∧ faithful st r).
Proof. intros st st' r Heq. unfold owned, faithful. by rewrite Heq. Qed.

Lemma stray_on_selection u : on_selection (stray u).
Proof. intros st st' r Heq. unfold stray. by rewrite Heq. Qed.

Lemma leak_free_on_selection (r0 : R) : on_selection (leak_free r0).
Proof. intros st st' r Heq. unfold leak_free. by rewrite Heq. Qed.

Lemma single_on_selection : on_selection (λ st (_ : R), length (selected st) ≤ 1).
Proof. intros st st' r Heq. by rewrite Heq. Qed.

(** The runs and the reachable states are the same thing. *)
Lemma run_snoc p es e st r :
  run p (es ++ [e]) st r
  = (handleEvent p e (run p es st r).1 (run p es st r).2).1.
Proof. unfold run. rewrite foldl_snoc. by destruct (foldl _ _ es). Qed.

Lemma reachable_run p (r0 : R) st r :
  reachable p r0 st r ↔ ∃ es, run p es initialState r0 = (st, r).
Proof.
  split.
  - induction 1 as [|e st r _ [es Hes]]; [by exists []|].
    exists (es ++ [e]). rewrite run_snoc, Hes. cbn [fst snd].
    by destruct (handleEvent p e st r) as [[??]?].
  - intros [es Hes]. revert st r Hes.
    induction es as [|e es IH] using rev_ind; intros st r.
    + intros [= <- <-]. constructor.
    + rewrite run_snoc. destruct (run p es initialState r0) as [st1 r1] eqn:E.
      pose proof (reachable_step p r0 e st1 r1 (IH _ _ eq_refl)) as Hstep.
      cbn [fst snd]. destruct (handleEvent p e st1 r1) as [[st2 r2] eff].
      by intros [= <- <-].
Qed.

End invariants.

(** ** The staging contract *)

Section staging.
Context {math : FloatLog} {R : Type} {registry : UrlRegistry File R} {laws : UrlRegistryLaws File R}.
Implicit Types (p : Props) (st : State) (r : R) (f : File)
  (fs files : list File) (u : blobUrl) (show : bool).

Lemma makePreviews_app show fs1 fs2 r :
  makePreviews show (fs1 ++ fs2) r
  = ((makePreviews show fs1 r).1
       ++ (makePreviews show fs2 (makePreviews show fs1 r).2).1,
     (makePreviews show fs2 (makePreviews show fs1 r).2).2).
Proof.
  revert r. induction fs1 as [|f fs1 IH]; intros r.
  - simpl. by destruct (makePreviews show fs2 r).
  - rewrite <-app_comm_cons, !makePreviews_cons, IH. done.
Qed.

(** Files that get no URL leave the registry as it is. *)
Lemma makePreviews_no_urls show fs r :
  previewUrls (makePreviews show fs r).1 = [] → (makePreviews show fs r).2 = r.
Proof.
  revert r. induction fs as [|f fs IH]; intros r; [done|].
  rewrite makePreviews_cons. cbn [fst snd]. rewrite previewUrls_cons.
  intros [Hf Hfs]%app_eq_nil. rewrite IH by done.
  destruct (show && startsWith (type f) (js "image/")) eqn:E.
  - rewrite makePreview_image in Hf by done. done.
  - by rewrite makePreview_other.
Qed.

(** The selection and the errors the handler installs are the contract's. *)
Lemma handleFiles_stage_view p files st r :
  files ≠ [] →
  selected (handleFiles p (Some files) st r).1.1
  = stageAccepted (stage p files (selected st) r).1
  ∧ errors (handleFiles p (Some files) st r).1.1
    = stageRejected (stage p files (selected st) r).1.
Proof.
  intros Hne. rewrite handleFiles_some by done. unfold stage.
  destruct (makePreviews (showPreviews p) (if multiple p then _ else _) r)
    as [candidates r1] eqn:E.
  cbn [selected errors fst snd stageAccepted stageRejected]. split; [|done].
  apply (f_equal fst) in E. cbn [fst] in E. rewrite <-E.
  destruct (multiple p); [done|]. by rewrite makePreviews_take_1.
Qed.

(** With [multiple], or when no valid file after the first gets a URL, the
    handler leaves the registry the contract prescribes. *)
Lemma handleFiles_stage_registry p files st r :
  files ≠ [] →
  multiple p = true
  ∨ previewUrls (drop 1 (makePreviews (showPreviews p) (validFiles p files) r).1) = [] →
  (handleFiles p (Some files) st r).1.2 = (stage p files (selected st) r).2.
Proof.
  intros Hne Hall. rewrite handleFiles_some by done. unfold stage.
  destruct (makePreviews (showPreviews p) (if multiple p then _ else _) r)
    as [candidates r1] eqn:E.
  cbn [fst snd]. f_equal. apply (f_equal snd) in E. cbn [snd] in E. rewrite <-E.
  destruct Hall as [->|Hnil]; [done|]. destruct (multiple p); [done|].
  destruct (validFiles p files) as [|f valid]; [done|].
  revert Hnil. rewrite take_1_cons, !makePreviews_cons. cbn [fst snd drop].
  rewrite drop_0. apply makePreviews_no_urls.
Qed.

(** In every case the contract's registry holds no URL that the handler's
    does not, and the same revocations. *)
Lemma handleFiles_stage_sub p files st r :
  files ≠ [] →
  liveUrls (stage p files (selected st) r).2
  ⊆ liveUrls (handleFiles p (Some files) st r).1.2
  ∧ revocations (stage p files (selected st) r).2
    = revocations (handleFiles p (Some files) st r).1.2.
Proof.
  intros Hne. rewrite handleFiles_live by done. rewrite handleFiles_some by done.
  unfold stage.
  destruct (makePreviews (showPreviews p) (if multiple p then _ else _) r)
    as [candidates r1] eqn:E.
  cbn [fst snd]. rewrite revokePreviews_live, !revokePreviews_revocations.
  assert (r1 = (makePreviews (showPreviews p)
                  (if multiple p then validFiles p files
                   else take 1 (validFiles p files)) r).2) as -> by (by rewrite E).
  rewrite makePreviews_live, !makePreviews_revocations. split; [|done].
  destruct (multiple p); [done|]. rewrite makePreviews_take_1.
  intros u. rewrite !elem_of_difference, !elem_of_union, !elem_of_list_to_set.
  intros [[Hu|Hu] Hold]; (split; [|done]); [left|by right].
  by apply previewUrls_take_1.
Qed.

End staging.

(** ** Properties *)

Section properties.
Context {math : FloatLog} {R : Type} {registry : UrlRegistry File R} {laws : UrlRegistryLaws File R}.
Implicit Types (p : Props) (st : State) (r : R) (f : File)
  (files : list File) (u : blobUrl) (es : list Event).

Lemma run_reachable p (r0 : R) es :
  reachable p r0 (run p es initialState r0).1 (run p es initialState r0).2.
Proof. apply reachable_run. exists es. by destruct (run p es initialState r0). Qed.

Lemma initial_owned (r0 : R) : owned initialState r0 ∧ faithful initialState r0.
Proof.
  split; [split; [constructor|]|]; [by intros u ?%elem_of_nil|].
  by intros s u ?%elem_of_nil.
Qed.

(** Ownership and faithfulness together are an invariant of the
    component, whatever its props. *)
Lemma reachable_owned_faithful p (r0 : R) st r :
  reachable p r0 st r → owned st r ∧ faithful st r.
Proof.
  apply (reachable_invariant (λ st r, owned st r ∧ faithful st r)).
  - apply owned_on_selection.
  - intros fl st' r' [??]. split; [by apply handleFiles_owned|by apply handleFiles_faithful].
  - intros st' r' _. split; [apply clearSelection_owned|apply clearSelection_faithful].
  - apply initial_owned.
Qed.

(** The props left at their defaults reject no file. *)
Lemma validFiles_default files : validFiles defaultProps files = files.
Proof.
  unfold validFiles. induction files as [|f files IH]; [done|].
  rewrite filter_cons_True by done. by rewrite IH.
Qed.

(** C1: in every state the component can reach, the preview URLs of the
    selection are pairwise distinct and registered (none was revoked), and
    each resolves to the file it is shown for. *)
Theorem reachable_owned p (r0 : R) st r :
  reachable p r0 st r → owned st r ∧ faithful st r.
Proof. apply reachable_owned_faithful. Qed.

(** C2: with [multiple] set, the component leaks no preview URL: in every
    reachable state the URLs registered since the component was mounted are
    exactly the URLs of the current selection. *)
Theorem reachable_leak_free p (r0 : R) st r :
  multiple p = true → reachable p r0 st r → leak_free r0 st r.
Proof.
  intros Hmulti. apply (reachable_invariant (leak_free r0)).
  - apply leak_free_on_selection.
  - intros [files|] st' r' Hfree; [|done].
    destruct (decide (files = [])) as [->|Hne]; [done|].
    apply handleFiles_leak_free; auto.
  - intros st' r'. apply clearSelection_leak_free.
  - split; [done|]. simpl. set_solver.
Qed.

(** A URL the component has lost track of stays registered whatever
    happens next: the component only ever revokes URLs of its selection. *)
Lemma run_stray p es st r u :
  stray u st r → stray u (run p es st r).1 (run p es st r).2.
Proof.
  intros Hstray. induction es as [|e es IH] using rev_ind; [done|].
  rewrite run_snoc. destruct (run p es st r) as [st1 r1]. cbn [fst snd] in *.
  apply (handleEvent_invariant (stray u)); [apply stray_on_selection|..|done].
  - intros. by apply handleFiles_stray.
  - intros. by apply clearSelection_stray.
Qed.

(** C3: without [multiple], [handleFiles] creates a preview URL for every
    valid image but keeps only the first item: the URLs of the items after
    the first are registered, are not in the selection, and no later event
    of the component revokes them. *)
Theorem handleFiles_leak_forever p files st r u es :
  files ≠ [] → multiple p = false → owned st r →
  u ∈ previewUrls (drop 1 (makePreviews (showPreviews p) (validFiles p files) r).1) →
  stray u (run p es (handleFiles p (Some files) st r).1.1
                    (handleFiles p (Some files) st r).1.2).1
          (run p es (handleFiles p (Some files) st r).1.1
                    (handleFiles p (Some files) st r).1.2).2.
Proof. intros. by apply run_stray, handleFiles_leak. Qed.

(** C4: a new selection revokes every preview URL of the previous
    selection exactly once, in order, and none of the URLs it installs. *)
Theorem handleFiles_revokes_previous p files st r :
  files ≠ [] → owned st r →
  revocations (handleFiles p (Some files) st r).1.2
  = revocations r ++ previewUrls (selected st)
  ∧ NoDup (previewUrls (selected st))
  ∧ ∀ u, u ∈ previewUrls (selected (handleFiles p (Some files) st r).1.1) →
         u ∉ revocations r → u ∉ revocations (handleFiles p (Some files) st r).1.2.
Proof.
  intros Hne Hown.
  assert (revocations (handleFiles p (Some files) st r).1.2
          = revocations r ++ previewUrls (selected st)) as Hrev.
  { rewrite handleFiles_some by done. cbn [fst snd].
    by rewrite revokePreviews_revocations, makePreviews_revocations. }
  split; [done|]. split; [apply Hown|].
  intros u Hu Hr. rewrite Hrev, not_elem_of_app. split; [done|].
  by eapply handleFiles_new_not_old.
Qed.

(** C12: [handleFiles] partitions its input: the selection holds the valid
    files (the first one only without [multiple]) in the order of the input,
    the errors are the messages of the other files in that order, and every
    file is on exactly one side. *)
Theorem handleFiles_partition p files st r :
  files ≠ [] →
  file <$> selected (handleFiles p (Some files) st r).1.1
  = (if multiple p then validFiles p files else take 1 (validFiles p files))
  ∧ errors (handleFiles p (Some files) st r).1.1 = rejections p files
  ∧ length (validFiles p files) + length (rejections p files) = length files.
Proof.
  intros Hne. destruct (handleFiles_sides p files st r Hne) as [-> ->].
  split; [done|split; [done|apply length_filter_omap]].
Qed.

(** C31: without [multiple], no reachable state has more than one selected
    file, however many files are dropped. *)
Theorem reachable_single p (r0 : R) st r :
  multiple p = false → reachable p r0 st r → length (selected st) ≤ 1.
Proof.
  intros Hsingle.
  apply (reachable_invariant (λ st (_ : R), length (selected st) ≤ 1)).
  - apply single_on_selection.
  - intros [files|] st' r' Hle; [|done].
    destruct (decide (files = [])) as [->|Hne]; [done|].
    rewrite handleFiles_some by done. cbn [selected fst]. rewrite Hsingle.
    apply length_take_1.
  - intros st' r' _. simpl. lia.
  - simpl. lia.
Qed.

(** C32: a file that matches the accept specification and is larger than
    [maxSize] is rejected, with a message that names the file and gives
    both its size and the limit in human-readable form; it is not
    selected. *)
Theorem handleFiles_too_large p files st r f limit :
  f ∈ files → matchesAccept f (accept p) = true →
  maxSize p = Some limit → (limit < size f)%N →
  (name f ++ js ": too large (" ++ humanFileSize (size f) ++ js " > "
          ++ humanFileSize limit ++ js ")")
    ∈ errors (handleFiles p (Some files) st r).1.1
  ∧ f ∉ file <$> selected (handleFiles p (Some files) st r).1.1.
Proof.
  intros Hf Hm Hl Hs.
  assert (files ≠ []) as Hne by (by intros ->; apply elem_of_nil in Hf).
  pose proof (verdict_too_large p f limit Hm Hl Hs) as Hv.
  destruct (handleFiles_sides p files st r Hne) as [-> ->]. split.
  - apply elem_of_rejections. by exists f.
  - assert (f ∉ validFiles p files) as Hnot.
    { rewrite elem_of_validFiles, Hv. by intros [_ [=]]. }
    destruct (multiple p); [done|]. intros Hin. apply Hnot.
    by eapply subseteq_take.
Qed.

(** C5: [handleFiles] implements the staging contract of the
    specification: the selection and the errors it installs are the
    accepted candidates and the rejections of [stage], and the same URLs
    are revoked; the registry is the contract's when [multiple] is set or
    no valid file after the first gets a URL, and otherwise holds at least
    the contract's URLs. *)
Theorem handleFiles_refines_stage p files st r :
  files ≠ [] →
  let code := handleFiles p (Some files) st r in
  let contract := stage p files (selected st) r in
  selected code.1.1 = stageAccepted contract.1
  ∧ errors code.1.1 = stageRejected contract.1
  ∧ revocations contract.2 = revocations code.1.2
  ∧ liveUrls contract.2 ⊆ liveUrls code.1.2
  ∧ (multiple p = true
     ∨ previewUrls (drop 1 (makePreviews (showPreviews p) (validFiles p files) r).1) = [] →
     code.1.2 = contract.2).
Proof.
  intros Hne code contract.
  destruct (handleFiles_stage_view p files st r Hne) as [Hsel Herr].
  destruct (handleFiles_stage_sub p files st r Hne) as [Hsub Hrev].
  repeat split; try done. by apply handleFiles_stage_registry.
Qed.

(** C33: [onUpload] is called exactly when at least one file is valid: with
    the first valid file, the one selected, without [multiple], and with
    all the valid files, the ones selected, with it. *)
Theorem handleFiles_notify p files st r :
  files ≠ [] → onUpload p = true →
  match (handleFiles p (Some files) st r).2 with
  | [] => validFiles p files = []
  | [CallOnUpload (OneFile f)] =>
      multiple p = false
      ∧ file <$> selected (handleFiles p (Some files) st r).1.1 = [f]
      ∧ head (validFiles p files) = Some f
  | [CallOnUpload (ManyFiles fs)] =>
      multiple p = true ∧ fs ≠ []
      ∧ file <$> selected (handleFiles p (Some files) st r).1.1 = fs
  | _ => False
  end.
Proof.
  intros Hne Hcb. destruct (handleFiles_sides p files st r Hne) as [-> _].
  rewrite handleFiles_some by done. cbn [snd]. unfold notify. rewrite Hcb.
  destruct (validFiles p files) as [|f valid]; [done|].
  by destruct (multiple p).
Qed.

(** C34: a selected file has a preview URL exactly when previews are shown
    and its type starts with [image/]. *)
Theorem handleFiles_preview_iff p files st r s :
  files ≠ [] → s ∈ selected (handleFiles p (Some files) st r).1.1 →
  is_Some (previewUrl s)
  ↔ showPreviews p = true ∧ startsWith (type (file s)) (js "image/") = true.
Proof.
  intros Hne. rewrite handleFiles_some by done. cbn [selected fst]. intros Hs.
  eapply makePreviews_previewUrl.
  destruct (multiple p); [done|]. by eapply subseteq_take.
Qed.

(** C35: [clearSelection] empties the selection and the errors, revokes
    every preview URL of the selection exactly once and unregisters
    nothing else. *)
Theorem clearSelection_releases st r :
  selected (clearSelection st r).1 = []
  ∧ errors (clearSelection st r).1 = []
  ∧ revocations (clearSelection st r).2 = revocations r ++ previewUrls (selected st)
  ∧ liveUrls (clearSelection st r).2
    = liveUrls r ∖ list_to_set (previewUrls (selected st)).
Proof.
  split; [done|]. split; [done|]. split.
  - apply revokePreviews_revocations.
  - apply clearSelection_live.
Qed.

(** The items of the preview block, when there is one. *)
Lemma render_previews p st :
  default [] (previewBlock (render p st))
  = imap (λ idx s, (previewKey s idx, renderPreview s)) (selected st).
Proof. unfold render. cbn [previewBlock]. by destruct (selected st). Qed.

(** Every image the component shows has a registered source that
    resolves to the file whose name is its alternative text. *)
Theorem render_images_registered p (r0 : R) st r key src alt :
  reachable p r0 st r →
  (key, ImageView src alt) ∈ default [] (previewBlock (render p st)) →
  src ∈ liveUrls r
  ∧ ∃ f, resolveUrl src r = Some f ∧ name f = alt.
Proof.
  intros [[_ Hlive] Hfaith]%reachable_owned_faithful. rewrite render_previews.
  intros (idx & s & [= -> Hview] & Hs)%elem_of_lookup_imap.
  unfold renderPreview in Hview. destruct (previewUrl s) as [u|] eqn:Hu; [|done].
  injection Hview as -> ->.
  apply list_elem_of_lookup_2 in Hs. split.
  - apply Hlive, elem_of_previewUrls. by exists s.
  - exists (file s). split; [by apply Hfaith|done].
Qed.

End properties.

(** The validation loop of [handleFiles], which pushes onto two
    arrays, computes the partition of the input by [verdict]. *)
Theorem checkFiles_is_partition {math : FloatLog} (p : Props) (files : list File) :
  checkFiles p files
  = (filter (λ f, verdict p f = None) files, omap (verdict p) files).
Proof. apply checkFiles_partition. Qed.

(** ** The properties at concrete inputs, on the host [exactLog] *)

#[local] Existing Instance exactLog.

Lemma reachable_owned_witness :
  owned (run imageProps session initialState (browser_empty (B := File))).1
        (run imageProps session initialState (browser_empty (B := File))).2
  ∧ faithful (run imageProps session initialState (browser_empty (B := File))).1
             (run imageProps session initialState (browser_empty (B := File))).2.
Proof. apply (reachable_owned imageProps browser_empty), run_reachable. Defined.

Lemma reachable_leak_free_witness :
  leak_free (browser_empty (B := File))
    (run galleryProps session initialState browser_empty).1
    (run galleryProps session initialState browser_empty).2.
Proof.
  apply (reachable_leak_free galleryProps browser_empty); [done|].
  apply run_reachable.
Defined.

(** Two images dropped on the single-file component: the URL of the second
    one stays registered through a clear and a new selection. *)
Lemma handleFiles_leak_forever_witness :
  stray 1 (run imageProps [ClearClick; InputChange (Some [scan])]
               dropTwo.1.1 dropTwo.1.2).1
          (run imageProps [ClearClick; InputChange (Some [scan])]
               dropTwo.1.1 dropTwo.1.2).2.
Proof.
  apply (handleFiles_leak_forever imageProps [photo; scan] initialState
           browser_empty 1); [done|done|apply initial_owned|compute_done].
Defined.

Lemma handleFiles_revokes_previous_witness :
  revocations (handleFiles galleryProps (Some [scan]) dropGallery.1.1 dropGallery.1.2).1.2
  = revocations dropGallery.1.2 ++ previewUrls (selected dropGallery.1.1)
  ∧ NoDup (previewUrls (selected dropGallery.1.1))
  ∧ ∀ u, u ∈ previewUrls (selected
             (handleFiles galleryProps (Some [scan]) dropGallery.1.1 dropGallery.1.2).1.1) →
         u ∉ revocations dropGallery.1.2 →
         u ∉ revocations
               (handleFiles galleryProps (Some [scan]) dropGallery.1.1 dropGallery.1.2).1.2.
Proof.
  apply (handleFiles_revokes_previous galleryProps [scan]); [done|].
  apply handleFiles_owned, initial_owned.
Defined.

Lemma handleFiles_partition_witness :
  file <$> selected dropGallery.1.1
  = (if multiple galleryProps then validFiles galleryProps [photo; report; scan]
     else take 1 (validFiles galleryProps [photo; report; scan]))
  ∧ errors dropGallery.1.1 = rejections galleryProps [photo; report; scan]
  ∧ length (validFiles galleryProps [photo; report; scan])
    + length (rejections galleryProps [photo; report; scan]) = 3.
Proof.
  apply (handleFiles_partition galleryProps [photo; report; scan] initialState
           browser_empty). done.
Defined.

Lemma reachable_single_witness :
  length (selected (run imageProps session initialState
                      (browser_empty (B := File))).1) ≤ 1.
Proof.
  apply (reachable_single imageProps browser_empty _
           (run imageProps session initialState browser_empty).2); [done|].
  apply run_reachable.
Defined.

Lemma handleFiles_too_large_witness :
  (js "big.png: too large (2.00 KB > 1000.00 B)")
    ∈ errors (handleFiles imageProps
                (Some [mkFile (js "big.png") (js "image/png") 2048])
                initialState (browser_empty (B := File))).1.1
  ∧ mkFile (js "big.png") (js "image/png") 2048
    ∉ file <$> selected (handleFiles imageProps
                           (Some [mkFile (js "big.png") (js "image/png") 2048])
                           initialState (browser_empty (B := File))).1.1.
Proof.
  refine (handleFiles_too_large imageProps
            [mkFile (js "big.png") (js "image/png") 2048] initialState browser_empty
            (mkFile (js "big.png") (js "image/png") 2048) 1000 _ _ _ _);
    [compute_done|compute_done|done|done].
Defined.

Lemma handleFiles_refines_stage_witness :
  selected dropTwo.1.1
  = stageAccepted (stage imageProps [photo; scan] [] (browser_empty (B := File))).1
  ∧ errors dropTwo.1.1
    = stageRejected (stage imageProps [photo; scan] [] (browser_empty (B := File))).1
  ∧ revocations (stage imageProps [photo; scan] [] (browser_empty (B := File))).2
    = revocations dropTwo.1.2
  ∧ liveUrls (stage imageProps [photo; scan] [] (browser_empty (B := File))).2
    ⊆ liveUrls dropTwo.1.2
  ∧ (multiple imageProps = true
     ∨ previewUrls (drop 1 (makePreviews (showPreviews imageProps)
                              (validFiles imageProps [photo; scan])
                              (browser_empty (B := File))).1) = [] →
     dropTwo.1.2 = (stage imageProps [photo; scan] [] (browser_empty (B := File))).2).
Proof.
  apply (handleFiles_refines_stage imageProps [photo; scan] initialState
           browser_empty). done.
Defined.

Lemma handleFiles_notify_witness :
  match dropTwo.2 with
  | [] => validFiles imageProps [photo; scan] = []
  | [CallOnUpload (OneFile f)] =>
      multiple imageProps = false
      ∧ file <$> selected dropTwo.1.1 = [f]
      ∧ head (validFiles imageProps [photo; scan]) = Some f
  | [CallOnUpload (ManyFiles fs)] =>
      multiple imageProps = true ∧ fs ≠ []
      ∧ file <$> selected dropTwo.1.1 = fs
  | _ => False
  end.
Proof.
  apply (handleFiles_notify imageProps [photo; scan] initialState browser_empty);
    done.
Defined.

Lemma handleFiles_preview_iff_witness :
  is_Some (previewUrl (mkSelected photo (Some 0)))
  ↔ showPreviews galleryProps = true
    ∧ startsWith (type (file (mkSelected photo (Some 0)))) (js "image/") = true.
Proof.
  apply (handleFiles_preview_iff galleryProps [photo; report; scan] initialState
           (browser_empty (B := File))); [done|compute_done].
Defined.

Lemma clearSelection_releases_witness :
  selected (clearSelection dropGallery.1.1 dropGallery.1.2).1 = []
  ∧ errors (clearSelection dropGallery.1.1 dropGallery.1.2).1 = []
  ∧ revocations (clearSelection dropGallery.1.1 dropGallery.1.2).2
    = revocations dropGallery.1.2 ++ previewUrls (selected dropGallery.1.1)
  ∧ liveUrls (clearSelection dropGallery.1.1 dropGallery.1.2).2
    = liveUrls dropGallery.1.2 ∖ list_to_set (previewUrls (selected dropGallery.1.1)).
Proof. apply (clearSelection_releases dropGallery.1.1 dropGallery.1.2). Defined.

Lemma render_images_registered_witness :
  0 ∈ liveUrls (run galleryProps [Drop (Some [photo; scan])] initialState
                  (browser_empty (B := File))).2
  ∧ ∃ f, resolveUrl 0 (run galleryProps [Drop (Some [photo; scan])] initialState
                         (browser_empty (B := File))).2 = Some f
         ∧ name f = js "a.png".
Proof.
  apply (render_images_registered galleryProps browser_empty
           (run galleryProps [Drop (Some [photo; scan])] initialState browser_empty).1
           _ (js "a.png-500-0") 0 (js "a.png")); [apply run_reachable|compute_done].
Defined.

(** The examples of the specification, evaluated: one image under the
    limit gives one candidate with a preview handle and no rejection; two
    images on the single-file component leave two URLs registered for one
    selected file. *)
Example stage_example :
  stage imageProps [photo] [] (browser_empty (B := File))
  = (mkStageResult [mkSelected photo (Some 0)] [],
     mkBrowser {[ 0 := photo ]} []).
Proof. by vm_compute. Qed.

Example dropTwo_example :
  selected dropTwo.1.1 = [mkSelected photo (Some 0)]
  ∧ errors dropTwo.1.1 = []
  ∧ liveUrls dropTwo.1.2 = {[ 0; 1 ]}
  ∧ dropTwo.2 = [CallOnUpload (OneFile photo)].
Proof. by vm_compute. Qed.
