(* ===== verification/Gateway.v ===== *)
(** * Gateway: the HTTP wrappers of [src/src/services/api.js]

    Each wrapper issues one request and turns its outcome into a value: the
    body of the response, or a fallback when the request fails.  The request
    itself is the environment's business; what the development sees of it
    is the request that was built ([Request]) and how it ended ([Http]). *)

From S2P Require Import Prelude JsString FileFilter.

(** ** Requests and outcomes *)

(** [const API_BASE_URL = "http://localhost:8000"] *)
Definition API_BASE_URL : jsstr := js "http://localhost:8000".

(** What is sent with a POST: the JSON object [{ message, role }], or a
    form whose field [file] is what the caller passed. *)
Inductive Body :=
  | ChatBody (message role : jsstr)
  | FormBody (file : UploadArg).

(** A request as [axios] is asked to make it. *)
Inductive Request :=
  | Post (url : jsstr) (body : Body)
  | Get (url : jsstr).

(** How a request ends: [axios] resolves with a response, whose [data] is
    the parsed body, or rejects (network failure, status outside 2xx). *)
Inductive Http (T : Type) :=
  | HttpOk (data : T)
  | HttpFail.
Arguments HttpOk {T} _.
Arguments HttpFail {T}.

(** ** Bodies of the responses

    A body is [None] when [response.data] is [undefined] or [null]; a field
    is [None] when it is absent or [null]. *)

(** [{ reply }] *)
Record ChatData := mkChatData {
  reply : option jsstr;
}.

(** [{ message }] or [{ error }] *)
Record UploadData := mkUploadData {
  message : option jsstr;
  error : option jsstr;
}.

(** The [files] field of the listing: absent or falsy, an array of names,
    or some other truthy value. *)
Inductive FilesField :=
  | FilesMissing
  | FilesArray (names : list jsstr)
  | FilesOther.

(** [{ files }] *)
Record ListData := mkListData {
  files : FilesField;
}.

(** What [listFiles] returns: an array, or the truthy non-array it found in
    [files]. *)
Inductive FilesValue :=
  | ArrayValue (names : list jsstr)
  | OtherValue.

(** ** Requests made with [fetch]

    The page reads the documents themselves with [fetch], which resolves
    with a response whatever its status and rejects only when no response
    arrives. *)

(** How a [fetch] ends, for a body of type [T]: rejected, or a response
    with its [ok] flag and its body, [None] when reading the body fails. *)
Inductive Fetch (T : Type) :=
  | FetchRejected
  | FetchResponse (ok : bool) (body : option T).
Arguments FetchRejected {T}.
Arguments FetchResponse {T} _ _.

(** [{ text }], the body of the answer to [process_pdf]. *)
Record ProcessData := mkProcessData {
  text : option jsstr;
}.

(** ** [sendMessage] *)

Definition sendMessageRequest (msg role : jsstr) : Request :=
  Post (API_BASE_URL ++ js "/chat") (ChatBody msg role).

(** The value of [await sendMessage(message, role)], given how the request
    ended. *)
Definition sendMessage (outcome : Http (option ChatData)) : option ChatData :=
  match outcome with
  | HttpOk data => data
  | HttpFail => Some (mkChatData (Some (js "Failed to send message")))
  end.

(** ** [uploadFile] *)

Definition uploadFileRequest (file : UploadArg) (role : jsstr) : Request :=
  Post (API_BASE_URL ++ js "/upload/" ++ role) (FormBody file).

Definition uploadFile (outcome : Http (option UploadData)) : option UploadData :=
  match outcome with
  | HttpOk data => data
  | HttpFail => Some (mkUploadData None (Some (js "Failed to upload file")))
  end.

(** ** [listFiles] *)

Definition listFilesRequest (role : jsstr) : Request :=
  Get (API_BASE_URL ++ js "/list/" ++ role).

(** [response.data.files || []]; reading [files] off an absent body throws
    inside the [try], which gives the empty array of the [catch]. *)
Definition listFiles (outcome : Http (option ListData)) : FilesValue :=
  match outcome with
  | HttpOk (Some data) =>
      match files data with
      | FilesMissing => ArrayValue []
      | FilesArray names => ArrayValue names
      | FilesOther => OtherValue
      end
  | HttpOk None => ArrayValue []
  | HttpFail => ArrayValue []
  end.

(** ** The wrappers never fail *)

Section wrappers.
Implicit Types (role msg : jsstr).

(** Every request of the gateway goes to the fixed base URL. *)
Lemma request_url_base (f : UploadArg) role msg :
  ∀ req, req ∈ [sendMessageRequest msg role; uploadFileRequest f role;
                listFilesRequest role] →
  startsWith (match req with Post url _ | Get url => url end) API_BASE_URL = true.
Proof.
  intros req Hreq. repeat apply elem_of_cons in Hreq as [->|Hreq];
    [apply startsWith_app..|by apply elem_of_nil in Hreq].
Qed.

(** A failed chat request yields a reply object, so that the caller's own
    [catch] never runs. *)
Lemma sendMessage_fail :
  sendMessage HttpFail = Some (mkChatData (Some (js "Failed to send message"))).
Proof. done. Qed.

(** A failed upload yields an object without [message]. *)
Lemma uploadFile_fail_message :
  message <$> uploadFile HttpFail = Some None.
Proof. done. Qed.

(** The listing is the array the server sent, when it sent one. *)
Lemma listFiles_array (outcome : Http (option ListData)) names :
  listFiles outcome = ArrayValue names →
  names = []
  ∨ outcome = HttpOk (Some (mkListData (FilesArray names))).
Proof.
  destruct outcome as [[[[]]|]|]; simpl; intros [= <-]; auto.
Qed.

End wrappers.
