(* ===== verification/ChatView.v ===== *)
(** * ChatView: the transcript of [src/src/components/ChatWindow.jsx]

    The chat window renders the messages it is given: each gets a key and
    a content, in which the text is cut into plain stretches and links
    ([linkify]).  After every change of the messages it scrolls to the end
    when the reader is near the bottom ([isNearBottom]). *)

From Stdlib Require Import DecimalString.
From S2P Require Import Prelude JsString.

#[local] Open Scope char_scope.

(** ** Messages *)

(** The value of [msg.text]: a string, [undefined], [null], or a value of
    another type, of which the window looks only at what [String] prints. *)
Inductive TextValue :=
  | TextString (s : jsstr)
  | TextUndefined
  | TextNull
  | TextOther (printed : jsstr).

#[export] Instance TextValue_eq_dec : EqDecision TextValue.
Proof. solve_decision. Defined.

(** [{ id?, sender, text }]; [id] and [sender] are read through [??] only,
    which takes [undefined] and [null] alike: [None]. *)
Record ChatMessage := mkMessage {
  id : option jsstr;
  sender : option jsstr;
  text : TextValue;
}.

#[export] Instance ChatMessage_eq_dec : EqDecision ChatMessage.
Proof. solve_decision. Defined.

(** ** The regular expression [/(https?:\/\/[^\s]+)/g] *)

(** [[^\s]+], as far as it goes. *)
Fixpoint nonSpaceRun (s : jsstr) : jsstr :=
  match s with
  | [] => []
  | c :: s' => if Ascii.is_space c then [] else c :: nonSpaceRun s'
  end.

(** The match of [scheme[^\s]+] at the start of [s]. *)
Definition schemeAt (scheme s : jsstr) : option jsstr :=
  if startsWith s scheme then
    match nonSpaceRun (drop (length scheme) s) with
    | [] => None
    | run => Some (scheme ++ run)
    end
  else None.

(** The match of the expression at the start of [s]: the [s] of [https?]
    is tried first. *)
Definition urlAt (s : jsstr) : option jsstr :=
  match schemeAt (js "https://") s with
  | Some m => Some m
  | None => schemeAt (js "http://") s
  end.

(** The first match in [s], whose first character has the index [index]
    in the whole text. *)
Fixpoint search (s : jsstr) (index : nat) : option (nat * jsstr) :=
  match urlAt s with
  | Some m => Some (index, m)
  | None =>
      match s with
      | [] => None
      | _ :: s' => search s' (S index)
      end
  end.

(** [urlRegex.exec(text)] with the expression's [lastIndex] at
    [lastIndex]: the index and the text of the next match. *)
Definition exec (text : jsstr) (lastIndex : nat) : option (nat * jsstr) :=
  if decide (lastIndex ≤ length text) then search (drop lastIndex text) lastIndex
  else None.

(** ** [linkify] *)

(** A node of the result: a plain string, or an anchor with its key, whose
    [href] and text are the match. *)
Inductive Part :=
  | Plain (s : jsstr)
  | Anchor (key : nat) (href : jsstr).

#[export] Instance Part_eq_dec : EqDecision Part.
Proof. solve_decision. Defined.

(** The text a node shows. *)
Definition partText (p : Part) : jsstr :=
  match p with
  | Plain s => s
  | Anchor _ href => href
  end.

(** The [while] loop, with the iterations left in [fuel]. *)
Fixpoint linkifyLoop (fuel : nat) (text : jsstr) (lastIndex : nat)
    (parts : list Part) : list Part :=
  match fuel with
  | 0 => parts
  | S fuel =>
      match exec text lastIndex with
      | Some (index, m) =>
          let parts :=
            if decide (lastIndex < index)
            then parts ++ [Plain (slice text lastIndex index)] else parts in
          linkifyLoop fuel text (index + length m) (parts ++ [Anchor index m])
      | None =>
          if decide (lastIndex < length text)
          then parts ++ [Plain (drop lastIndex text)] else parts
      end
  end.

(** [linkify(text)]; a match is not empty, so the loop runs at most once
    per character and once more. *)
Definition linkify (text : jsstr) : list Part :=
  linkifyLoop (S (length text)) text 0 [].

(** ** [isNearBottom] *)

(** The measures of the scroll container. *)
Record Element := mkElement {
  scrollHeight : Z;
  scrollTop : Z;
  clientHeight : Z;
}.

(** [isNearBottom(el, threshold = 120)] *)
Definition isNearBottom (el : option Element) (threshold : Z) : bool :=
  match el with
  | None => true
  | Some el => (scrollHeight el - scrollTop el - clientHeight el <=? threshold)%Z
  end.

(** The effect on [messages]: whether the window scrolls to its end. *)
Definition scrollsToEnd (container : option Element) : bool :=
  match container with
  | None => false
  | Some _ => isNearBottom container 120
  end.

(** ** Rendering *)

(** [String(v)] *)
Definition textString (v : TextValue) : jsstr :=
  match v with
  | TextString s => s
  | TextUndefined => js "undefined"
  | TextNull => js "null"
  | TextOther printed => printed
  end.

(** [String(v ?? "")] *)
Definition textOrEmpty (v : TextValue) : jsstr :=
  match v with
  | TextUndefined | TextNull => []
  | _ => textString v
  end.

(** The key of the message at [idx]. *)
Definition messageKey (msg : ChatMessage) (idx : nat) : jsstr :=
  match id msg with
  | Some i => i
  | None =>
      default (js "unknown") (sender msg) ++ js "-" ++ digits (N.of_nat idx)
      ++ js "-" ++ slice (textOrEmpty (text msg)) 0 24
  end.

(** What is shown of a message: its class, its label and its content. *)
Record MessageView := mkMessageView {
  key : jsstr;
  className : jsstr;
  senderLabel : jsstr;
  content : list Part;
}.

(** The content: a string is cut by [linkify], any other value is printed
    by [String]. *)
Definition messageContent (msg : ChatMessage) : list Part :=
  match text msg with
  | TextString t => linkify t
  | v => [Plain (textString v)]
  end.

Definition renderMessage (idx : nat) (msg : ChatMessage) : MessageView :=
  mkMessageView (messageKey msg idx)
    (js "chat-message " ++ default [] (sender msg))
    (default (js "user") (sender msg))
    (messageContent msg).

(** The children of the window, in order. *)
Definition renderMessages (messages : list ChatMessage) : list MessageView :=
  imap renderMessage messages.

(** ** What the properties speak of *)

(** A string without white space. *)
Definition noSpace (s : jsstr) : Prop := Forall (λ c, Ascii.is_space c = false) s.

(** A string in which the expression matches nowhere. *)
Definition linkFree (s : jsstr) : Prop := ∀ i, urlAt (drop i s) = None.

(** A part that [linkify] may return for [text]: a plain part is not
    empty and holds no match, a link is a match of the expression at its
    index. *)
Definition goodPart (text : jsstr) (p : Part) : Prop :=
  match p with
  | Plain s => s ≠ [] ∧ linkFree s
  | Anchor index href => urlAt (drop index text) = Some href
  end.

(** The text the parts show, put end to end. *)
Definition partsText (parts : list Part) : jsstr := concat (partText <$> parts).

(** A message as the page makes them: without [id], sent by the user or
    by the bot. *)
Definition homeMessage (m : ChatMessage) : Prop :=
  id m = None ∧ (sender m = Some (js "user") ∨ sender m = Some (js "bot")).

(** * Properties *)

(** ** The regular expression *)

Section regex.
Implicit Types (s m scheme text : jsstr) (index lastIndex : nat).

Lemma nonSpaceRun_prefix s : nonSpaceRun s `prefix_of` s.
Proof.
  induction s as [|c s IH]; simpl; [done|].
  destruct (Ascii.is_space c); [apply prefix_nil|by apply prefix_cons].
Qed.

Lemma nonSpaceRun_noSpace s : noSpace (nonSpaceRun s).
Proof.
  induction s as [|c s IH]; simpl; [constructor|].
  destruct (Ascii.is_space c) eqn:E; by constructor.
Qed.

Lemma schemeAt_Some scheme s m :
  schemeAt scheme s = Some m →
  ∃ run, m = scheme ++ run ∧ run ≠ [] ∧ noSpace run ∧ m `prefix_of` s.
Proof.
  unfold schemeAt. destruct (startsWith s scheme) eqn:E; [|done].
  apply startsWith_true in E as [k ->]. rewrite drop_app_length.
  destruct (nonSpaceRun k) as [|c run] eqn:Hrun; intros [= <-].
  exists (c :: run). split_and!; [done|done|..].
  - rewrite <-Hrun. apply nonSpaceRun_noSpace.
  - apply prefix_app. rewrite <-Hrun. apply nonSpaceRun_prefix.
Qed.

(** What the expression matches: a scheme, then at least one character,
    none of them white space, at the start of the string. *)
Lemma urlAt_Some s m :
  urlAt s = Some m →
  m `prefix_of` s ∧ noSpace m ∧ 7 < length m
  ∧ (startsWith m (js "http://") = true ∨ startsWith m (js "https://") = true).
Proof.
  unfold urlAt. destruct (schemeAt (js "https://") s) as [m'|] eqn:E.
  - intros [= ->]. apply schemeAt_Some in E as (run & -> & Hne & Hrun & Hpre).
    split_and!; [done| |rewrite length_app; destruct run; simpl; [done|lia]
                |right; apply startsWith_app].
    apply Forall_app. split; [by repeat constructor|done].
  - intros (run & -> & Hne & Hrun & Hpre)%schemeAt_Some.
    split_and!; [done| |rewrite length_app; destruct run; simpl; [done|lia]
                |left; apply startsWith_app].
    apply Forall_app. split; [by repeat constructor|done].
Qed.

Lemma search_Some s index j m :
  search s index = Some (j, m) →
  index ≤ j ∧ urlAt (drop (j - index) s) = Some m.
Proof.
  revert index. induction s as [|c s IH]; intros index; simpl.
  - done.
  - destruct (urlAt (c :: s)) eqn:E.
    + intros [= <- <-]. by rewrite Nat.sub_diag.
    + intros [Hle Hm]%IH. split; [lia|].
      by replace (j - index) with (S (j - S index)) by lia.
Qed.

Lemma exec_Some text lastIndex j m :
  exec text lastIndex = Some (j, m) →
  lastIndex ≤ j ∧ j + length m ≤ length text ∧ 0 < length m
  ∧ urlAt (drop j text) = Some m ∧ slice text j (j + length m) = m.
Proof.
  unfold exec. case_decide as Hle; [|done].
  intros [Hj Hm]%search_Some. rewrite drop_drop in Hm.
  replace (lastIndex + (j - lastIndex)) with j in Hm by lia.
  pose proof (urlAt_Some _ _ Hm) as ([k Hk] & _ & Hlen & _).
  assert (length (drop j text) = length m + length k) as Hl
    by (by rewrite Hk, length_app).
  rewrite length_drop in Hl. split_and!; [done|lia|lia|done|].
  unfold slice. replace (j + length m - j) with (length m) by lia.
  by rewrite Hk, take_app_length.
Qed.

End regex.

(** ** The expression finds every link *)

Section complete.
Implicit Types (s m scheme text : jsstr) (index lastIndex i j : nat).

Lemma nonSpaceRun_app s k : nonSpaceRun s ≠ [] → nonSpaceRun (s ++ k) ≠ [].
Proof. destruct s as [|c s]; simpl; [done|]. by destruct (Ascii.is_space c). Qed.

Lemma schemeAt_None_prefix scheme s k :
  schemeAt scheme (s ++ k) = None → schemeAt scheme s = None.
Proof.
  unfold schemeAt. destruct (startsWith s scheme) eqn:E; [|done].
  apply startsWith_true in E as [t ->]. rewrite <-(assoc_L (++)), startsWith_app.
  rewrite !drop_app_length.
  destruct (nonSpaceRun t) eqn:Ht; [done|].
  destruct (nonSpaceRun (t ++ k)) eqn:Htk; [|done].
  by destruct (nonSpaceRun_app t k); [rewrite Ht|].
Qed.

(** A string in which the expression does not match at the start has no
    prefix in which it does. *)
Lemma urlAt_None_prefix s k : urlAt (s ++ k) = None → urlAt s = None.
Proof.
  unfold urlAt.
  destruct (schemeAt (js "https://") (s ++ k)) eqn:E; [done|].
  intros E'. by rewrite (schemeAt_None_prefix _ _ _ E), (schemeAt_None_prefix _ _ _ E').
Qed.

Lemma urlAt_nil : urlAt [] = None.
Proof. done. Qed.

Lemma search_None s index : search s index = None → linkFree s.
Proof.
  revert index. induction s as [|c s IH]; intros index; simpl.
  - intros _ i. by rewrite drop_nil.
  - destruct (urlAt (c :: s)) eqn:E; [done|]. intros Hs [|i]; [done|].
    by apply (IH (S index)).
Qed.

(** [search] returns the first match. *)
Lemma search_first s index j m i :
  search s index = Some (j, m) → i < j - index → urlAt (drop i s) = None.
Proof.
  revert index i. induction s as [|c s IH]; intros index i; simpl; [done|].
  destruct (urlAt (c :: s)) eqn:E.
  - intros [= <- <-]. lia.
  - intros Hs Hi. destruct i as [|i]; [done|]. apply (IH (S index)); [done|lia].
Qed.

Lemma linkFree_take s n :
  (∀ i, i < n → urlAt (drop i s) = None) → linkFree (take n s).
Proof.
  intros H i. destruct (decide (i < length (take n s))) as [Hi|Hi].
  - apply (urlAt_None_prefix _ (drop n s)).
    rewrite <-drop_app_le, take_drop by lia. apply H.
    rewrite length_take in Hi. lia.
  - by rewrite drop_ge by lia.
Qed.

Lemma exec_None text lastIndex :
  lastIndex ≤ length text → exec text lastIndex = None → linkFree (drop lastIndex text).
Proof. unfold exec. intros H. rewrite decide_True by done. apply search_None. Qed.

Lemma exec_first text lastIndex j m :
  exec text lastIndex = Some (j, m) → linkFree (slice text lastIndex j).
Proof.
  unfold exec, slice. case_decide; [|done]. intros Hs.
  apply linkFree_take. intros i Hi. by eapply search_first.
Qed.

End complete.

(** ** The loop *)

Section linkify.
Implicit Types (text : jsstr) (parts : list Part) (fuel lastIndex : nat).

Lemma partsText_snoc parts p : partsText (parts ++ [p]) = partsText parts ++ partText p.
Proof. unfold partsText. by rewrite fmap_app, concat_app; simpl; rewrite app_nil_r. Qed.

(** The loop copies the text: with the text up to [lastIndex] in [parts]
    and enough iterations left, it ends with the whole text. *)
Lemma linkifyLoop_text fuel text lastIndex parts :
  lastIndex ≤ length text → length text < fuel + lastIndex →
  partsText parts = take lastIndex text →
  partsText (linkifyLoop fuel text lastIndex parts) = text.
Proof.
  revert lastIndex parts. induction fuel as [|fuel IH]; intros lastIndex parts Hle Hfuel Hparts;
    [lia|]. simpl.
  destruct (exec text lastIndex) as [[j m]|] eqn:E.
  - apply exec_Some in E as (Hj & Hm & Hpos & _ & Hslice).
    apply IH; [lia|lia|]. rewrite partsText_snoc, <-take_take_drop. simpl.
    f_equal; [|by rewrite <-Hslice at 1; unfold slice; f_equal; lia].
    case_decide; [|by replace j with lastIndex by lia].
    rewrite partsText_snoc, Hparts. simpl. unfold slice.
    rewrite take_take_drop. f_equal. lia.
  - case_decide.
    + by rewrite partsText_snoc, Hparts; simpl; rewrite take_drop.
    + rewrite Hparts. apply take_ge. lia.
Qed.

(** More iterations than the text has characters change nothing. *)
Lemma linkifyLoop_fuel fuel fuel' text lastIndex parts :
  lastIndex ≤ length text → length text < fuel + lastIndex →
  length text < fuel' + lastIndex →
  linkifyLoop fuel text lastIndex parts = linkifyLoop fuel' text lastIndex parts.
Proof.
  revert fuel' lastIndex parts.
  induction fuel as [|fuel IH]; intros [|fuel'] lastIndex parts Hle Hf Hf'; try lia.
  simpl. destruct (exec text lastIndex) as [[j m]|] eqn:E; [|done].
  apply exec_Some in E as (Hj & Hm & Hpos & _). apply IH; lia.
Qed.

(** The loop returns good parts only. *)
Lemma linkifyLoop_good fuel text lastIndex parts :
  lastIndex ≤ length text → Forall (goodPart text) parts →
  Forall (goodPart text) (linkifyLoop fuel text lastIndex parts).
Proof.
  revert lastIndex parts.
  induction fuel as [|fuel IH]; intros lastIndex parts Hle Hparts; [done|]. simpl.
  destruct (exec text lastIndex) as [[j m]|] eqn:E.
  - pose proof (exec_first _ _ _ _ E) as Hfree.
    apply exec_Some in E as (Hj & Hm & Hpos & Hurl & Hslice).
    apply IH; [lia|]. apply Forall_app. split; [|by repeat constructor].
    case_decide; [|done]. apply Forall_app. split; [done|].
    apply Forall_singleton. split; [|done]. unfold slice.
    intros Hnil%(f_equal length). rewrite length_take, length_drop in Hnil.
    simpl in Hnil. lia.
  - case_decide; [|done]. apply Forall_app. split; [done|].
    apply Forall_singleton. split; [|by apply exec_None].
    intros Hnil%(f_equal length). rewrite length_drop in Hnil. simpl in Hnil. lia.
Qed.

End linkify.

Section keys.
Implicit Types (m : ChatMessage) (ms : list ChatMessage) (i j : nat).

Lemma uint_no_dash (d : Decimal.uint) :
  "-" ∉ list_ascii_of_string (DecimalString.NilEmpty.string_of_uint d).
Proof.
  induction d; simpl; [apply not_elem_of_nil|..];
    (apply not_elem_of_cons; split; [done|exact IHd]).
Qed.

Lemma digits_no_dash n : "-" ∉ digits n.
Proof. apply uint_no_dash. Qed.

Lemma split_at_first {A} (x : A) l1 l2 r1 r2 :
  x ∉ l1 → x ∉ l2 → l1 ++ x :: r1 = l2 ++ x :: r2 → l1 = l2.
Proof.
  revert l2. induction l1 as [|a l1 IH]; intros [|b l2] H1 H2 E; simplify_eq/=.
  - done.
  - by apply not_elem_of_cons in H2 as [].
  - by apply not_elem_of_cons in H1 as [].
  - apply not_elem_of_cons in H1 as [_ H1]. apply not_elem_of_cons in H2 as [_ H2].
    f_equal. by eapply IH.
Qed.

Lemma messageKey_index m m' i j :
  homeMessage m → homeMessage m' → messageKey m i = messageKey m' j → i = j.
Proof.
  unfold messageKey. intros [-> Hs] [-> Hs'].
  assert (∀ s r r', s ++ js "-" ++ digits (N.of_nat i) ++ js "-" ++ r
                    = s ++ js "-" ++ digits (N.of_nat j) ++ js "-" ++ r' → i = j) as Hsame.
  { intros s r r' E. apply app_inv_head in E. injection E as E.
    apply split_at_first, digits_inj in E; [lia|apply digits_no_dash..]. }
  destruct Hs as [-> | ->], Hs' as [-> | ->];
    [apply (Hsame (js "user"))| | |apply (Hsame (js "bot"))];
    unfold js; simpl; by intros [=].
Qed.

(** The keys of the messages the page produces are pairwise distinct. *)
Lemma renderMessages_keys ms :
  Forall homeMessage ms → NoDup (key <$> renderMessages ms).
Proof.
  intros Hms. apply NoDup_alt. intros i j k.
  unfold renderMessages. rewrite !list_lookup_fmap, !list_lookup_imap.
  destruct (ms !! i) as [m|] eqn:Hi, (ms !! j) as [m'|] eqn:Hj; simpl; try done.
  intros [= <-] [= E]. symmetry in E. revert E. apply messageKey_index.
  - by eapply Forall_lookup_1 in Hi.
  - by eapply Forall_lookup_1 in Hj.
Qed.

End keys.

Section statements.
Implicit Types (text href : jsstr) (index : nat).

(** C23: [linkify] loses nothing and adds nothing: the texts of the parts,
    put end to end, are the message. *)
Theorem linkify_text text : partsText (linkify text) = text.
Proof. apply linkifyLoop_text; [lia|lia|done]. Qed.

(** C24: every part [linkify] returns is well formed, and no link is
    missed: a plain part is not empty and the expression matches nowhere in
    it; a link is the stretch of the message that starts at its key, begins
    with [http://] or [https://], goes on for at least one more character
    and holds no white space. *)
Theorem linkify_parts text p :
  p ∈ linkify text →
  match p with
  | Plain s => s ≠ [] ∧ linkFree s
  | Anchor index href =>
      slice text index (index + length href) = href
      ∧ (startsWith href (js "http://") = true
         ∨ startsWith href (js "https://") = true)
      ∧ 7 < length href ∧ noSpace href
  end.
Proof.
  intros Hp.
  pose proof (linkifyLoop_good (S (length text)) text 0 [] (Nat.le_0_l _)
                (Forall_nil_2 _)) as H.
  eapply Forall_forall in H; [|exact Hp]. destruct p as [s|index href]; [done|].
  simpl in H. apply urlAt_Some in H as ([k Hk] & Hns & Hlen & Hscheme).
  split_and!; try done. unfold slice.
  replace (index + length href - index) with (length href) by lia.
  by rewrite Hk, take_app_length.
Qed.

(** C25: the loop of [linkify] ends within one iteration per character of
    the message and one more: allowing it more changes nothing. *)
Theorem linkify_terminates text n :
  linkifyLoop (S (length text) + n) text 0 [] = linkify text.
Proof. apply linkifyLoop_fuel; lia. Qed.

End statements.

(** ** The properties at concrete inputs *)

Lemma linkify_parts_witness :
  slice (js "see https://a.b/c now") 4 17 = js "https://a.b/c".
Proof.
  by apply (linkify_parts (js "see https://a.b/c now") (Anchor 4 (js "https://a.b/c")));
    compute_done.
Defined.
