(* ===== verification/Widgets.v ===== *)
(** * Widgets: the input line and the role selector

    [SearchBar] models [src/src/components/SearchBar.jsx] and
    [PersonaSelector] models [src/src/components/PersonaSelector.jsx]: two
    controlled components without state of their own.  A handler returns
    the calls it makes on its props. *)

From S2P Require Import Prelude JsString.

#[local] Open Scope char_scope.

(** ** [SearchBar] *)

Module SearchBar.

(** The props the handlers and the markup read; [onSubmit] is the boolean
    that says whether the prop was given. *)
Record SearchProps := mkSearchProps {
  value : jsstr;
  onSubmit : bool;
  disabled : bool;
  showClear : bool;
  multiline : bool;
}.

(** The props when only [value] and [onChange] are given. *)
Definition searchDefaults (value : jsstr) : SearchProps :=
  mkSearchProps value false false true false.

(** What a handler does. *)
Inductive SearchEffect :=
  | PreventDefault
  | CallOnSubmit
  | CallOnChange (value : jsstr)
  | Focus.

#[export] Instance SearchEffect_eq_dec : EqDecision SearchEffect.
Proof. solve_decision. Defined.

(** [handleKeyDown(e)] with [e.key] and [e.shiftKey]. *)
Definition handleKeyDown (p : SearchProps) (key : jsstr) (shiftKey : bool)
    : list SearchEffect :=
  if bool_decide (key = js "Enter") && negb shiftKey && negb (multiline p) then
    PreventDefault :: (if onSubmit p then [CallOnSubmit] else [])
  else [].

(** [handleClear()]; [current] says whether [ref] is an object whose
    [current] is set. *)
Definition handleClear (p : SearchProps) (current : bool) : list SearchEffect :=
  if disabled p then []
  else CallOnChange [] :: (if current then [Focus] else []).

(** The [onChange] of the input. *)
Definition inputChange (targetValue : jsstr) : list SearchEffect :=
  [CallOnChange targetValue].

(** Whether the clear button is rendered. *)
Definition clearShown (p : SearchProps) : bool :=
  showClear p && negb (disabled p) && truthy (value p)
  && bool_decide (0 < length (value p)).

(** The value [onChange] was last called with, if it was called. *)
Definition changedTo (effects : list SearchEffect) : option jsstr :=
  last (omap (λ e, match e with CallOnChange v => Some v | _ => None end) effects).

End SearchBar.

(** ** [PersonaSelector] *)

Module PersonaSelector.

(** The first letter of the role, in upper case, or a question mark. *)
Definition badgeText (selectedRole : jsstr) : jsstr :=
  if truthy selectedRole then toUpperCase (charAt selectedRole 0) else js "?".

(** The values of the options, in order. *)
Definition options (roles : list jsstr) : list jsstr := roles.

(** The [onChange] of the select: the value of the chosen option, when
    [onChange] is given. *)
Definition selectChange (onChange : bool) (targetValue : jsstr) : option jsstr :=
  if onChange then Some targetValue else None.

End PersonaSelector.

(** ** Properties *)

Section search_bar.
Import SearchBar.
Implicit Types (p : SearchProps) (key : jsstr).

(** The Enter key is always taken from the browser on a one-line input;
    the page hears of it only when it gave [onSubmit]. *)
Lemma handleKeyDown_enter p :
  multiline p = false →
  handleKeyDown p (js "Enter") false
  = PreventDefault :: (if onSubmit p then [CallOnSubmit] else []).
Proof. unfold handleKeyDown. by intros ->. Qed.

Lemma handleKeyDown_other p key shift :
  key ≠ js "Enter" → handleKeyDown p key shift = [].
Proof. intros. unfold handleKeyDown. by rewrite bool_decide_eq_false_2. Qed.

(** No key changes the value. *)
Lemma handleKeyDown_value p key shift :
  changedTo (handleKeyDown p key shift) = None.
Proof. unfold handleKeyDown. by repeat case_match. Qed.

(** The clear button, where it is shown, empties the value. *)
Lemma handleClear_shown p current :
  clearShown p = true → changedTo (handleClear p current) = Some [].
Proof.
  unfold clearShown, handleClear. destruct (disabled p); simpl.
  - by rewrite andb_false_r.
  - by destruct current.
Qed.

(** The clear button is shown exactly on a value that is not empty, for
    the props left at their defaults. *)
Lemma clearShown_defaults v : clearShown (searchDefaults v) = truthy v.
Proof.
  unfold clearShown, truthy; simpl. destruct v; [done|].
  rewrite !bool_decide_eq_true_2; [done|simpl; lia|done].
Qed.

End search_bar.

Section persona.
Import PersonaSelector.

Lemma badgeText_length r : length (badgeText r) = 1.
Proof. by destruct r. Qed.

Lemma badgeText_upper r : toUpperCase (badgeText r) = badgeText r.
Proof.
  destruct r as [|c r]; [done|].
  unfold badgeText; simpl. by rewrite upperChar_idemp.
Qed.

End persona.
