(* ===== verification/Home.v ===== *)
(** * Home: the handlers of the page [src/src/pages/Home.js]

    The page keeps eleven state cells and four asynchronous handlers.  A
    handler that awaits a request is cut at the [await]: its first half
    changes the cells and names the request it waits for (a [Task]); its
    second half ([...Done]) is what runs when the request has ended.  What
    the handler read from its closure before the [await] (the role, the
    mode) travels in the task.  The view ([renderPage]) is what the markup
    shows of the cells. *)

From S2P Require Import Prelude JsString FileFilter Gateway ChatView.

#[local] Open Scope char_scope.

(** ** The state cells *)

(** ["chat"] or ["documents"] *)
Inductive Mode :=
  | Chat
  | Documents.

#[export] Instance Mode_eq_dec : EqDecision Mode.
Proof. solve_decision. Defined.

(** [const roles = ["HR", "Legal", "L1", "L2"]] *)
Definition roles : list jsstr := [js "HR"; js "Legal"; js "L1"; js "L2"].

(** The cells of [useState], in the order of the source. *)
Record Page := mkPage {
  mode : Mode;
  role : jsstr;
  messages : list ChatMessage;
  input : jsstr;
  sending : bool;
  documents : list jsstr;
  previewFile : option jsstr;
  previewText : jsstr;
  processing : bool;
  docsLoading : bool;
  notification : jsstr;
}.

(** The cells at the first render. *)
Definition initialPage : Page :=
  mkPage Chat (js "HR") [] [] false [] None [] false false [].

(** The setters. *)
Definition setMode (m : Mode) (p : Page) : Page :=
  mkPage m (role p) (messages p) (input p) (sending p) (documents p)
    (previewFile p) (previewText p) (processing p) (docsLoading p)
    (notification p).

Definition setRole (r : jsstr) (p : Page) : Page :=
  mkPage (mode p) r (messages p) (input p) (sending p) (documents p)
    (previewFile p) (previewText p) (processing p) (docsLoading p)
    (notification p).

(** [setMessages((prev) => [...prev, msg])] *)
Definition pushMessage (msg : ChatMessage) (p : Page) : Page :=
  mkPage (mode p) (role p) (messages p ++ [msg]) (input p) (sending p)
    (documents p) (previewFile p) (previewText p) (processing p)
    (docsLoading p) (notification p).

Definition setInput (s : jsstr) (p : Page) : Page :=
  mkPage (mode p) (role p) (messages p) s (sending p) (documents p)
    (previewFile p) (previewText p) (processing p) (docsLoading p)
    (notification p).

Definition setSending (b : bool) (p : Page) : Page :=
  mkPage (mode p) (role p) (messages p) (input p) b (documents p)
    (previewFile p) (previewText p) (processing p) (docsLoading p)
    (notification p).

Definition setDocuments (docs : list jsstr) (p : Page) : Page :=
  mkPage (mode p) (role p) (messages p) (input p) (sending p) docs
    (previewFile p) (previewText p) (processing p) (docsLoading p)
    (notification p).

Definition setPreviewFile (f : option jsstr) (p : Page) : Page :=
  mkPage (mode p) (role p) (messages p) (input p) (sending p) (documents p)
    f (previewText p) (processing p) (docsLoading p) (notification p).

Definition setPreviewText (t : jsstr) (p : Page) : Page :=
  mkPage (mode p) (role p) (messages p) (input p) (sending p) (documents p)
    (previewFile p) t (processing p) (docsLoading p) (notification p).

Definition setProcessing (b : bool) (p : Page) : Page :=
  mkPage (mode p) (role p) (messages p) (input p) (sending p) (documents p)
    (previewFile p) (previewText p) b (docsLoading p) (notification p).

Definition setDocsLoading (b : bool) (p : Page) : Page :=
  mkPage (mode p) (role p) (messages p) (input p) (sending p) (documents p)
    (previewFile p) (previewText p) (processing p) b (notification p).

Definition setNotification (n : jsstr) (p : Page) : Page :=
  mkPage (mode p) (role p) (messages p) (input p) (sending p) (documents p)
    (previewFile p) (previewText p) (processing p) (docsLoading p) n.

(** ** Requests in flight *)

(** A handler suspended at its [await], with what its closure holds. *)
Inductive Task :=
  | ListTask (role : jsstr)
  | SendTask (trimmed role : jsstr)
  | UploadTask (file : UploadArg) (role : jsstr) (mode : Mode)
  | TextTask (url : jsstr)
  | PdfTask (url : jsstr).

#[export] Instance Task_eq_dec : EqDecision Task.
Proof. solve_decision. Defined.

(** The request a task waits for. *)
Definition taskRequest (t : Task) : Request :=
  match t with
  | ListTask role => listFilesRequest role
  | SendTask trimmed role => sendMessageRequest trimmed role
  | UploadTask file role _ => uploadFileRequest file role
  | TextTask url => Get url
  | PdfTask url => Get url
  end.

(** What an [await] gives: the value, or the exception thrown into the
    [catch]. *)
Inductive Settled (T : Type) :=
  | Fulfilled (v : T)
  | Rejected.
Arguments Fulfilled {T} _.
Arguments Rejected {T}.

(** ** [fetchDocuments] *)

(** Up to the [await]; [role] is the role of the render that made the
    callback. *)
Definition fetchDocuments (role : jsstr) (p : Page) : Page * list Task :=
  (setDocsLoading true p, [ListTask role]).

(** From the [await] on. *)
Definition fetchDocumentsDone (files : Settled FilesValue) (p : Page) : Page :=
  let p :=
    match files with
    | Fulfilled (ArrayValue names) => setDocuments names p
    | Fulfilled OtherValue => setDocuments [] p
    | Rejected => setDocuments [] p
    end in
  setDocsLoading false p.

(** ** [handleSend] *)

Definition userMessage (t : jsstr) : ChatMessage :=
  mkMessage None (Some (js "user")) (TextString t).

Definition botMessage (t : jsstr) : ChatMessage :=
  mkMessage None (Some (js "bot")) (TextString t).

Definition handleSend (p : Page) : Page * list Task :=
  let trimmed := trim (input p) in
  if negb (truthy trimmed) || sending p then (p, [])
  else
    (setInput [] (setSending true (pushMessage (userMessage trimmed) p)),
     [SendTask trimmed (role p)]).

(** [res?.reply ?? "No reply from server."] *)
Definition replyText (res : option ChatData) : jsstr :=
  default (js "No reply from server.") (res ≫= reply).

Definition handleSendDone (res : Settled (option ChatData)) (p : Page) : Page :=
  let p :=
    match res with
    | Fulfilled res => pushMessage (botMessage (replyText res)) p
    | Rejected => pushMessage (botMessage (js "Error sending message.")) p
    end in
  setSending false p.

(** ** [handleUpload] *)

(** Up to the [await]: no cell changes; the closure keeps the role and the
    mode of the render the handler belongs to. *)
Definition handleUpload (file : option UploadArg) (p : Page) : list Task :=
  match file with
  | None => []
  | Some f => [UploadTask f (role p) (mode p)]
  end.

(** The text of the notification: [res.message] when it is truthy. *)
Definition uploadNotice (res : option UploadData) : jsstr :=
  match res ≫= message with
  | Some m => if truthy m then m else js "File uploaded"
  | None => js "File uploaded"
  end.

(** From the [await] on, with the role and the mode of the closure. *)
Definition handleUploadDone (res : Settled (option UploadData))
    (role : jsstr) (mode : Mode) (p : Page) : Page * list Task :=
  match res with
  | Fulfilled res =>
      let p := setNotification (uploadNotice res) p in
      match mode with
      | Documents => fetchDocuments role p
      | Chat => (p, [])
      end
  | Rejected => (p, [])
  end.

(** ** [handlePreview] *)

(** [process.env.REACT_APP_API_BASE || "http://localhost:8000"] *)
Definition BASE_URL (env : option jsstr) : jsstr :=
  match env with
  | Some base => if truthy base then base else js "http://localhost:8000"
  | None => js "http://localhost:8000"
  end.

(** [`${BASE_URL}/download/${role}/${encoded}`] *)
Definition downloadUrl (base role filename : jsstr) : jsstr :=
  base ++ js "/download/" ++ role ++ js "/" ++ encodeURIComponent filename.

(** [`${BASE_URL}/process_pdf/${role}/${encoded}`] *)
Definition processUrl (base role filename : jsstr) : jsstr :=
  base ++ js "/process_pdf/" ++ role ++ js "/" ++ encodeURIComponent filename.

(** Up to the [await] of the branch taken. *)
Definition handlePreview (base : jsstr) (filename : jsstr) (p : Page)
    : Page * list Task :=
  if negb (truthy filename) then (p, [])
  else
    let url := downloadUrl base (role p) filename in
    if endsWith (toLowerCase filename) (js ".txt") then
      (setProcessing true p, [TextTask url])
    else if endsWith (toLowerCase filename) (js ".pdf") then
      (setPreviewText [] (setPreviewFile (Some url) (setProcessing true p)),
       [PdfTask (processUrl base (role p) filename)])
    else
      (setPreviewText [] (setPreviewFile (Some url) p), []).

(** [await fetch(url)] then [await resp.text()]: the status is not looked
    at. *)
Definition fetchText (o : Fetch jsstr) : Settled jsstr :=
  match o with
  | FetchResponse _ (Some t) => Fulfilled t
  | FetchResponse _ None => Rejected
  | FetchRejected => Rejected
  end.

(** The [.txt] branch from its [await] on. *)
Definition handlePreviewText (o : Fetch jsstr) (p : Page) : Page :=
  let p :=
    match fetchText o with
    | Fulfilled t => setPreviewFile None (setPreviewText t p)
    | Rejected => setPreviewFile None (setPreviewText [] p)
    end in
  setProcessing false p.

(** [await fetch(...)], the test of [resp.ok], [await resp.json()]. *)
Definition fetchJson (o : Fetch (option ProcessData))
    : Settled (option ProcessData) :=
  match o with
  | FetchResponse true (Some data) => Fulfilled data
  | FetchResponse true None => Rejected
  | FetchResponse false _ => Rejected
  | FetchRejected => Rejected
  end.

(** The [.pdf] branch from its [await] on: [data?.text ?? ""] becomes the
    text; a failure changes nothing but [processing]. *)
Definition handlePreviewPdf (o : Fetch (option ProcessData)) (p : Page) : Page :=
  let p :=
    match fetchJson o with
    | Fulfilled data => setPreviewText (default [] (data ≫= Gateway.text)) p
    | Rejected => p
    end in
  setProcessing false p.

(** The [onClick] of the backdrop and of the Close button. *)
Definition closePreview (p : Page) : Page :=
  setPreviewText [] (setPreviewFile None p).

(** ** The view *)

(** [Boolean(previewFile || previewText || processing)] *)
Definition modalOpen (p : Page) : bool :=
  match previewFile p with
  | Some f => truthy f || truthy (previewText p) || processing p
  | None => truthy (previewText p) || processing p
  end.

(** What the document list shows. *)
Inductive DocumentList :=
  | LoadingDocuments
  | NoDocuments
  | DocumentItems (docs : list jsstr).

#[export] Instance DocumentList_eq_dec : EqDecision DocumentList.
Proof. solve_decision. Defined.

(** How the file is displayed: [<embed>] or [<img>]. *)
Inductive Viewer :=
  | Embed (src : jsstr)
  | Img (src : jsstr).

#[export] Instance Viewer_eq_dec : EqDecision Viewer.
Proof. solve_decision. Defined.

(** The content of the modal. *)
Record ModalView := mkModalView {
  showsProcessing : bool;
  viewer : option Viewer;
  textarea : option jsstr;
}.

(** The branch of the page that depends on the mode. *)
Inductive Panel :=
  | ChatPanel (transcript : list MessageView) (value : jsstr)
      (sendDisabled : bool) (sendLabel : jsstr)
  | DocumentPanel (heading : jsstr) (list : DocumentList).

(** What the page shows. *)
Record PageView := mkPageView {
  chatClass : jsstr;
  documentsClass : jsstr;
  selectedRole : jsstr;
  panel : Panel;
  modal : option ModalView;
  toast : option jsstr;
  bodyOverflow : jsstr;
}.

Definition renderDocuments (p : Page) : DocumentList :=
  if docsLoading p then LoadingDocuments
  else if decide (length (documents p) = 0) then NoDocuments
  else DocumentItems (documents p).

Definition renderViewer (p : Page) : option Viewer :=
  match previewFile p with
  | Some f =>
      if truthy f then
        Some (if endsWith (toLowerCase f) (js ".pdf") then Embed f else Img f)
      else None
  | None => None
  end.

Definition renderModal (p : Page) : option ModalView :=
  if modalOpen p then
    Some (mkModalView (processing p) (renderViewer p)
            (if truthy (previewText p) then Some (previewText p) else None))
  else None.

Definition renderPanel (p : Page) : Panel :=
  match mode p with
  | Chat =>
      ChatPanel (renderMessages (messages p)) (input p) (sending p)
        (if sending p then js "Sending..." else js "Send")
  | Documents =>
      DocumentPanel (js "Documents for " ++ role p) (renderDocuments p)
  end.

(** [{notification && (<div ...>{notification}</div>)}] *)
Definition renderToast (p : Page) : option jsstr :=
  if truthy (notification p) then Some (notification p) else None.

(** The effect on [[modalOpen]]: the value it gives to
    [document.body.style.overflow]. *)
Definition overflowEffect (p : Page) : jsstr :=
  if modalOpen p then js "hidden" else [].

Definition renderPage (p : Page) : PageView :=
  mkPageView
    (if decide (mode p = Chat) then js "active" else [])
    (if decide (mode p = Documents) then js "active" else [])
    (role p)
    (renderPanel p)
    (renderModal p)
    (renderToast p)
    (overflowEffect p).

(** ** Sending *)

Section send.
Implicit Types (p : Page).

Lemma trim_nil_blank s : trim s = [] ↔ blank s.
Proof.
  split; [|apply trim_blank].
  destruct (trim_split s) as (l & r & Hs & Hl & Hr). intros E.
  rewrite Hs, E. by apply Forall_app.
Qed.

Lemma handleSend_idle p :
  blank (input p) ∨ sending p = true → handleSend p = (p, []).
Proof.
  unfold handleSend. intros [->%trim_blank| ->]; [done|].
  by rewrite orb_true_r.
Qed.

Lemma handleSend_fires p :
  ¬ blank (input p) → sending p = false →
  handleSend p
  = (setInput [] (setSending true (pushMessage (userMessage (trim (input p))) p)),
     [SendTask (trim (input p)) (role p)]).
Proof.
  unfold handleSend. intros Hb ->. rewrite <-trim_nil_blank in Hb.
  apply truthy_true in Hb. by rewrite Hb.
Qed.

Lemma handleSendDone_messages res p :
  ∃ t, messages (handleSendDone res p) = messages p ++ [botMessage t].
Proof. destruct res; by eexists. Qed.

End send.

(** ** Previews *)

Section preview.
Implicit Types (p : Page) (doc base : jsstr).

Lemma endsWith_same_length s x y :
  length x = length y → endsWith s x = true → endsWith s y = true → x = y.
Proof.
  intros Hlen [k ->]%endsWith_true [k' Hk']%endsWith_true.
  apply app_inj_2 in Hk'; [by destruct Hk'|done].
Qed.

Lemma lower_ext_truthy doc x :
  x ≠ [] → endsWith (toLowerCase doc) x = true → truthy doc = true.
Proof.
  destruct doc; [|done]. intros Hx [k Hk]%endsWith_true.
  symmetry in Hk. by apply app_eq_nil in Hk as [_ ?].
Qed.

Lemma pdf_extension : extension (js ".pdf").
Proof. eexists. split; [done|]. by repeat constructor. Qed.

(** The viewer is chosen by the extension of the file name. *)
Lemma downloadUrl_pdf base r doc :
  endsWith (toLowerCase (downloadUrl base r doc)) (js ".pdf")
  = endsWith (toLowerCase doc) (js ".pdf").
Proof.
  unfold downloadUrl. change (js "/") with ["/"%char].
  rewrite !(assoc_L (++)), toLowerCase_app.
  rewrite (endsWith_app_sep _ _ _ "/"%char).
  - apply endsWith_encodeURIComponent, pdf_extension.
  - rewrite toLowerCase_app. apply last_snoc.
  - compute_done.
Qed.

Lemma downloadUrl_truthy base r doc : truthy (downloadUrl base r doc) = true.
Proof. unfold downloadUrl. by apply truthy_app_r. Qed.

Lemma handlePreview_is_txt base doc p :
  endsWith (toLowerCase doc) (js ".txt") = true →
  handlePreview base doc p
  = (setProcessing true p, [TextTask (downloadUrl base (role p) doc)]).
Proof.
  intros H. unfold handlePreview. by rewrite H, (lower_ext_truthy _ (js ".txt")).
Qed.

Lemma handlePreview_is_pdf base doc p :
  endsWith (toLowerCase doc) (js ".pdf") = true →
  handlePreview base doc p
  = (setPreviewText []
       (setPreviewFile (Some (downloadUrl base (role p) doc)) (setProcessing true p)),
     [PdfTask (processUrl base (role p) doc)]).
Proof.
  intros H. unfold handlePreview. rewrite H, (lower_ext_truthy _ (js ".pdf")) by done.
  destruct (endsWith _ (js ".txt")) eqn:E; [|done].
  by pose proof (endsWith_same_length _ (js ".txt") (js ".pdf") eq_refl E H).
Qed.

Lemma handlePreview_is_other base doc p :
  doc ≠ [] → endsWith (toLowerCase doc) (js ".txt") = false →
  endsWith (toLowerCase doc) (js ".pdf") = false →
  handlePreview base doc p
  = (setPreviewText [] (setPreviewFile (Some (downloadUrl base (role p) doc)) p), []).
Proof.
  intros Hd%truthy_true Ht Hp. unfold handlePreview. by rewrite Hd, Ht, Hp.
Qed.

Lemma renderViewer_download base r doc p :
  previewFile p = Some (downloadUrl base r doc) →
  renderViewer p
  = Some (if endsWith (toLowerCase doc) (js ".pdf")
          then Embed (downloadUrl base r doc) else Img (downloadUrl base r doc)).
Proof.
  intros H. unfold renderViewer. by rewrite H, downloadUrl_truthy, downloadUrl_pdf.
Qed.

Lemma renderModal_download base r doc p :
  previewFile p = Some (downloadUrl base r doc) →
  renderModal p
  = Some (mkModalView (processing p)
            (Some (if endsWith (toLowerCase doc) (js ".pdf")
                   then Embed (downloadUrl base r doc)
                   else Img (downloadUrl base r doc)))
            (if truthy (previewText p) then Some (previewText p) else None)).
Proof.
  intros H. unfold renderModal, modalOpen.
  by rewrite (renderViewer_download base r doc), H, downloadUrl_truthy.
Qed.

Lemma modalOpen_processing p : processing p = true → modalOpen p = true.
Proof. unfold modalOpen. intros ->. case_match; by rewrite !orb_true_r. Qed.

Lemma modalOpen_closePreview p : modalOpen (closePreview p) = processing p.
Proof. done. Qed.

End preview.

(** ** The properties of the handlers *)

Section handlers.
Implicit Types (p : Page) (doc base : jsstr).

(** [handleSend] does nothing, and sends nothing, exactly when the input
    is blank or a message is already being sent. *)
Lemma handleSend_guard p :
  handleSend p = (p, []) ↔ blank (input p) ∨ sending p = true.
Proof.
  split; [|apply handleSend_idle].
  destruct (sending p) eqn:Hs; [by right|]. intros H. left.
  apply trim_nil_blank, truthy_false.
  unfold handleSend in H. rewrite Hs, orb_false_r in H.
  by destruct (truthy (trim (input p))).
Qed.

(** When [handleSend] goes ahead it starts one chat request that carries
    the trimmed input and the current role, appends the trimmed input as
    the user's message, empties the input and disables the button; the
    message has no white space at either end. *)
Lemma handleSend_request p :
  ¬ blank (input p) → sending p = false →
  (handleSend p).2 = [SendTask (trim (input p)) (role p)]
  ∧ messages (handleSend p).1 = messages p ++ [userMessage (trim (input p))]
  ∧ input (handleSend p).1 = [] ∧ sending (handleSend p).1 = true
  ∧ (∀ c, head (trim (input p)) = Some c ∨ last (trim (input p)) = Some c →
          Ascii.is_space c = false).
Proof.
  intros Hb Hs. rewrite handleSend_fires by done. repeat split.
  intros c [?|?]; [by eapply trim_head|by eapply trim_last].
Qed.

(** C29: [handleSend] does nothing exactly when the input is blank or a
    message is being sent; otherwise it starts one chat request with the
    trimmed input and the current role, appends the trimmed input, which
    has no white space at either end, as the user's message, empties the
    input and disables the button. *)
Theorem handleSend_spec p :
  (handleSend p = (p, []) ↔ blank (input p) ∨ sending p = true)
  ∧ (¬ blank (input p) → sending p = false →
     (handleSend p).2 = [SendTask (trim (input p)) (role p)]
     ∧ messages (handleSend p).1 = messages p ++ [userMessage (trim (input p))]
     ∧ input (handleSend p).1 = [] ∧ sending (handleSend p).1 = true
     ∧ (∀ c, head (trim (input p)) = Some c ∨ last (trim (input p)) = Some c →
             Ascii.is_space c = false)).
Proof. split; [apply handleSend_guard|apply handleSend_request]. Qed.

(** C30: however the chat request ends, its handler appends exactly one
    message of the bot and enables the button again: the reply of the
    server, ["No reply from server."] when the body or the reply is
    missing, ["Failed to send message"] when the request failed.  The
    [catch] of [handleSend] never runs. *)
Theorem handleSendDone_gateway (o : Http (option ChatData)) p :
  sending (handleSendDone (Fulfilled (sendMessage o)) p) = false
  ∧ messages (handleSendDone (Fulfilled (sendMessage o)) p)
    = messages p
      ++ [botMessage
            match o with
            | HttpOk (Some (mkChatData (Some answer))) => answer
            | HttpOk _ => js "No reply from server."
            | HttpFail => js "Failed to send message"
            end].
Proof. by destruct o as [[[[?|]]|]|]. Qed.

(** C21: opening a [.txt] document starts one fetch of its download URL
    and shows the processing notice; when the fetch has ended, however it
    ended, no file is displayed, the notice is gone, and the text is the
    body that was read, or empty on a failure. *)
Theorem preview_txt base doc p (o : Fetch jsstr) :
  endsWith (toLowerCase doc) (js ".txt") = true →
  (handlePreview base doc p).2 = [TextTask (downloadUrl base (role p) doc)]
  ∧ processing (handlePreview base doc p).1 = true
  ∧ renderViewer (handlePreview base doc p).1 = renderViewer p
  ∧ renderModal (handlePreviewText o (handlePreview base doc p).1)
    = match o with
      | FetchResponse _ (Some (c :: t)) =>
          Some (mkModalView false None (Some (c :: t)))
      | _ => None
      end.
Proof.
  intros H. rewrite handlePreview_is_txt by done. repeat split.
  by destruct o as [|? [[|??]|]].
Qed.

(** C20: opening a [.pdf] document shows it at once in an [<embed>], with
    the processing notice and no text, and starts one extraction request;
    when that request has ended the document is still displayed, the
    notice is gone, and the text is the extracted one, or empty when the
    request failed, the status was not ok or the body had no text. *)
Theorem preview_pdf base doc p (o : Fetch (option ProcessData)) :
  endsWith (toLowerCase doc) (js ".pdf") = true →
  (handlePreview base doc p).2 = [PdfTask (processUrl base (role p) doc)]
  ∧ renderModal (handlePreview base doc p).1
    = Some (mkModalView true (Some (Embed (downloadUrl base (role p) doc))) None)
  ∧ renderModal (handlePreviewPdf o (handlePreview base doc p).1)
    = Some (mkModalView false (Some (Embed (downloadUrl base (role p) doc)))
              match fetchJson o with
              | Fulfilled (Some (mkProcessData (Some (c :: t)))) => Some (c :: t)
              | _ => None
              end).
Proof.
  intros H. rewrite handlePreview_is_pdf by done. split; [done|].
  rewrite !(renderModal_download base (role p) doc), H.
  - split; [done|]. unfold handlePreviewPdf.
    by destruct (fetchJson o) as [[[[[|??]|]]|]|].
  - unfold handlePreviewPdf. by destruct (fetchJson o).
  - done.
Qed.

(** C22: opening a document that is neither [.txt] nor [.pdf] displays its
    download URL in an [<img>] at once, without text and without any
    request. *)
Theorem preview_other base doc p :
  doc ≠ [] → endsWith (toLowerCase doc) (js ".txt") = false →
  endsWith (toLowerCase doc) (js ".pdf") = false →
  (handlePreview base doc p).2 = []
  ∧ renderModal (handlePreview base doc p).1
    = Some (mkModalView (processing p)
              (Some (Img (downloadUrl base (role p) doc))) None).
Proof.
  intros Hd Ht Hp. rewrite handlePreview_is_other by done. split; [done|].
  by rewrite (renderModal_download base (role p) doc), Hp.
Qed.

End handlers.

(** ** The properties at concrete inputs *)

Lemma handleSend_spec_witness :
  (handleSend (setInput (js "  hello ") initialPage)).2
  = [SendTask (js "hello") (js "HR")].
Proof.
  refine (proj1 (proj2 (handleSend_spec (setInput (js "  hello ") initialPage)) _ _)).
  - intros H%trim_blank. vm_compute in H. discriminate H.
  - reflexivity.
Defined.

Lemma preview_txt_witness :
  renderModal
    (handlePreviewText (FetchResponse false (Some (js "Not Found")))
       (handlePreview (BASE_URL None) (js "notes.TXT") initialPage).1)
  = Some (mkModalView false None (Some (js "Not Found"))).
Proof.
  apply (preview_txt (BASE_URL None) (js "notes.TXT") initialPage
           (FetchResponse false (Some (js "Not Found")))). done.
Defined.

Lemma preview_pdf_witness :
  renderModal (handlePreview (BASE_URL None) (js "report.pdf") initialPage).1
  = Some (mkModalView true
            (Some (Embed (js "http://localhost:8000/download/HR/report.pdf")))
            None).
Proof.
  apply (preview_pdf (BASE_URL None) (js "report.pdf") initialPage FetchRejected).
  done.
Defined.

Lemma preview_other_witness :
  renderModal (handlePreview (BASE_URL None) (js "logo.png") initialPage).1
  = Some (mkModalView false
            (Some (Img (js "http://localhost:8000/download/HR/logo.png"))) None).
Proof.
  by apply (preview_other (BASE_URL None) (js "logo.png") initialPage).
Defined.
