(* ===== verification/Session.v ===== *)
(** * Session: the page at work

    The page of [src/src/pages/Home.js] with what surrounds it: the upload
    button it renders, the registry of object URLs, the requests in flight,
    the timer of the notification and the clock.  An event is something the
    user does on the markup, the end of a request, or time passing; [step]
    runs the handler the markup wires to it and then the effects React runs
    after the render ([useEffect]).  Requests end in any order. *)

From stdpp Require Import relations.
From S2P Require Import Prelude JsString FileFilter ObjectUrl Upload.
From S2P Require Import Gateway ChatView Widgets Home.

(** ** The world *)

(** How a request in flight ends. *)
Inductive Outcome :=
  | ListOutcome (o : Http (option ListData))
  | SendOutcome (o : Http (option ChatData))
  | UploadOutcome (o : Http (option UploadData))
  | TextOutcome (o : Fetch jsstr)
  | PdfOutcome (o : Fetch (option ProcessData)).

(** What the user, the network and the clock do. *)
Inductive PageEvent :=
  | ClickChat
  | ClickDocuments
  | SelectRole (r : jsstr)
  | TypeInput (value : jsstr)
  | ClickClear
  | PressEnter
  | ClickSend
  | OnButton (e : Event)
  | ClickDocument (doc : jsstr)
  | ClickClose
  | Settle (i : nat) (o : Outcome)
  | Elapse (ms : N)
  | Timeout.

(** The page and its surroundings: the cells, the state of the upload
    button, the registry of object URLs, the suspended handlers in the
    order they were started, every request made so far, the deadline of the
    notification's timer and the time. *)
Record World (R : Type) := mkWorld {
  page : Page;
  button : State;
  urls : R;
  pending : list Task;
  sent : list Request;
  timer : option N;
  clock : N;
}.
Arguments mkWorld {R} _ _ _ _ _ _ _.
Arguments page {R} _.
Arguments button {R} _.
Arguments urls {R} _.
Arguments pending {R} _.
Arguments sent {R} _.
Arguments timer {R} _.
Arguments clock {R} _.

(** ** The effects *)

(** The effect on [[role, mode, fetchDocuments]], after a render that
    changed the cells from [before] to [after]: the callback changes with
    the role only. *)
Definition fetchEffect (before after : Page) : Page * list Task :=
  if decide (role before = role after ∧ mode before = mode after)
  then (after, [])
  else
    match mode after with
    | Documents => fetchDocuments (role after) after
    | Chat => (after, [])
    end.

(** The effect on [[notification]]: when the text changes the timer of the
    previous text is cleared, and a text that is not empty sets one for
    3000 ms from now. *)
Definition notificationEffect (before after : jsstr) (timer : option N)
    (now : N) : option N :=
  if decide (before = after) then timer
  else if truthy after then Some (now + 3000)%N
  else None.

(** The continuation of a suspended handler, given how its request ended;
    [None] when the outcome is not one of this request. *)
Definition resume (t : Task) (o : Outcome) (p : Page)
    : option (Page * list Task) :=
  match t, o with
  | ListTask _, ListOutcome o =>
      Some (fetchDocumentsDone (Fulfilled (listFiles o)) p, [])
  | SendTask _ _, SendOutcome o =>
      Some (handleSendDone (Fulfilled (sendMessage o)) p, [])
  | UploadTask _ role mode, UploadOutcome o =>
      Some (handleUploadDone (Fulfilled (uploadFile o)) role mode p)
  | TextTask _, TextOutcome o => Some (handlePreviewText o p, [])
  | PdfTask _, PdfOutcome o => Some (handlePreviewPdf o p, [])
  | _, _ => None
  end.

(** The props the page gives to its input line. *)
Definition searchProps (p : Page) : SearchBar.SearchProps :=
  SearchBar.searchDefaults (input p).

(** What the page does with the calls of the input line: [onChange] is
    [setInput]; nothing else is wired. *)
Definition applySearch (effects : list SearchBar.SearchEffect) (p : Page) : Page :=
  match SearchBar.changedTo effects with
  | Some v => setInput v p
  | None => p
  end.

(** What the page does with the calls of the upload button: [onUpload] is
    [handleUpload]. *)
Definition applyUpload (effects : list Effect) (p : Page) : list Task :=
  effects ≫= λ eff,
    match eff with
    | CallOnUpload arg => handleUpload (Some arg) p
    | ClickInput => []
    end.

Section world.
Context {math : FloatLog} {R : Type} {registry : UrlRegistry File R}.

(** The environment variable [REACT_APP_API_BASE]. *)
Variable env : option jsstr.

(** The world when the page is mounted. *)
Definition initialWorld (r0 : R) : World R :=
  mkWorld initialPage initialState r0 [] [] None 0.

(** The render after a handler and the effects after the render: the
    handler left the cells at [p'] and started [started]. *)
Definition commit (w : World R) (p' : Page) (started : list Task) : World R :=
  let '(p'', fetched) := fetchEffect (page w) p' in
  let tasks := started ++ fetched in
  mkWorld p'' (button w) (urls w) (pending w ++ tasks)
    (sent w ++ (taskRequest <$> tasks))
    (notificationEffect (notification (page w)) (notification p'')
       (timer w) (clock w))
    (clock w).

(** The world with the task at [i] taken out of the suspended ones. *)
Definition settled (i : nat) (w : World R) : World R :=
  mkWorld (page w) (button w) (urls w) (delete i (pending w)) (sent w)
    (timer w) (clock w).

(** The world after the upload button handled an event. *)
Definition pressed (e : Event) (w : World R) : World R * list Effect :=
  let '(b, r, effects) := handleEvent defaultProps e (button w) (urls w) in
  (mkWorld (page w) b r (pending w) (sent w) (timer w) (clock w), effects).

(** Whether the markup offers the event: the input line and the Send
    button exist in chat mode, the button is disabled while sending, the
    documents are listed in documents mode once loaded, the modal has its
    Close button while it is open, the selector offers the four roles. *)
Definition enabled (e : PageEvent) (w : World R) : bool :=
  let p := page w in
  match e with
  | ClickChat | ClickDocuments | OnButton _ => true
  | SelectRole r => bool_decide (r ∈ roles)
  | TypeInput _ | PressEnter => bool_decide (mode p = Chat)
  | ClickClear =>
      bool_decide (mode p = Chat) && SearchBar.clearShown (searchProps p)
  | ClickSend => bool_decide (mode p = Chat) && negb (sending p)
  | ClickDocument doc =>
      bool_decide (mode p = Documents)
      && bool_decide (renderDocuments p = DocumentItems (documents p))
      && bool_decide (doc ∈ documents p)
  | ClickClose => modalOpen p
  | Settle _ _ | Elapse _ | Timeout => true
  end.

(** The world after [ms] milliseconds. *)
Definition elapsed (ms : N) (w : World R) : World R :=
  mkWorld (page w) (button w) (urls w) (pending w) (sent w) (timer w)
    (clock w + ms)%N.

(** The handler the markup wires to the event: the world it leaves around
    the cells, the cells it sets and the requests it starts. *)
Definition react (e : PageEvent) (w : World R) : World R * Page * list Task :=
  let p := page w in
  match e with
  | ClickChat => (w, setMode Chat p, [])
  | ClickDocuments => (w, setMode Documents p, [])
  | SelectRole r => (w, setRole r p, [])
  | TypeInput value => (w, applySearch (SearchBar.inputChange value) p, [])
  | ClickClear =>
      (w, applySearch (SearchBar.handleClear (searchProps p) false) p, [])
  | PressEnter =>
      (w, applySearch
            (SearchBar.handleKeyDown (searchProps p) (js "Enter") false) p, [])
  | ClickSend => let '(p', started) := handleSend p in (w, p', started)
  | OnButton e =>
      let '(w', effects) := pressed e w in (w', p, applyUpload effects p)
  | ClickDocument doc =>
      let '(p', started) := handlePreview (BASE_URL env) doc p in
      (w, p', started)
  | ClickClose => (w, closePreview p, [])
  | Settle i o =>
      match pending w !! i with
      | Some t =>
          match resume t o p with
          | Some (p', started) => (settled i w, p', started)
          | None => (w, p, [])
          end
      | None => (w, p, [])
      end
  | Elapse ms => (elapsed ms w, p, [])
  | Timeout =>
      match timer w with
      | Some deadline =>
          if (deadline <=? clock w)%N then (w, setNotification [] p, [])
          else (w, p, [])
      | None => (w, p, [])
      end
  end.

(** One event: the handler, then the render and its effects. *)
Definition step (e : PageEvent) (w : World R) : World R :=
  if enabled e w then
    let '(w', p', started) := react e w in commit w' p' started
  else w.

(** The events of a session, one after the other. *)
Definition play (es : list PageEvent) (w : World R) : World R :=
  foldl (λ w e, step e w) w es.

(** The worlds a session can reach from the mount with the registry
    [r0]. *)
Inductive visits (r0 : R) : World R → Prop :=
  | visits_mount : visits r0 (initialWorld r0)
  | visits_step e w : visits r0 w → visits r0 (step e w).

End world.

(** ** What the invariants speak of *)

(** The kinds of suspended handlers. *)
Definition isSend (t : Task) : bool :=
  match t with SendTask _ _ => true | _ => false end.

Definition isPreview (t : Task) : bool :=
  match t with TextTask _ | PdfTask _ => true | _ => false end.

Definition isListing (t : Task) : bool :=
  match t with ListTask _ => true | _ => false end.

(** The suspended handlers of one kind. *)
Definition inFlight (kind : Task → bool) (ts : list Task) : list Task :=
  filter (λ t, Is_true (kind t)) ts.

(** A transcript in which the user and the bot take turns, the user
    first; [open] says that the last word is the user's. *)
Fixpoint turns (ms : list ChatMessage) (open : bool) : Prop :=
  match ms with
  | [] => open = false
  | [m] => sender m = Some (js "user") ∧ open = true
  | m :: m' :: ms =>
      sender m = Some (js "user") ∧ sender m' = Some (js "bot") ∧ turns ms open
  end.

(** ** The protocol

    What the steps are made of, seen from the cells and the suspended
    handlers alone: the user browses, a handler starts a request, a request
    ends and its handler goes on.  Requests end in any order. *)

(** Cells the user changes without starting anything. *)
Definition browsing (p p' : Page) : Prop :=
  messages p' = messages p ∧ sending p' = sending p
  ∧ documents p' = documents p ∧ processing p' = processing p
  ∧ docsLoading p' = docsLoading p ∧ notification p' = notification p.

Inductive act : Page * list Task → Page * list Task → Prop :=
  | act_browse p p' ts :
      browsing p p' → act (p, ts) (p', ts)
  | act_expire p ts :
      act (p, ts) (setNotification [] p, ts)
  | act_list r p ts :
      act (p, ts) (setDocsLoading true p, ts ++ [ListTask r])
  | act_send t r p ts :
      sending p = false → t ≠ [] →
      act (p, ts)
        (setInput [] (setSending true (pushMessage (userMessage t) p)),
         ts ++ [SendTask t r])
  | act_upload f r m p ts :
      act (p, ts) (p, ts ++ [UploadTask f r m])
  | act_text url p ts :
      act (p, ts) (setProcessing true p, ts ++ [TextTask url])
  | act_pdf url shown p ts :
      act (p, ts)
        (setPreviewText [] (setPreviewFile (Some shown) (setProcessing true p)),
         ts ++ [PdfTask url])
  | act_listed i r names p ts :
      ts !! i = Some (ListTask r) →
      act (p, ts) (setDocsLoading false (setDocuments names p), delete i ts)
  | act_replied i t r answer p ts :
      ts !! i = Some (SendTask t r) →
      act (p, ts)
        (setSending false (pushMessage (botMessage answer) p), delete i ts)
  | act_uploaded i f r m notice p ts :
      ts !! i = Some (UploadTask f r m) → notice ≠ [] →
      act (p, ts) (setNotification notice p, delete i ts)
  | act_text_done i url t p ts :
      ts !! i = Some (TextTask url) →
      act (p, ts)
        (setProcessing false (setPreviewFile None (setPreviewText t p)),
         delete i ts)
  | act_pdf_done i url (t : option jsstr) p ts :
      ts !! i = Some (PdfTask url) →
      act (p, ts)
        (setProcessing false
           (match t with Some t => setPreviewText t p | None => p end),
         delete i ts).

(** ** The invariants *)

(** The chat: the transcript is made of turns, open exactly while a
    message is being sent, and exactly then one chat request is in
    flight. *)
Definition chat_ok (s : Page * list Task) : Prop :=
  turns (messages s.1) (sending s.1)
  ∧ length (inFlight isSend s.2) = if sending s.1 then 1 else 0.

(** The notices: while the page says that it is processing or loading, a
    request that will end the notice is in flight. *)
Definition busy_ok (s : Page * list Task) : Prop :=
  (processing s.1 = true → inFlight isPreview s.2 ≠ [])
  ∧ (docsLoading s.1 = true → inFlight isListing s.2 ≠ []).

(** The transcript: every message is one the page makes. *)
Definition transcript_ok (s : Page * list Task) : Prop :=
  Forall homeMessage (messages s.1).

(** The notification: its timer is set exactly while a text is shown, for
    at most 3000 ms from now. *)
Definition timer_ok {R} (w : World R) : Prop :=
  (timer w = None ↔ notification (page w) = [])
  ∧ ∀ d, timer w = Some d → (d ≤ clock w + 3000)%N.

(** ** Requests that end *)

(** A way for the request of a task to end: it fails. *)
Definition failure (t : Task) : Outcome :=
  match t with
  | ListTask _ => ListOutcome HttpFail
  | SendTask _ _ => SendOutcome HttpFail
  | UploadTask _ _ _ => UploadOutcome HttpFail
  | TextTask _ => TextOutcome FetchRejected
  | PdfTask _ => PdfOutcome FetchRejected
  end.

(** The requests a task stands for: its own and, for an upload made in
    documents mode, the listing that follows it. *)
Definition weight (t : Task) : nat :=
  match t with
  | UploadTask _ _ Documents => 2
  | _ => 1
  end.

(** The end of a request, as opposed to what the user does. *)
Definition isSettle (e : PageEvent) : Prop := ∃ i o, e = Settle i o.

(** ** Sample sessions *)

(** The page mounted in a browser without object URLs. *)
Definition emptyWorld : World (Browser File) := initialWorld browser_empty.
(** The listing of a role arrives. *)
Definition listed (names : list jsstr) : Outcome :=
  ListOutcome (HttpOk (Some (mkListData (FilesArray names)))).
(** The text of a document arrives. *)
Definition extracted (t : jsstr) : Outcome :=
  PdfOutcome (FetchResponse true (Some (Some (mkProcessData (Some t))))).
(** The user asks a question. *)
Definition asking : list PageEvent := [TypeInput (js "  hi  "); ClickSend].
(** The reply arrives. *)
Definition answered (t : jsstr) : Outcome :=
  SendOutcome (HttpOk (Some (mkChatData (Some t)))).
(** The user asks, the bot repeats the question, the user asks again: three
    messages, of which two have the same sender and the same text. *)
Definition chatting : list PageEvent :=
  asking ++ [Settle 0 (answered (js "hi"))] ++ asking.
(** The user opens the documents and changes the role before the first
    listing has arrived; the listing of the new role arrives first. *)
Definition switching : list PageEvent :=
  [ClickDocuments; SelectRole (js "Legal"); Settle 1 (listed [js "contract.pdf"])].
(** Then the user opens a document, *)
Definition opening : list PageEvent :=
  switching ++ [ClickDocument (js "contract.pdf")].
(** and closes the preview at once. *)
Definition dismissing : list PageEvent := opening ++ [ClickClose].
(** Two files are dropped, the upload fails, and two seconds later a
    third file is dropped. *)
Definition uploading : list PageEvent :=
  [OnButton (Drop (Some [photo; scan])); Settle 0 (UploadOutcome HttpFail);
   Elapse 2000; OnButton (Drop (Some [report]))].

(** * Properties *)

(** ** What the effects and the wiring leave alone *)

Section frames.
Implicit Types (p : Page) (ts : list Task).

Lemma fetchEffect_cases p p' :
  fetchEffect p p' = (p', [])
  ∨ fetchEffect p p' = (setDocsLoading true p', [ListTask (role p')]).
Proof. unfold fetchEffect. repeat case_match; auto. Qed.

Lemma browsing_refl p : browsing p p.
Proof. by repeat split. Qed.

Lemma applySearch_browsing effects p : browsing p (applySearch effects p).
Proof. unfold applySearch. by case_match. Qed.

Lemma uploadNotice_truthy res : uploadNotice res ≠ [].
Proof.
  unfold uploadNotice. destruct (res ≫= message) as [m|]; [|done].
  destruct (truthy m) eqn:E; [by apply truthy_true|done].
Qed.

End frames.

(** ** The handlers follow the protocol *)

Section protocol.
Implicit Types (p : Page) (ts : list Task) (s : Page * list Task).

Lemma act_idle p ts : rtc act (p, ts) (p, ts ++ []).
Proof. rewrite app_nil_r. constructor. Qed.

Lemma act_browsed p p' ts : browsing p p' → rtc act (p, ts) (p', ts ++ []).
Proof. rewrite app_nil_r. intros. apply rtc_once. by constructor. Qed.

Lemma applyUpload_cons eff effects p :
  applyUpload (eff :: effects) p = applyUpload [eff] p ++ applyUpload effects p.
Proof. unfold applyUpload. cbn. by rewrite app_nil_r. Qed.

Lemma applyUpload_acts effects p ts :
  rtc act (p, ts) (p, ts ++ applyUpload effects p).
Proof.
  revert ts. induction effects as [|eff effects IH]; intros ts; [apply act_idle|].
  rewrite applyUpload_cons, (assoc_L _).
  etrans; [|apply IH].
  destruct eff as [arg|]; [apply rtc_once, act_upload|apply act_idle].
Qed.

Lemma handleSend_acts p ts :
  rtc act (p, ts) ((handleSend p).1, ts ++ (handleSend p).2).
Proof.
  unfold handleSend. destruct (negb _ || _) eqn:E; [apply act_idle|].
  apply orb_false_iff in E as [Ht Hs]. apply negb_false_iff, truthy_true in Ht.
  apply rtc_once. by constructor.
Qed.

Lemma handlePreview_acts base doc p ts :
  rtc act (p, ts) ((handlePreview base doc p).1, ts ++ (handlePreview base doc p).2).
Proof.
  unfold handlePreview. repeat case_match; simpl.
  - apply act_idle.
  - apply rtc_once. constructor.
  - apply rtc_once. constructor.
  - by apply act_browsed.
Qed.

Lemma resume_acts i t o p p' started ts :
  ts !! i = Some t → resume t o p = Some (p', started) →
  rtc act (p, ts) (p', delete i ts ++ started).
Proof.
  intros Hi Hr. destruct t, o; simplify_eq/=.
  - rewrite app_nil_r. apply rtc_once.
    destruct (listFiles o); by econstructor.
  - rewrite app_nil_r. apply rtc_once. by econstructor.
  - eapply rtc_l; [by eapply act_uploaded, uploadNotice_truthy|].
    destruct mode; unfold fetchDocuments in *; simplify_eq/=; [apply act_idle|].
    apply rtc_once, act_list.
  - rewrite app_nil_r. apply rtc_once. unfold handlePreviewText.
    destruct (fetchText o); by econstructor.
  - rewrite app_nil_r. apply rtc_once. unfold handlePreviewPdf.
    destruct (fetchJson o) as [data|].
    + by apply (act_pdf_done i url (Some (default [] (data ≫= Gateway.text)))).
    + by apply (act_pdf_done i url None).
Qed.

End protocol.

(** ** The steps follow the protocol *)

Section session.
Context {math : FloatLog} {R : Type} {registry : UrlRegistry File R} (env : option jsstr).
Implicit Types (w : World R) (p : Page) (e : PageEvent) (ts : list Task).

Lemma commit_page w p' ts : page (commit w p' ts) = (fetchEffect (page w) p').1.
Proof. unfold commit. by destruct (fetchEffect _ _). Qed.

Lemma commit_pending w p' ts :
  pending (commit w p' ts) = pending w ++ ts ++ (fetchEffect (page w) p').2.
Proof. unfold commit. by destruct (fetchEffect _ _). Qed.

Lemma commit_acts w p' ts :
  rtc act (p', pending w ++ ts) (page (commit w p' ts), pending (commit w p' ts)).
Proof.
  rewrite commit_page, commit_pending.
  destruct (fetchEffect_cases (page w) p') as [-> | ->]; simpl.
  - by rewrite app_nil_r.
  - rewrite (assoc_L _). apply rtc_once. constructor.
Qed.

Lemma react_acts e w :
  rtc act (page w, pending w)
    ((react env e w).1.2, pending (react env e w).1.1 ++ (react env e w).2).
Proof.
  destruct e; cbn [react]; simpl;
    try (by apply act_browsed; first [apply applySearch_browsing|done]).
  - pose proof (handleSend_acts (page w) (pending w)) as H.
    by destruct (handleSend (page w)).
  - unfold pressed. destruct (handleEvent _ _ _ _) as [[b r] effects]. simpl.
    apply applyUpload_acts.
  - pose proof (handlePreview_acts (BASE_URL env) doc (page w) (pending w)) as H.
    by destruct (handlePreview _ _ _).
  - destruct (pending w !! i) as [t|] eqn:Hi; [|apply act_idle].
    destruct (resume t o (page w)) as [[p' started]|] eqn:Hr; [|apply act_idle].
    simpl. by eapply resume_acts.
  - destruct (timer w) as [deadline|]; [|apply act_idle].
    destruct (deadline <=? clock w)%N; [|apply act_idle].
    simpl. rewrite app_nil_r. apply rtc_once, act_expire.
Qed.


(** Every step is made of acts of the protocol. *)
Lemma step_acts e w :
  rtc act (page w, pending w) (page (step env e w), pending (step env e w)).
Proof.
  unfold step. destruct (enabled e w); [|done].
  pose proof (react_acts e w) as H.
  destruct (react env e w) as [[w' p'] started]. etrans; [exact H|apply commit_acts].
Qed.

Lemma visits_acts r0 w :
  visits env r0 w → rtc act (initialPage, []) (page w, pending w).
Proof.
  induction 1 as [|e w _ IH]; [done|]. etrans; [exact IH|apply step_acts].
Qed.

(** A property of the cells and the suspended handlers that every act
    keeps holds in every world a session visits. *)
Lemma visits_protocol (I : Page * list Task → Prop) r0 w :
  I (initialPage, []) → (∀ s s', act s s' → I s → I s') →
  visits env r0 w → I (page w, pending w).
Proof.
  intros Hinit Hact Hw. apply visits_acts in Hw.
  eapply (rtc_ind_r I); [exact Hinit| |exact Hw]. eauto.
Qed.

End session.

(** ** Requests in flight *)

Section in_flight.
Implicit Types (ts : list Task) (t : Task) (kind : Task → bool).

Lemma inFlight_snoc kind ts t :
  inFlight kind (ts ++ [t]) = inFlight kind ts ++ (if kind t then [t] else []).
Proof.
  unfold inFlight. rewrite filter_app. f_equal.
  destruct (kind t) eqn:E.
  - rewrite filter_cons_True by (by rewrite E). done.
  - rewrite filter_cons_False by (rewrite E; intros []). done.
Qed.

Lemma inFlight_delete kind i t ts :
  ts !! i = Some t →
  length (inFlight kind ts)
  = (if kind t then 1 else 0) + length (inFlight kind (delete i ts)).
Proof.
  intros Hi. unfold inFlight. rewrite (delete_Permutation ts i t) at 1 by done.
  destruct (kind t) eqn:E.
  - rewrite filter_cons_True by (by rewrite E). done.
  - rewrite filter_cons_False by (rewrite E; intros []). done.
Qed.

Lemma inFlight_nonempty kind ts : inFlight kind ts ≠ [] ↔ 0 < length (inFlight kind ts).
Proof. destruct (inFlight kind ts); simpl; split; intros H; first [done|lia]. Qed.

End in_flight.

(** ** Transcripts *)

Section transcript.
Implicit Types (ms : list ChatMessage) (m : ChatMessage).

Lemma pairs_ind (P : list ChatMessage → Prop) :
  P [] → (∀ m, P [m]) → (∀ m m' ms, P ms → P (m :: m' :: ms)) → ∀ ms, P ms.
Proof.
  intros Hnil Hone Hstep ms. cut (P ms ∧ ∀ m, P (m :: ms)); [tauto|].
  induction ms as [|m ms [IH1 IH2]]; [done|]. split; [done|]. intros m'. by apply Hstep.
Qed.

Lemma turns_user ms m :
  turns ms false → sender m = Some (js "user") → turns (ms ++ [m]) true.
Proof.
  induction ms as [|m0|m0 m1 ms IH] using pairs_ind; simpl; [done|by intros [_ ?]|].
  intros (? & ? & ?) ?. auto.
Qed.

Lemma turns_bot ms m :
  turns ms true → sender m = Some (js "bot") → turns (ms ++ [m]) false.
Proof.
  induction ms as [|m0|m0 m1 ms IH] using pairs_ind; simpl; [done|by intros [? _]|].
  intros (? & ? & ?) ?. auto.
Qed.

(** In a transcript of turns the messages at even places are the user's,
    those at odd places the bot's. *)
Lemma turns_lookup ms open i m :
  turns ms open → ms !! i = Some m →
  sender m = Some (if Nat.even i then js "user" else js "bot").
Proof.
  revert i. induction ms as [|m0|m0 m1 ms IH] using pairs_ind; intros i; simpl.
  - done.
  - intros [? _]. destruct i as [|[|i]]; naive_solver.
  - intros (? & ? & ?). destruct i as [|[|i]]; simpl; [naive_solver..|].
    by apply IH.
Qed.

Lemma turns_length ms open : turns ms open → open = Nat.odd (length ms).
Proof.
  induction ms as [|m0|m0 m1 ms IH] using pairs_ind; simpl; [done|by intros [_ ?]|].
  intros (_ & _ & ?). auto.
Qed.

End transcript.

(** ** The acts keep the invariants *)

Section invariants.
Implicit Types (p : Page) (ts : list Task) (s : Page * list Task).

Lemma chat_ok_act s s' : act s s' → chat_ok s → chat_ok s'.
Proof.
  unfold chat_ok.
  destruct 1 as [p p' ts (Hm & Hs & _)| | |t r p ts Hs|  | | | i r names p ts Hi
                |i t r answer p ts Hi|i f r m notice p ts Hi|i url t p ts Hi|i url t p ts Hi];
    simpl; intros [Ht Hn]; rewrite ?inFlight_snoc, ?app_nil_r;
    try rewrite (inFlight_delete isSend _ _ _ Hi) in Hn; simpl in *; try done.
  - by rewrite Hm, Hs.
  - rewrite Hs in *. split; [by apply turns_user|]. rewrite length_app; simpl. lia.
  - destruct (sending p); [|lia]. split; [by apply turns_bot|lia].
  - by destruct t.
Qed.

Lemma busy_ok_act s s' : act s s' → busy_ok s → busy_ok s'.
Proof.
  unfold busy_ok. setoid_rewrite inFlight_nonempty.
  destruct 1 as [p p' ts (_ & _ & _ & Hp & Hd & _)| | | | | | |i r names p ts Hi
                |i t r answer p ts Hi|i f r m notice p ts Hi|i url t p ts Hi
                |i url ot p ts Hi];
    simpl; intros [Hp' Hd']; rewrite ?inFlight_snoc, ?app_nil_r, ?length_app;
    try rewrite (inFlight_delete isPreview _ _ _ Hi) in Hp';
    try rewrite (inFlight_delete isListing _ _ _ Hi) in Hd';
    try destruct ot; simpl in *;
    (split; intros Hb; try rewrite Hp in Hb; try rewrite Hd in Hb;
     first [done | lia | specialize (Hp' Hb); lia | specialize (Hd' Hb); lia]).
Qed.

Lemma transcript_ok_act s s' : act s s' → transcript_ok s → transcript_ok s'.
Proof.
  unfold transcript_ok.
  destruct 1 as [p p' ts (Hm & _)| | | | | | | | | | |i url ot p ts Hi]; simpl;
    try destruct ot; try done; intros Hms.
  - by rewrite Hm.
  - apply Forall_app. split; [done|]. apply Forall_singleton. split; [done|by left].
  - apply Forall_app. split; [done|]. apply Forall_singleton. split; [done|by right].
Qed.

End invariants.

(** ** The timer, the clock and the upload button *)

Section world_lemmas.
Context {math : FloatLog} {R : Type} {registry : UrlRegistry File R} (env : option jsstr).
Implicit Types (w : World R) (p : Page) (e : PageEvent) (ts : list Task).

Lemma fetchEffect_notification p p' :
  notification (fetchEffect p p').1 = notification p'.
Proof. by destruct (fetchEffect_cases p p') as [-> | ->]. Qed.

Lemma commit_timer w p' ts :
  timer (commit w p' ts)
  = notificationEffect (notification (page w)) (notification p') (timer w) (clock w).
Proof.
  unfold commit. pose proof (fetchEffect_notification (page w) p') as H.
  destruct (fetchEffect _ _). simpl in *. by rewrite H.
Qed.

Lemma commit_clock w p' ts : clock (commit w p' ts) = clock w.
Proof. unfold commit. by destruct (fetchEffect _ _). Qed.

Lemma commit_button w p' ts :
  button (commit w p' ts) = button w ∧ urls (commit w p' ts) = urls w.
Proof. unfold commit. by destruct (fetchEffect _ _). Qed.

Lemma commit_sent w p' ts :
  sent (commit w p' ts)
  = sent w ++ (taskRequest <$> ts ++ (fetchEffect (page w) p').2).
Proof. unfold commit. by destruct (fetchEffect _ _). Qed.

(** A handler leaves the cells, the timer and the log of the world to the
    render; the clock does not go back. *)
Lemma pressed_base (b : Event) w :
  page (pressed b w).1 = page w ∧ pending (pressed b w).1 = pending w
  ∧ timer (pressed b w).1 = timer w ∧ sent (pressed b w).1 = sent w
  ∧ clock (pressed b w).1 = clock w.
Proof. unfold pressed. by destruct (handleEvent _ _ _ _) as [[? ?] ?]. Qed.

Lemma react_base e w :
  page (react env e w).1.1 = page w ∧ timer (react env e w).1.1 = timer w
  ∧ sent (react env e w).1.1 = sent w
  ∧ (clock w ≤ clock (react env e w).1.1)%N.
Proof.
  destruct e; cbn [react]; try (by repeat split; simpl; lia).
  - destruct (handleSend _). repeat split; simpl; lia.
  - pose proof (pressed_base e w) as (Hp & _ & Ht & Hs & Hc).
    destruct (pressed e w). simpl in *. rewrite Hp, Ht, Hs, Hc.
    repeat split; lia.
  - destruct (handlePreview _ _ _). repeat split; simpl; lia.
  - destruct (pending w !! i); [destruct (resume _ _ _) as [[]|]|];
      repeat split; simpl; lia.
  - destruct (timer w) eqn:E; [destruct (_ <=? _)%N|];
      repeat split; simpl; (done || lia).
Qed.

Lemma commit_timer_ok w p' ts : timer_ok w → timer_ok (commit w p' ts).
Proof.
  intros [Hn Hd]. unfold timer_ok.
  rewrite commit_timer, commit_page, commit_clock, fetchEffect_notification.
  unfold notificationEffect. destruct (decide _) as [<-|Hne]; [done|].
  destruct (truthy (notification p')) eqn:E.
  - apply truthy_true in E. split; [done|]. intros d [= <-]. lia.
  - apply truthy_false in E. done.
Qed.

Lemma step_timer_ok e w : timer_ok w → timer_ok (step env e w).
Proof.
  intros Hw. unfold step. destruct (enabled e w); [|done].
  pose proof (react_base e w) as (Hp & Ht & _ & Hc).
  destruct (react env e w) as [[w' p'] ts]. simpl in *.
  apply commit_timer_ok. destruct Hw as [Hn Hd]. unfold timer_ok.
  rewrite Ht, Hp. split; [done|]. intros d Hd'. specialize (Hd d Hd'). lia.
Qed.

Lemma play_snoc es e w : play env (es ++ [e]) w = step env e (play env es w).
Proof. unfold play. by rewrite foldl_app. Qed.

Lemma visits_play_from (r0 : R) es w :
  visits env r0 w → visits env r0 (play env es w).
Proof.
  intros Hw. induction es as [|e es IH] using rev_ind; [done|].
  rewrite play_snoc. by constructor.
Qed.

Lemma visits_play (r0 : R) es : visits env r0 (play env es (initialWorld r0)).
Proof. apply visits_play_from. constructor. Qed.

(** A handler of the page leaves the upload button alone, unless it is the
    button's own. *)
Lemma react_button (r0 : R) e w :
  reachable defaultProps r0 (button w) (urls w) →
  reachable defaultProps r0 (button (react env e w).1.1) (urls (react env e w).1.1).
Proof.
  intros Hw. destruct e; cbn [react]; try done.
  - by destruct (handleSend _).
  - unfold pressed. pose proof (reachable_step defaultProps r0 e _ _ Hw) as Hr.
    by destruct (handleEvent _ _ _ _) as [[b r] effects].
  - by destruct (handlePreview _ _ _).
  - by destruct (pending w !! i); [destruct (resume _ _ _) as [[]|]|].
  - by destruct (timer w); [destruct (_ <=? _)%N|].
Qed.

(** On the page the upload button is the component of [Upload], with the
    props left at their defaults. *)
Lemma visits_button (r0 : R) w :
  visits env r0 w → reachable defaultProps r0 (button w) (urls w).
Proof.
  induction 1 as [|e w _ IH]; [constructor|].
  unfold step. destruct (enabled e w); [|done].
  pose proof (react_button r0 e w IH) as Hr.
  destruct (react env e w) as [[w' p'] ts].
  by destruct (commit_button w' p' ts) as [-> ->].
Qed.

End world_lemmas.

(** ** Steps in closed form *)

Section steps.
Context {math : FloatLog} {R : Type} {registry : UrlRegistry File R} (env : option jsstr).
Implicit Types (w : World R) (p : Page) (e : PageEvent) (ts : list Task)
  (t : Task) (o : Outcome).

Lemma commit_same_route w p' ts :
  role p' = role (page w) → mode p' = mode (page w) →
  commit w p' ts
  = mkWorld p' (button w) (urls w) (pending w ++ ts)
      (sent w ++ (taskRequest <$> ts))
      (notificationEffect (notification (page w)) (notification p')
         (timer w) (clock w))
      (clock w).
Proof.
  intros Hr Hm. unfold commit, fetchEffect.
  rewrite decide_True by done. by rewrite app_nil_r.
Qed.

Lemma resume_route t o p p' ts :
  resume t o p = Some (p', ts) → role p' = role p ∧ mode p' = mode p.
Proof.
  destruct t as [r|tr r|f r m|url|url], o; intros; simplify_eq/=; try done.
  - by destruct (listFiles o).
  - unfold handleUploadDone, fetchDocuments in *. by destruct m; simplify_eq/=.
  - by destruct (fetchText o).
  - by destruct (fetchJson o).
Qed.

(** The end of a request, in closed form. *)
Lemma step_settle i o w t p' ts :
  pending w !! i = Some t → resume t o (page w) = Some (p', ts) →
  step env (Settle i o) w
  = mkWorld p' (button w) (urls w) (delete i (pending w) ++ ts)
      (sent w ++ (taskRequest <$> ts))
      (notificationEffect (notification (page w)) (notification p')
         (timer w) (clock w))
      (clock w).
Proof.
  intros Hi Hr. unfold step; cbn [enabled react]. rewrite Hi, Hr.
  destruct (resume_route _ _ _ _ _ Hr). by rewrite commit_same_route.
Qed.

Lemma step_close w :
  modalOpen (page w) = true → page (step env ClickClose w) = closePreview (page w).
Proof.
  intros H. unfold step; cbn [enabled react]. rewrite H.
  by rewrite commit_same_route.
Qed.

End steps.

(** ** Requests end *)

Section drain.
Context {math : FloatLog} {R : Type} {registry : UrlRegistry File R} (env : option jsstr).
Implicit Types (w : World R) (p : Page) (e : PageEvent) (ts : list Task)
  (t : Task) (o : Outcome).

Lemma resume_failure t p :
  ∃ p' ts, resume t (failure t) p = Some (p', ts)
           ∧ sum_list_with weight ts < weight t.
Proof. destruct t as [| | ? ? []| |]; simpl; eauto. Qed.

(** The requests in flight can all end, the ones they start included. *)
Lemma drain_pending n w :
  sum_list_with weight (pending w) ≤ n →
  ∃ es, Forall isSettle es ∧ pending (play env es w) = [].
Proof.
  revert w. induction n as [|n IH]; intros w Hn.
  - exists []. split; [done|]. simpl. destruct (pending w) as [|t ts]; [done|].
    simpl in Hn. destruct t as [| | ? ? []| |]; simpl in Hn; lia.
  - destruct (pending w) as [|t ts] eqn:Hp; [by exists []|].
    destruct (resume_failure t (page w)) as (p' & ts' & Hr & Hlt).
    destruct (IH (step env (Settle 0 (failure t)) w)) as (es & Hes & Hnil).
    { erewrite step_settle; [|by rewrite Hp|done]. simpl.
      rewrite Hp in *. simpl in *. rewrite sum_list_with_app. lia. }
    exists (Settle 0 (failure t) :: es). split; [|done].
    constructor; [by eexists _, _|done].
Qed.

End drain.

(** ** Consequences of the protocol *)

Section protocol_lemmas.
Implicit Types (s : Page * list Task).

Lemma act_messages s s' : act s s' → messages s.1 `prefix_of` messages s'.1.
Proof.
  destruct 1 as [p p' ts (Hm & _)| | | | | | | | | | |i url ot p ts Hi]; simpl;
    try destruct ot; try done; try (by apply prefix_app_r).
  by rewrite Hm.
Qed.

Lemma acts_messages s s' : rtc act s s' → messages s.1 `prefix_of` messages s'.1.
Proof.
  induction 1 as [|s1 s2 s3 H _ IH]; [done|]. etrans; [by apply act_messages|done].
Qed.

Lemma inFlight_elem kind ts :
  inFlight kind ts ≠ [] → ∃ t, t ∈ ts ∧ kind t = true.
Proof.
  destruct (inFlight kind ts) as [|t k] eqn:E; [done|]. intros _. exists t.
  assert (t ∈ inFlight kind ts) as H by (rewrite E; left).
  apply list_elem_of_filter in H as [H ?]. by apply Is_true_true in H.
Qed.

End protocol_lemmas.

(** ** The properties of a session *)

Section sessions.
Context {math : FloatLog} {R : Type} {registry : UrlRegistry File R} (env : option jsstr).
Implicit Types (w : World R) (p : Page) (e : PageEvent) (ts : list Task)
  (t : Task) (o : Outcome).

Lemma visits_chat_ok (r0 : R) w : visits env r0 w → chat_ok (page w, pending w).
Proof. apply (visits_protocol env chat_ok); [done|apply chat_ok_act]. Qed.

Lemma visits_busy_ok (r0 : R) w : visits env r0 w → busy_ok (page w, pending w).
Proof. apply (visits_protocol env busy_ok); [by split|apply busy_ok_act]. Qed.

(** C6: at every moment of a session at most one chat request is in
    flight, and one is in flight exactly while the Send button is
    disabled. *)
Theorem visits_one_send (r0 : R) w :
  visits env r0 w →
  length (inFlight isSend (pending w)) = if sending (page w) then 1 else 0.
Proof. by intros [_ ?]%visits_chat_ok. Qed.

(** C7: in every transcript a session can produce the user and the bot
    take turns: the messages at even places are the user's, those at odd
    places are the bot's, and the last one is the user's exactly while a
    reply is awaited. *)
Theorem visits_turns (r0 : R) w :
  visits env r0 w →
  sending (page w) = Nat.odd (length (messages (page w)))
  ∧ ∀ i m, messages (page w) !! i = Some m →
           sender m = Some (if Nat.even i then js "user" else js "bot").
Proof.
  intros [Ht _]%visits_chat_ok. split; [by apply turns_length|].
  intros i m. by apply (turns_lookup _ (sending (page w))).
Qed.

(** C27: the transcript is append-only: whatever happens in a session, the
    messages shown before are a prefix of the messages shown after. *)
Theorem play_appends es w :
  messages (page w) `prefix_of` messages (page (play env es w)).
Proof.
  induction es as [|e es IH] using rev_ind; [done|].
  unfold play in *. rewrite foldl_app. simpl. etrans; [exact IH|].
  set (w' := foldl _ w es).
  apply (acts_messages (page w', pending w') (page (step env e w'), pending (step env e w'))).
  apply step_acts.
Qed.

(** C8: every step of the page is made of acts of the protocol: what a
    handler, the render and the effects do to the cells and to the requests
    in flight is a sequence of browsing, starting a request and resuming
    the handler of a request that ended. *)
Theorem step_refines_protocol e w :
  rtc act (page w, pending w) (page (step env e w), pending (step env e w)).
Proof. apply step_acts. Qed.

(** C9: while the page shows the processing notice a preview request is
    in flight, and while it shows the loading notice a listing is in
    flight: no notice waits for a request that does not exist. *)
Theorem visits_busy (r0 : R) w :
  visits env r0 w →
  (processing (page w) = true → ∃ t, t ∈ pending w ∧ isPreview t = true)
  ∧ (docsLoading (page w) = true → ∃ t, t ∈ pending w ∧ isListing t = true).
Proof.
  intros [Hp Hd]%visits_busy_ok. split; intros H; apply inFlight_elem; auto.
Qed.

(** C10: the timer of the notification is set exactly while a notification
    is shown, and its deadline is at most 3000 ms away: every notification
    can expire, and none is cleared by a timer of an earlier one. *)
Theorem visits_timer (r0 : R) w :
  visits env r0 w →
  (timer w = None ↔ notification (page w) = [])
  ∧ ∀ d, timer w = Some d → (d ≤ clock w + 3000)%N.
Proof.
  induction 1 as [|e w _ IH]; [by split|]. by apply step_timer_ok.
Qed.

(** C26: in every transcript a session can produce the keys React is
    given for the messages are pairwise distinct. *)
Theorem visits_keys (r0 : R) w :
  visits env r0 w → NoDup (key <$> renderMessages (messages (page w))).
Proof.
  intros Hw. apply renderMessages_keys.
  apply (visits_protocol env transcript_ok r0 w);
    [constructor|apply transcript_ok_act|done].
Qed.

(** C16: the answer to a listing replaces the documents whatever the role
    is by then: the list shown under the current role is the list of the
    role the request was made for. *)
Theorem listing_ignores_role w i r names :
  pending w !! i = Some (ListTask r) →
  documents (page (step env (Settle i (listed names)) w)) = names
  ∧ role (page (step env (Settle i (listed names)) w)) = role (page w)
  ∧ docsLoading (page (step env (Settle i (listed names)) w)) = false
  ∧ pending (step env (Settle i (listed names)) w) = delete i (pending w).
Proof.
  intros Hi. erewrite step_settle by done. simpl. by rewrite app_nil_r.
Qed.

(** C15: closing the modal while a request of the preview is in flight
    does not close it: the file and the text are dropped and the modal
    stays open on the processing notice. *)
Theorem close_keeps_modal w :
  processing (page w) = true →
  renderModal (page (step env ClickClose w)) = Some (mkModalView true None None).
Proof.
  intros Hp. rewrite step_close by (by apply modalOpen_processing).
  unfold renderModal, modalOpen; simpl. by rewrite Hp.
Qed.

(** C14: the text extracted from a document is shown when it arrives even
    if the user has closed the preview meanwhile: the modal then shows the
    text of the document without the document. *)
Theorem late_extraction_shown w i url c (body : jsstr) :
  pending w !! i = Some (PdfTask url) → previewFile (page w) = None →
  renderModal (page (step env (Settle i (extracted (c :: body))) w))
  = Some (mkModalView false None (Some (c :: body))).
Proof.
  intros Hi Hf. erewrite step_settle by done. simpl.
  unfold renderModal, modalOpen, renderViewer; simpl. by rewrite Hf.
Qed.

(** C19: the body of the answer to the fetch of a [.txt] document is shown
    as its text whatever the status of the answer: the page of an error is
    previewed as if it were the document. *)
Theorem error_page_previewed w i url ok c (body : jsstr) :
  pending w !! i = Some (TextTask url) →
  renderModal
    (page (step env (Settle i (TextOutcome (FetchResponse ok (Some (c :: body))))) w))
  = Some (mkModalView false None (Some (c :: body))).
Proof. intros Hi. by erewrite step_settle by done. Qed.

(** C17: when an upload has ended the notification shows the message of
    the server or ["File uploaded"], and its timer is set anew only if that
    text differs from the one shown: a notification that repeats the
    current text expires with the timer of the first. *)
Theorem upload_notice_timer w i f r m (o : Http (option UploadData)) :
  pending w !! i = Some (UploadTask f r m) →
  notification (page (step env (Settle i (UploadOutcome o)) w))
  = uploadNotice (uploadFile o)
  ∧ timer (step env (Settle i (UploadOutcome o)) w)
    = if decide (notification (page w) = uploadNotice (uploadFile o))
      then timer w else Some (clock w + 3000)%N.
Proof.
  intros Hi.
  destruct (resume (UploadTask f r m) (UploadOutcome o) (page w))
    as [[p' ts]|] eqn:Hr; [|done].
  erewrite step_settle by done. simpl in *.
  assert (notification p' = uploadNotice (uploadFile o)) as ->.
  { unfold fetchDocuments in Hr. by destruct m; simplify_eq/=. }
  split; [done|]. unfold notificationEffect. case_decide; [done|].
  by rewrite (proj2 (truthy_true _) (uploadNotice_truthy _)).
Qed.

(** C18: an upload that failed is announced as ["File uploaded"]: the
    handler looks for a message in the answer and takes its absence for
    success. *)
Theorem failed_upload_notice w i f r m :
  pending w !! i = Some (UploadTask f r m) →
  notification (page (step env (Settle i (UploadOutcome HttpFail)) w))
  = js "File uploaded".
Proof.
  intros Hi.
  destruct (resume (UploadTask f r m) (UploadOutcome HttpFail) (page w))
    as [[p' ts]|] eqn:Hr; [|done].
  erewrite step_settle by done. simpl in *.
  unfold fetchDocuments in Hr. by destruct m; simplify_eq/=.
Qed.

Lemma pressed_drop w (f : File) fs :
  (pressed (Drop (Some (f :: fs))) w).2 = [CallOnUpload (OneFile f)].
Proof.
  unfold pressed, handleEvent. cbn [offered dispatch]. unfold onDrop.
  change (disabled defaultProps) with false. cbv iota.
  rewrite handleFiles_some by done. cbv zeta. by rewrite validFiles_default.
Qed.

(** C28: files dropped on the page start exactly one upload, of the first
    file and for the current role, whatever their types and sizes; the
    other files are not uploaded. *)
Theorem drop_uploads_first w (f : File) fs :
  pending (step env (OnButton (Drop (Some (f :: fs)))) w)
  = pending w ++ [UploadTask (OneFile f) (role (page w)) (mode (page w))]
  ∧ sent (step env (OnButton (Drop (Some (f :: fs)))) w)
    = sent w ++ [uploadFileRequest (OneFile f) (role (page w))]
  ∧ page (step env (OnButton (Drop (Some (f :: fs)))) w) = page w.
Proof.
  unfold step; cbn [enabled react].
  pose proof (pressed_drop w f fs) as He.
  pose proof (pressed_base (Drop (Some (f :: fs))) w) as (Hp & Hq & _ & Hs & _).
  destruct (pressed _ w) as [w' effects]. simpl in *. subst effects.
  rewrite commit_same_route by (by rewrite Hp). simpl. by rewrite Hq, Hs.
Qed.

(** C11: the requests in flight can always end, and once they have, the
    ones they started included, the page shows no notice and the Send
    button is enabled: no request leaves the page waiting for good. *)
Theorem requests_drain (r0 : R) w :
  visits env r0 w →
  ∃ es, Forall isSettle es ∧ pending (play env es w) = []
        ∧ sending (page (play env es w)) = false
        ∧ processing (page (play env es w)) = false
        ∧ docsLoading (page (play env es w)) = false.
Proof.
  intros Hw. destruct (drain_pending env _ w (Nat.le_refl _)) as (es & Hes & Hnil).
  exists es. apply (visits_play_from env r0 es) in Hw.
  destruct (visits_chat_ok _ _ Hw) as [_ Hs].
  destruct (visits_busy_ok _ _ Hw) as [Hp Hd].
  rewrite Hnil in *. simpl in *. split_and!; try done.
  - by destruct (sending _).
  - by destruct (processing _); [destruct Hp|].
  - by destruct (docsLoading _); [destruct Hd|].
Qed.

End sessions.

(** ** The properties at concrete inputs, on the host [exactLog] *)

#[local] Existing Instance exactLog.

Lemma visits_one_send_witness :
  length (inFlight isSend (pending (play None asking emptyWorld))) = 1.
Proof. apply (visits_one_send None browser_empty), visits_play. Defined.

Lemma visits_turns_witness :
  sending (page (play None asking emptyWorld)) = true.
Proof. apply (visits_turns None browser_empty), visits_play. Defined.

Lemma visits_keys_witness :
  NoDup (key <$> renderMessages (messages (page (play None chatting emptyWorld)))).
Proof. apply (visits_keys None browser_empty), visits_play. Defined.

(** The keys of that transcript. *)
Example chatting_keys :
  key <$> renderMessages (messages (page (play None chatting emptyWorld)))
  = [js "user-0-hi"; js "bot-1-hi"; js "user-2-hi"].
Proof. by vm_compute. Qed.

Lemma requests_drain_witness :
  ∃ es, Forall isSettle es
        ∧ pending (play None es (play None dismissing emptyWorld)) = []
        ∧ sending (page (play None es (play None dismissing emptyWorld))) = false
        ∧ processing (page (play None es (play None dismissing emptyWorld))) = false
        ∧ docsLoading (page (play None es (play None dismissing emptyWorld))) = false.
Proof. apply (requests_drain None browser_empty), visits_play. Defined.

Lemma visits_busy_witness :
  ∃ t, t ∈ pending (play None opening emptyWorld) ∧ isPreview t = true.
Proof.
  by apply (visits_busy None browser_empty (play None opening emptyWorld));
    [apply visits_play|].
Defined.

Lemma visits_timer_witness :
  timer (play None uploading emptyWorld) = None
  ↔ notification (page (play None uploading emptyWorld)) = [].
Proof. apply (visits_timer None browser_empty), visits_play. Defined.

Lemma listing_ignores_role_witness :
  documents
    (page (step None (Settle 0 (listed [js "handbook.txt"]))
             (play None switching emptyWorld)))
  = [js "handbook.txt"]
  ∧ role
      (page (step None (Settle 0 (listed [js "handbook.txt"]))
               (play None switching emptyWorld)))
    = js "Legal"
  ∧ docsLoading
      (page (step None (Settle 0 (listed [js "handbook.txt"]))
               (play None switching emptyWorld)))
    = false
  ∧ pending
      (step None (Settle 0 (listed [js "handbook.txt"]))
         (play None switching emptyWorld))
    = [].
Proof.
  exact (listing_ignores_role None (play None switching emptyWorld) 0 (js "HR")
           [js "handbook.txt"] eq_refl).
Defined.

Lemma close_keeps_modal_witness :
  renderModal (page (step None ClickClose (play None opening emptyWorld)))
  = Some (mkModalView true None None).
Proof. by apply close_keeps_modal. Defined.

Lemma late_extraction_shown_witness :
  renderModal
    (page (step None (Settle 1 (extracted (js "Clause 1")))
             (play None dismissing emptyWorld)))
  = Some (mkModalView false None (Some (js "Clause 1"))).
Proof.
  by apply (late_extraction_shown None _ 1
              (js "http://localhost:8000/process_pdf/Legal/contract.pdf")).
Defined.

Lemma error_page_previewed_witness :
  renderModal
    (page (step None (Settle 0 (TextOutcome (FetchResponse false (Some (js "Not Found")))))
             (play None [ClickDocuments; Settle 0 (listed [js "notes.txt"]);
                         ClickDocument (js "notes.txt")] emptyWorld)))
  = Some (mkModalView false None (Some (js "Not Found"))).
Proof.
  by apply (error_page_previewed None _ 0
              (js "http://localhost:8000/download/HR/notes.txt")).
Defined.

Lemma upload_notice_timer_witness :
  timer (step None (Settle 0 (UploadOutcome HttpFail)) (play None uploading emptyWorld))
  = Some 3000%N
  ∧ clock (play None uploading emptyWorld) = 2000%N.
Proof.
  split; [|done].
  exact (proj2 (upload_notice_timer None (play None uploading emptyWorld) 0 (OneFile report)
                  (js "HR") Chat HttpFail eq_refl)).
Defined.

Lemma failed_upload_notice_witness :
  notification
    (page (step None (Settle 0 (UploadOutcome HttpFail))
             (play None [OnButton (Drop (Some [photo; scan]))] emptyWorld)))
  = js "File uploaded".
Proof. by apply (failed_upload_notice None _ 0 (OneFile photo) (js "HR") Chat). Defined.

